(** * discord-cleanup: the deletion engine of [discord-message-cleaner.js]

    A shallow embedding of [cleanMessages] and [cleanUntilMessage]
    (src/discord-message-cleaner.js, lines 115-249) and of the discord.js calls
    they await.  The chat platform is an interface ([Platform]); every
    awaited call either resolves or rejects, and every call the engine makes
    is recorded, with its answer, in a list of events.  The two command
    handlers that call the engine (lines 252-448), the loading of the
    configuration (lines 45-64) and the questions of the setup script are
    embedded as well. *)

From Stdlib Require Import List ZArith String Ascii Bool Arith Lia DecimalString Sorted.
Import ListNotations.

Local Open Scope string_scope.
Local Open Scope list_scope.

(** ** Data model *)

(** A discord.js [Message]: only the two fields the engine reads.  The id is
    a snowflake, a string of decimal digits. *)
Record Message : Type := mkMessage {
  id : string;
  createdTimestamp : Z
}.

(** A discord.js [Collection] is a [Map] in insertion order; a page of
    messages is kept as the list of its values (newest first, as the platform
    sends them). *)
Definition Collection : Type := list Message.

Definition size (c : Collection) : nat := List.length c.

Definition has (key : string) (c : Collection) : bool :=
  existsb (fun m => String.eqb (id m) key) c.

Definition get (key : string) (c : Collection) : option Message :=
  find (fun m => String.eqb (id m) key) c.

(** [Collection.last()]: the value inserted last, [undefined] when empty. *)
Fixpoint last (c : Collection) : option Message :=
  match c with
  | [] => None
  | [m] => Some m
  | _ :: rest => last rest
  end.

(** The argument of [channel.messages.fetch]. *)
Record FetchOptions : Type := mkOptions {
  limit : Z;
  before : option string
}.

Definition Error : Type := string.

(** An awaited promise settles one way or the other. *)
Inductive result (A : Type) : Type :=
| Resolved (a : A)
| Rejected (e : Error).
Arguments Resolved {A} a.
Arguments Rejected {A} e.

(** The texts handed to [responseCallback]; the count is kept apart from its
    rendering. *)
Inductive Response : Type :=
| Deleted (deletedCount : nat)
| DeletedUpTo (deletedCount : nat)
| TargetNotFound
| ErrorText.

Definition showNat (n : nat) : string := NilEmpty.string_of_uint (Nat.to_uint n).

Definition render (r : Response) : string :=
  match r with
  | Deleted n => ("Successfully deleted " ++ showNat n ++ " messages.")%string
  | DeletedUpTo n =>
      ("Successfully deleted " ++ showNat n
         ++ " messages up to the target message.")%string
  | TargetNotFound =>
      "Target message not found. Deleted all fetchable messages in the channel."
  | ErrorText =>
      "There was an error deleting messages. Some messages may be too old to delete in bulk."
  end.

(** What the engine does to the outside, in order.  The assignment to the
    pagination cursor (line 172) is recorded as well, so that its place among
    the calls can be stated. *)
Inductive Event : Type :=
| EFetch (options : FetchOptions) (answer : result Collection)
| EBulkDelete (messages : Collection) (filterOld : bool) (answer : result Collection)
| EDelete (msg : Message) (answer : result unit)
| ENow (t : Z)
| ESleep (ms : Z)
| EConsoleError (text : string) (e : Error)
| ERespond (r : Response) (answer : result unit)
| EAssignCursor (lastMessageId : string).

(** ** The platform interface *)

(** The discord.js client and the JavaScript runtime, as the engine uses
    them.  [World] is everything outside the engine: the channel, the clock,
    the network. *)
Class Platform (World : Type) : Type := {
  messages_fetch : FetchOptions -> World -> result Collection * World;
  bulkDelete : Collection -> bool -> World -> result Collection * World;
  msg_delete : Message -> World -> result unit * World;
  Date_now : World -> Z;
  setTimeout : Z -> World -> World
}.

(** [responseCallback] is the caller's; it is awaited and may reject. *)
Definition Callback (World : Type) : Type :=
  string -> World -> result unit * World.

(** ** The engine monad: world, events, exceptions, fuel *)

Inductive outcome (A : Type) : Type :=
| Ok (a : A)
| Throw (e : Error)
| OutOfFuel.
Arguments Ok {A} a.
Arguments Throw {A} e.
Arguments OutOfFuel {A}.

Record Run (World A : Type) : Type := mkRun {
  outcome_of : outcome A;
  world_of : World;
  events_of : list Event
}.
Arguments mkRun {World A} _ _ _.
Arguments outcome_of {World A} _.
Arguments world_of {World A} _.
Arguments events_of {World A} _.

Definition M (World A : Type) : Type := World -> Run World A.

Definition ret {World A} (a : A) : M World A :=
  fun w => mkRun (Ok a) w [].

Definition throw {World A} (e : Error) : M World A :=
  fun w => mkRun (Throw e) w [].

Definition bind {World A B} (m : M World A) (k : A -> M World B) : M World B :=
  fun w =>
    let r := m w in
    match outcome_of r with
    | Ok a =>
        let r' := k a (world_of r) in
        mkRun (outcome_of r') (world_of r') (events_of r ++ events_of r')
    | Throw e => mkRun (Throw e) (world_of r) (events_of r)
    | OutOfFuel => mkRun OutOfFuel (world_of r) (events_of r)
    end.

(** [try { m } catch (e) { handler e }]; running out of fuel is not an
    exception and is not caught. *)
Definition try_catch {World A} (m : M World A) (handler : Error -> M World A)
  : M World A :=
  fun w =>
    let r := m w in
    match outcome_of r with
    | Throw e =>
        let r' := handler e (world_of r) in
        mkRun (outcome_of r') (world_of r') (events_of r ++ events_of r')
    | _ => r
    end.

Declare Scope engine_scope.
Delimit Scope engine_scope with engine.
Notation "x <- m ;; k" := (bind m (fun x => k))
  (at level 100, m at next level, right associativity) : engine_scope.
Notation "m ;;; k" := (bind m (fun _ => k))
  (at level 100, right associativity) : engine_scope.

(** An awaited call: one event, then the promise's value or its rejection. *)
Definition await {World A} (call : World -> result A * World)
    (event : result A -> Event) : M World A :=
  fun w =>
    let (answer, w') := call w in
    mkRun (match answer with Resolved a => Ok a | Rejected e => Throw e end)
          w' [event answer].

Section Engine.

Context {World : Type} `{Platform World}.

Definition fetch (options : FetchOptions) : M World Collection :=
  await (messages_fetch options) (EFetch options).

Definition awaitBulkDelete (messages : Collection) (filterOld : bool)
  : M World Collection :=
  await (bulkDelete messages filterOld) (EBulkDelete messages filterOld).

Definition delete (msg : Message) : M World unit :=
  await (msg_delete msg) (EDelete msg).

Definition now : M World Z :=
  fun w => mkRun (Ok (Date_now w)) w [ENow (Date_now w)].

(** [await new Promise(resolve => setTimeout(resolve, ms))] *)
Definition sleep (ms : Z) : M World unit :=
  fun w => mkRun (Ok tt) (setTimeout ms w) [ESleep ms].

Definition console_error (text : string) (e : Error) : M World unit :=
  fun w => mkRun (Ok tt) w [EConsoleError text e].

Definition respond (responseCallback : Callback World) (r : Response)
  : M World unit :=
  await (responseCallback (render r)) (ERespond r).

(** [14 * 24 * 60 * 60 * 1000] *)
Definition fourteenDays : Z := 14 * 24 * 60 * 60 * 1000.

Definition isRecent (twoWeeksAgo : Z) (msg : Message) : bool :=
  (createdTimestamp msg >? twoWeeksAgo)%Z.

Definition isOld (twoWeeksAgo : Z) (msg : Message) : bool :=
  (createdTimestamp msg <=? twoWeeksAgo)%Z.

Local Open Scope engine_scope.

(** [for (const msg of oldMessages.values()) { try { await msg.delete();
    deletedCount++; await sleep(100) } catch (deleteErr) { console.error } }]
    (lines 134-144, 196-206, 223-233). *)
Fixpoint deleteOld (oldMessages : Collection) (deletedCount : nat)
  : M World nat :=
  match oldMessages with
  | [] => ret deletedCount
  | msg :: rest =>
      deletedCount' <-
        try_catch
          (delete msg ;;;
           sleep 100 ;;;
           ret (S deletedCount))
          (fun deleteErr =>
             console_error "Error deleting older message:" deleteErr ;;;
             ret deletedCount) ;;
      deleteOld rest deletedCount'
  end.

(** The statements the source repeats three times (lines 121-144, 185-206,
    212-233): take the cutoff, split, bulk-delete the recent messages when
    there are any, then delete the old ones one by one.  The value is the
    updated [deletedCount]. *)
Definition partitionAndDelete (messages : Collection) (deletedCount : nat)
  : M World nat :=
  t <- now ;;
  let twoWeeksAgo := (t - fourteenDays)%Z in
  let recentMessages := filter (isRecent twoWeeksAgo) messages in
  let oldMessages := filter (isOld twoWeeksAgo) messages in
  deletedCount' <-
    (if (0 <? size recentMessages)%nat
     then awaitBulkDelete recentMessages true ;;;
          ret (deletedCount + size recentMessages)%nat
     else ret deletedCount) ;;
  deleteOld oldMessages deletedCount'.

(** [cleanMessages(channel, amount, responseCallback)], lines 115-152. *)
Definition cleanMessages (amount : Z) (responseCallback : Callback World)
  : M World unit :=
  try_catch
    (fetchedMessages <- fetch (mkOptions amount None) ;;
     deletedCount <- partitionAndDelete fetchedMessages 0 ;;
     respond responseCallback (Deleted deletedCount))
    (fun error =>
       console_error "Error deleting messages:" error ;;;
       respond responseCallback ErrorText).

(** The local variables of [cleanUntilMessage] (lines 157-159). *)
Record Locals : Type := mkLocals {
  targetFound : bool;
  deletedCount : nat;
  lastMessageId : option string
}.

(** [lastMessageId = messages.last().id] (line 172). *)
Definition assignLastMessageId (l : Locals) (oldestId : string)
  : M World Locals :=
  fun w =>
    mkRun (Ok (mkLocals (targetFound l) (deletedCount l) (Some oldestId))) w
          [EAssignCursor oldestId].

(** JavaScript truthiness of [lastMessageId]: [null] and the empty string
    are falsy. *)
Definition truthy (x : option string) : bool :=
  match x with
  | Some EmptyString => false
  | Some _ => true
  | None => false
  end.

(** [const options = { limit: 100 }; if (lastMessageId) options.before =
    lastMessageId;] *)
Definition fetchOptions (lastMessageId : option string) : FetchOptions :=
  mkOptions 100 (if truthy lastMessageId then lastMessageId else None).

(** [messages.filter(msg => msg.id !== targetMessageId &&
    msg.createdTimestamp > messages.get(targetMessageId).createdTimestamp)] *)
Definition newerThan (targetMessageId : string) (target : Message)
    (msg : Message) : bool :=
  negb (String.eqb (id msg) targetMessageId)
  && (createdTimestamp msg >? createdTimestamp target)%Z.

Definition typeError : Error := "TypeError: Cannot read properties of undefined".

(** The [while (!targetFound)] loop, lines 162-237; one unit of fuel per
    test of the loop condition.  [break] is the return of the locals. *)
Fixpoint cleanUntilLoop (fuel : nat) (targetMessageId : string) (l : Locals)
  : M World Locals :=
  match fuel with
  | O => fun w => mkRun OutOfFuel w []
  | S fuel' =>
      if targetFound l then ret l
      else
        messages <- fetch (fetchOptions (lastMessageId l)) ;;
        if (size messages =? 0)%nat then ret l
        else
          match last messages with
          | None => throw typeError
          | Some oldest =>
              l1 <- assignLastMessageId l (id oldest) ;;
              if has targetMessageId messages then
                let l2 := mkLocals true (deletedCount l1) (lastMessageId l1) in
                match get targetMessageId messages with
                | None => throw typeError
                | Some target =>
                    let toDelete :=
                      filter (newerThan targetMessageId target) messages in
                    n <- (if (0 <? size toDelete)%nat
                          then partitionAndDelete toDelete (deletedCount l2)
                          else ret (deletedCount l2)) ;;
                    ret (mkLocals (targetFound l2) n (lastMessageId l2))
                end
              else
                n <- partitionAndDelete messages (deletedCount l1) ;;
                sleep 1000 ;;;
                cleanUntilLoop fuel' targetMessageId
                  (mkLocals (targetFound l1) n (lastMessageId l1))
          end
  end.

(** [cleanUntilMessage(channel, targetMessageId, responseCallback)], lines
    155-249. *)
Definition cleanUntilMessage (fuel : nat) (targetMessageId : string)
    (responseCallback : Callback World) : M World unit :=
  try_catch
    (l <- cleanUntilLoop fuel targetMessageId (mkLocals false 0 None) ;;
     respond responseCallback
       (if targetFound l then DeletedUpTo (deletedCount l) else TargetNotFound))
    (fun error =>
       console_error "Error cleaning messages:" error ;;;
       respond responseCallback ErrorText).

End Engine.

(** ** Reading a list of events *)

(** The collections handed to [bulkDelete], call by call. *)
Fixpoint bulkCalls (tr : list Event) : list Collection :=
  match tr with
  | [] => []
  | EBulkDelete ms _ _ :: tr' => ms :: bulkCalls tr'
  | _ :: tr' => bulkCalls tr'
  end.

(** The messages whose individual [delete] was called, in order. *)
Fixpoint deleteCalls (tr : list Event) : list Message :=
  match tr with
  | [] => []
  | EDelete m _ :: tr' => m :: deleteCalls tr'
  | _ :: tr' => deleteCalls tr'
  end.

(** Every message passed to a delete call, bulk or individual. *)
Fixpoint deletedArgs (tr : list Event) : list Message :=
  match tr with
  | [] => []
  | EBulkDelete ms _ _ :: tr' => ms ++ deletedArgs tr'
  | EDelete m _ :: tr' => m :: deletedArgs tr'
  | _ :: tr' => deletedArgs tr'
  end.

(** The individual deletes that rejected. *)
Fixpoint rejectedDeletes (tr : list Event) : nat :=
  match tr with
  | [] => 0
  | EDelete _ (Rejected _) :: tr' => S (rejectedDeletes tr')
  | _ :: tr' => rejectedDeletes tr'
  end.

(** The pages the fetches resolved with. *)
Fixpoint fetchedPages (tr : list Event) : list Collection :=
  match tr with
  | [] => []
  | EFetch _ (Resolved page) :: tr' => page :: fetchedPages tr'
  | _ :: tr' => fetchedPages tr'
  end.

Definition fetchedTotal (tr : list Event) : nat :=
  List.length (List.concat (fetchedPages tr)).

Fixpoint fetchCalls (tr : list Event) : list FetchOptions :=
  match tr with
  | [] => []
  | EFetch options _ :: tr' => options :: fetchCalls tr'
  | _ :: tr' => fetchCalls tr'
  end.

Fixpoint responses (tr : list Event) : list Response :=
  match tr with
  | [] => []
  | ERespond r _ :: tr' => r :: responses tr'
  | _ :: tr' => responses tr'
  end.

(** What the engine adds to [deletedCount]: the whole collection for a bulk
    call that resolved, one for an individual delete that resolved. *)
Fixpoint credited (tr : list Event) : nat :=
  match tr with
  | [] => 0
  | EBulkDelete ms _ (Resolved _) :: tr' => size ms + credited tr'
  | EDelete _ (Resolved _) :: tr' => S (credited tr')
  | _ :: tr' => credited tr'
  end.

(** What the platform says it deleted. *)
Fixpoint reportedDeleted (tr : list Event) : nat :=
  match tr with
  | [] => 0
  | EBulkDelete _ _ (Resolved reported) :: tr' => size reported + reportedDeleted tr'
  | EDelete _ (Resolved _) :: tr' => S (reportedDeleted tr')
  | _ :: tr' => reportedDeleted tr'
  end.

(** Did a fetch or a bulk delete reject? *)
Fixpoint fatalRejection (tr : list Event) : bool :=
  match tr with
  | [] => false
  | EFetch _ (Rejected _) :: _ => true
  | EBulkDelete _ _ (Rejected _) :: _ => true
  | _ :: tr' => fatalRejection tr'
  end.

(** Did any platform call reject? *)
Fixpoint anyRejection (tr : list Event) : bool :=
  match tr with
  | [] => false
  | EFetch _ (Rejected _) :: _ => true
  | EBulkDelete _ _ (Rejected _) :: _ => true
  | EDelete _ (Rejected _) :: _ => true
  | _ :: tr' => anyRejection tr'
  end.

(** ** A reference channel

    A concrete platform after the interface the engine consumes: a page is
    the newest [limit] live messages older (by snowflake) than [before];
    [limit] outside 1..100 is refused; a bulk delete with [filterOld] skips
    what is older than fourteen days; every call consumes one entry of a
    fault script and rejects, without effect, when the entry is [true];
    a pause moves the clock. *)

Definition snowflake (s : string) : N :=
  match NilEmpty.uint_of_string s with
  | Some u => N.of_uint u
  | None => 0%N
  end.

Record Channel : Type := mkChannel {
  live : Collection;
  clock : Z;
  faults : list bool
}.

Definition nextFault (c : Channel) : bool * Channel :=
  match faults c with
  | [] => (false, c)
  | f :: rest => (f, mkChannel (live c) (clock c) rest)
  end.

Definition olderThan (b : string) (m : Message) : bool :=
  (snowflake (id m) <? snowflake b)%N.

Definition candidates (before : option string) (ms : Collection) : Collection :=
  match before with
  | None => ms
  | Some b => filter (olderThan b) ms
  end.

Definition keeps (gone : Collection) (m : Message) : bool :=
  negb (has (id m) gone).

Definition apiError : Error := "DiscordAPIError".

Definition reference_fetch (options : FetchOptions) (c : Channel)
  : result Collection * Channel :=
  let (fault, c1) := nextFault c in
  if fault then (Rejected apiError, c1)
  else if ((limit options <? 1) || (100 <? limit options))%Z
  then (Rejected "DiscordAPIError: Invalid Form Body", c1)
  else (Resolved (firstn (Z.to_nat (limit options))
                         (candidates (before options) (live c1))), c1).

Definition reference_bulkDelete (messages : Collection) (filterOld : bool) (c : Channel)
  : result Collection * Channel :=
  let (fault, c1) := nextFault c in
  if fault then (Rejected apiError, c1)
  else
    let twoWeeksAgo := (clock c1 - fourteenDays)%Z in
    if negb filterOld && existsb (isOld twoWeeksAgo) messages
    then (Rejected "DiscordAPIError: message too old to bulk delete", c1)
    else
      let gone := filter (fun m => isRecent twoWeeksAgo m && has (id m) (live c1))
                         messages in
      (Resolved gone,
       mkChannel (filter (keeps gone) (live c1)) (clock c1) (faults c1)).

Definition reference_delete (msg : Message) (c : Channel)
  : result unit * Channel :=
  let (fault, c1) := nextFault c in
  if fault then (Rejected apiError, c1)
  else (Resolved tt,
        mkChannel (filter (keeps [msg]) (live c1)) (clock c1) (faults c1)).

#[export] Instance ChannelPlatform : Platform Channel := {|
  messages_fetch := reference_fetch;
  bulkDelete := reference_bulkDelete;
  msg_delete := reference_delete;
  Date_now := clock;
  setTimeout := fun ms c => mkChannel (live c) (clock c + ms)%Z (faults c)
|}.

(** A callback that always resolves and leaves the world alone. *)
Definition quietCallback {World : Type} : Callback World :=
  fun _ w => (Resolved tt, w).

Definition day : Z := 24 * 60 * 60 * 1000.

(** Scenario: five messages, all within fourteen days, [cleanMessages 5]. *)
Definition fiveRecent : Channel :=
  mkChannel [mkMessage "1005" (100 * day + 5); mkMessage "1004" (100 * day + 4);
             mkMessage "1003" (100 * day + 3); mkMessage "1002" (100 * day + 2);
             mkMessage "1001" (100 * day + 1)]
            (101 * day) [].

(** Scenario: three recent and two aged messages among the newest five. *)
Definition threeRecentTwoAged : Channel :=
  mkChannel [mkMessage "1005" (100 * day + 5); mkMessage "1004" (100 * day + 4);
             mkMessage "1003" (100 * day + 3); mkMessage "1002" (50 * day);
             mkMessage "1001" (40 * day)]
            (101 * day) [].

(** One aged message; the fetch resolves, the individual delete rejects. *)
Definition oneAgedFaulty : Channel :=
  mkChannel [mkMessage "1001" (40 * day)] (101 * day) [false; true].

(** Two messages, the older one created exactly fourteen days before the
    clock's reading. *)
Definition oneAtCutoff : Channel :=
  mkChannel [mkMessage "1002" (100 * day); mkMessage "1001" (101 * day - fourteenDays)]
            (101 * day) [].

(** A message as Discord makes it: the id is the creation time in
    milliseconds since the Discord epoch, shifted left by 22 bits, plus a
    sequence number below [2 ^ 22]. *)
Definition discordEpoch : Z := 1420070400000.

Definition snowflakeMessage (createdAt : Z) (sequence : N) : Message :=
  mkMessage
    (NilEmpty.string_of_uint
       (N.to_uint (Z.to_N (createdAt - discordEpoch) * 4194304 + sequence)))
    createdAt.

(** A history of 101 messages, newest first.  The hundredth message and the
    target behind it were created in the same millisecond. *)
Definition tieInstant : Z := discordEpoch + 100 * day + 5.

Definition tieTarget : Message := snowflakeMessage tieInstant 0.

Definition tieHistory : Collection :=
  map (fun i => snowflakeMessage (tieInstant + 200 - Z.of_nat i) 0) (seq 0 99)
  ++ [snowflakeMessage tieInstant 1; tieTarget].

Definition tieChannel : Channel :=
  mkChannel tieHistory (discordEpoch + 101 * day) [].

(** Two recent messages are about to be bulk-deleted, but the second one is
    no longer live when the call is made. *)
Definition racedPair : Collection :=
  [mkMessage "1005" (100 * day + 5); mkMessage "1004" (100 * day + 4)].

Definition racedChannel : Channel :=
  mkChannel [mkMessage "1005" (100 * day + 5)] (101 * day) [].

(** Two aged messages; the first platform call rejects. *)
Definition twoAged : Collection :=
  [mkMessage "1002" (50 * day); mkMessage "1001" (40 * day)].

Definition twoAgedFirstFails : Channel := mkChannel twoAged (101 * day) [true].

(** Scenario: ten recent messages on one page; the target is the
    third-oldest. *)
Definition tenRecent : Channel :=
  mkChannel (map (fun i => mkMessage (showNat (1010 - i))
                             (100 * day + 10 - Z.of_nat i)) (seq 0 10))
            (101 * day) [].

(** A callback that always rejects. *)
Definition rejectingCallback {World : Type} : Callback World :=
  fun _ w => (Rejected "DiscordAPIError: Unknown interaction", w).

(** ** Properties of a list of events, as checks *)

(** Every delete call after a reading of the clock obeys the cutoff taken
    from that reading: bulk calls hold recent messages only, individual
    deletes are of old messages only. *)
Fixpoint partitioned (twoWeeksAgo : option Z) (tr : list Event) : bool :=
  match tr with
  | [] => true
  | ENow t :: tr' => partitioned (Some (t - fourteenDays)%Z) tr'
  | EBulkDelete ms _ _ :: tr' =>
      match twoWeeksAgo with
      | Some c => forallb (isRecent c) ms
      | None => false
      end && partitioned twoWeeksAgo tr'
  | EDelete m _ :: tr' =>
      match twoWeeksAgo with
      | Some c => isOld c m
      | None => false
      end && partitioned twoWeeksAgo tr'
  | _ :: tr' => partitioned twoWeeksAgo tr'
  end.

(** A message may be deleted from [page] when it does not carry the target
    id and, if the target is on the page, is strictly newer than it. *)
Definition mayDelete (targetMessageId : string) (page : Collection)
    (m : Message) : bool :=
  negb (String.eqb (id m) targetMessageId)
  && match get targetMessageId page with
     | Some target => (createdTimestamp m >? createdTimestamp target)%Z
     | None => true
     end.

(** Every delete call obeys [mayDelete] for the page fetched last. *)
Fixpoint respectsTarget (targetMessageId : string) (page : Collection)
    (tr : list Event) : bool :=
  match tr with
  | [] => true
  | EFetch _ (Resolved p) :: tr' => respectsTarget targetMessageId p tr'
  | EBulkDelete ms _ _ :: tr' =>
      forallb (mayDelete targetMessageId page) ms
      && respectsTarget targetMessageId page tr'
  | EDelete m _ :: tr' =>
      mayDelete targetMessageId page m
      && respectsTarget targetMessageId page tr'
  | _ :: tr' => respectsTarget targetMessageId page tr'
  end.

Definition optionsEqb (a b : FetchOptions) : bool :=
  (limit a =? limit b)%Z
  && match before a, before b with
     | Some x, Some y => String.eqb x y
     | None, None => true
     | _, _ => false
     end.

(** The cursor discipline of the pagination loop.  [pending] is the id of
    the oldest message of a page that was fetched and whose id the cursor has
    not taken yet; [cursor] is the value of [lastMessageId].  A fetch asks
    for what the cursor says; after a non-empty page the cursor takes the id
    of the page's oldest message, and no delete call comes in between. *)
Fixpoint cursorDiscipline (pending cursor : option string) (tr : list Event)
  : bool :=
  match tr with
  | [] => true
  | EFetch options answer :: tr' =>
      optionsEqb options (fetchOptions cursor)
      && match pending with None => true | Some _ => false end
      && cursorDiscipline
           (match answer with
            | Resolved page => option_map id (last page)
            | Rejected _ => None
            end) cursor tr'
  | EAssignCursor x :: tr' =>
      match pending with
      | Some y => String.eqb x y
      | None => false
      end && cursorDiscipline None (Some x) tr'
  | EBulkDelete _ _ _ :: tr' | EDelete _ _ :: tr' =>
      match pending with None => true | Some _ => false end
      && cursorDiscipline pending cursor tr'
  | _ :: tr' => cursorDiscipline pending cursor tr'
  end.

(** Ids that JavaScript takes as truthy. *)
Definition wellFormed (ms : Collection) : bool :=
  forallb (fun m => negb (String.eqb (id m) EmptyString)) ms.

(** The cutoff in force after a list of events. *)
Fixpoint cutoffAfter (twoWeeksAgo : option Z) (tr : list Event) : option Z :=
  match tr with
  | [] => twoWeeksAgo
  | ENow t :: tr' => cutoffAfter (Some (t - fourteenDays)%Z) tr'
  | _ :: tr' => cutoffAfter twoWeeksAgo tr'
  end.

Fixpoint cursorAssignments (tr : list Event) : list string :=
  match tr with
  | [] => []
  | EAssignCursor x :: tr' => x :: cursorAssignments tr'
  | _ :: tr' => cursorAssignments tr'
  end.

(** The platform's contract for a page: never more messages than asked. *)
Definition honoursLimit {World : Type} `{Platform World} : Prop :=
  forall options w,
    match fst (messages_fetch options w) with
    | Resolved page => (size page <= Z.to_nat (limit options))%nat
    | Rejected _ => True
    end.

(** A caller's callback that always resolves. *)
Definition alwaysResolves {World : Type} (responseCallback : Callback World)
  : Prop :=
  forall text w, fst (responseCallback text w) = Resolved tt.

(** The events of reporting: the callback and the console. *)
Definition isReport (e : Event) : bool :=
  match e with
  | ERespond _ _ | EConsoleError _ _ => true
  | _ => false
  end.

(** Deleting only ever removes live messages of the reference channel. *)
Definition shrinks (c c' : Channel) : Prop :=
  exists g, live c' = filter g (live c).

(** [a] comes before [b] in a history the platform keeps newest first: its
    snowflake is greater, and it was not created earlier. *)
Definition precedes (a b : Message) : Prop :=
  (snowflake (id b) < snowflake (id a))%N
  /\ (createdTimestamp b <= createdTimestamp a)%Z.

Definition newestFirst (ms : Collection) : Prop := StronglySorted precedes ms.

Fixpoint newestFirstb (ms : Collection) : bool :=
  match ms with
  | [] => true
  | a :: rest =>
      forallb (fun b => (snowflake (id b) <? snowflake (id a))%N
                        && (createdTimestamp b <=? createdTimestamp a)%Z) rest
      && newestFirstb rest
  end.

(** ** Further readings of a list of events *)

Definition sameMessage (a b : Message) : bool :=
  String.eqb (id a) (id b) && (createdTimestamp a =? createdTimestamp b)%Z.

Definition isOn (page : Collection) (m : Message) : bool :=
  existsb (sameMessage m) page.

(** Every delete call, bulk or individual, is of messages of the page that
    was fetched last. *)
Fixpoint fromLastPage (page : Collection) (tr : list Event) : bool :=
  match tr with
  | [] => true
  | EFetch _ (Resolved p) :: tr' => fromLastPage p tr'
  | EBulkDelete ms _ _ :: tr' => forallb (isOn page) ms && fromLastPage page tr'
  | EDelete m _ :: tr' => isOn page m && fromLastPage page tr'
  | _ :: tr' => fromLastPage page tr'
  end.

(** How many pauses of [ms] milliseconds there are. *)
Fixpoint pauses (ms : Z) (tr : list Event) : nat :=
  match tr with
  | [] => 0
  | ESleep ms' :: tr' => (if (ms' =? ms)%Z then 1 else 0) + pauses ms tr'
  | _ :: tr' => pauses ms tr'
  end.

Fixpoint resolvedDeletes (tr : list Event) : nat :=
  match tr with
  | [] => 0
  | EDelete _ (Resolved _) :: tr' => S (resolvedDeletes tr')
  | _ :: tr' => resolvedDeletes tr'
  end.

(** An individual delete that resolved is directly followed by the pause of
    100 ms; one that rejected is directly followed by the log of its error,
    not by a pause. *)
Fixpoint paced (tr : list Event) : bool :=
  match tr with
  | [] => true
  | EDelete _ (Resolved _) :: tr' =>
      match tr' with
      | ESleep ms :: _ => (ms =? 100)%Z
      | _ => false
      end && paced tr'
  | EDelete _ (Rejected e) :: tr' =>
      match tr' with
      | EConsoleError _ e' :: _ => String.eqb e e'
      | _ => false
      end && paced tr'
  | _ :: tr' => paced tr'
  end.

(** A pause of 1000 ms is directly followed by the next fetch (or by
    nothing, when the fuel ends there). *)
Fixpoint pagePaced (tr : list Event) : bool :=
  match tr with
  | [] => true
  | ESleep ms :: tr' =>
      (if (ms =? 1000)%Z
       then match tr' with
            | [] => true
            | EFetch _ _ :: _ => true
            | _ => false
            end
       else true) && pagePaced tr'
  | _ :: tr' => pagePaced tr'
  end.

(** After a page that holds the target nothing more is fetched. *)
Fixpoint stopsAtTarget (targetMessageId : string) (tr : list Event) : bool :=
  match tr with
  | [] => true
  | EFetch _ (Resolved page) :: tr' =>
      if has targetMessageId page
      then match fetchCalls tr' with [] => true | _ => false end
      else stopsAtTarget targetMessageId tr'
  | _ :: tr' => stopsAtTarget targetMessageId tr'
  end.

(** A callback that resolves and leaves the messages, the clock's faults
    aside, as they are. *)
Definition leavesHistory (responseCallback : Callback Channel) : Prop :=
  forall text c,
    fst (responseCallback text c) = Resolved tt
    /\ live (snd (responseCallback text c)) = live c.

Definition distinctIds (ms : Collection) : Prop := NoDup (map id ms).

(** ** What the passes of a list of events owe

    At each reading of the clock a pass owes the messages selected from the
    page fetched last, split at the cutoff of that reading: the recent ones
    to the bulk delete, the old ones to the individual deletes.  The old
    ones are not owed when the bulk delete of the pass rejected. *)

(** [cleanMessages] hands the whole page to the pass. *)
Definition wholePage (page : Collection) : Collection := page.

(** [cleanUntilMessage] hands over the page, or what is newer than the
    target when the page holds it (lines 175-211). *)
Definition upToTarget (targetMessageId : string) (page : Collection) : Collection :=
  match get targetMessageId page with
  | Some target => filter (newerThan targetMessageId target) page
  | None => page
  end.

Definition bulkRejectedNext (tr : list Event) : bool :=
  match tr with
  | EBulkDelete _ _ (Rejected _) :: _ => true
  | _ => false
  end.

Fixpoint dueInBulk (select : Collection -> Collection) (pending : Collection)
    (tr : list Event) : Collection :=
  match tr with
  | [] => []
  | EFetch _ (Resolved page) :: tr' => dueInBulk select (select page) tr'
  | ENow t :: tr' =>
      filter (isRecent (t - fourteenDays)%Z) pending ++ dueInBulk select pending tr'
  | _ :: tr' => dueInBulk select pending tr'
  end.

Fixpoint dueOneByOne (select : Collection -> Collection) (pending : Collection)
    (tr : list Event) : Collection :=
  match tr with
  | [] => []
  | EFetch _ (Resolved page) :: tr' => dueOneByOne select (select page) tr'
  | ENow t :: tr' =>
      (if bulkRejectedNext tr' then []
       else filter (isOld (t - fourteenDays)%Z) pending)
        ++ dueOneByOne select pending tr'
  | _ :: tr' => dueOneByOne select pending tr'
  end.

(** Events that owe nothing and settle nothing: no reading of the clock,
    no fetch, no bulk delete. *)
Definition idle (e : Event) : bool :=
  match e with
  | ENow _ | EFetch _ _ | EBulkDelete _ _ _ => false
  | _ => true
  end.

(** ** The command handlers (lines 252-448)

    The two event handlers that call the engine.  The JavaScript built-ins
    whose results depend on Unicode tables or on rounding ([trim],
    [toLowerCase], [parseInt]) are parameters; what the handlers do with
    their results is modelled. *)

(** The value of [parseInt]: not a number, an integer, or an infinity. *)
Inductive JsNumber : Type :=
| NaN
| Num (z : Z)
| Infinity (negative : bool).

(** [config.json], as the setup script builds it and the handlers read
    it. *)
Record Config : Type := mkConfig {
  prefix : string;
  authorizedUsers : list string;
  deleteConfirmationTimeout : JsNumber
}.

(** [isNaN(amount) || amount < 1 || amount > 100] (line 365). *)
Definition outOfRange (amount : JsNumber) : bool :=
  match amount with
  | NaN => true
  | Num z => (z <? 1)%Z || (100 <? z)%Z
  | Infinity _ => true
  end.

Definition isDigit (c : ascii) : bool :=
  (48 <=? nat_of_ascii c)%nat && (nat_of_ascii c <=? 57)%nat.

Fixpoint allDigits (s : string) : bool :=
  match s with
  | EmptyString => true
  | String c rest => isDigit c && allDigits rest
  end.

(** [/^\d+$/.test(s)] *)
Definition digitsOnly (s : string) : bool :=
  match s with
  | EmptyString => false
  | String _ _ => allDigits s
  end.

(** [!targetMessageId || !/^\d+$/.test(targetMessageId)] (lines 291, 396);
    the argument is [undefined] or [null] when it is missing. *)
Definition badMessageId (targetMessageId : option string) : bool :=
  match targetMessageId with
  | None => true
  | Some s => negb (truthy (Some s)) || negb (digitsOnly s)
  end.

(** The keys a [config.json] may hold; their values are taken to be of the
    types the handlers expect. *)
Record FileConfig : Type := mkFileConfig {
  file_prefix : option string;
  file_authorizedUsers : option (list string);
  file_deleteConfirmationTimeout : option JsNumber
}.

(** The configuration before the file is read (lines 45-49). *)
Definition defaultConfig : Config := mkConfig "!" [] (Num 5000).

Definition orDefault {A : Type} (fromFile : option A) (default : A) : A :=
  match fromFile with
  | Some a => a
  | None => default
  end.

(** Lines 52-64: [None] when there is no [config.json], a rejection when
    reading or parsing it throws (the error is logged and the defaults stay),
    and otherwise [{ ...config, ...fileConfig }]. *)
Definition loadConfig (file : option (result FileConfig)) : Config :=
  match file with
  | Some (Resolved fileConfig) =>
      mkConfig (orDefault (file_prefix fileConfig) (prefix defaultConfig))
               (orDefault (file_authorizedUsers fileConfig)
                          (authorizedUsers defaultConfig))
               (orDefault (file_deleteConfirmationTimeout fileConfig)
                          (deleteConfirmationTimeout defaultConfig))
  | Some (Rejected _) => defaultConfig
  | None => defaultConfig
  end.

(** The integer that a number in range is; the other numbers do not pass
    the test of line 365. *)
Definition integerValue (amount : JsNumber) : Z :=
  match amount with
  | Num z => z
  | _ => 0
  end.

(** The string that a truthy argument is. *)
Definition stringValue (argument : option string) : string :=
  match argument with
  | Some s => s
  | None => EmptyString
  end.

(** [s.slice(n)] for [n] up to the length of [s]. *)
Definition slice (n : nat) (s : string) : string :=
  String.substring n (String.length s - n) s.

(** [s.split(/ +/)]: the pieces between runs of spaces; a run at either end
    leaves an empty piece there. *)
Fixpoint splitSpacesFrom (inGap : bool) (current s : string) : list string :=
  match s with
  | EmptyString => [current]
  | String c rest =>
      if Ascii.eqb c " "
      then if inGap then splitSpacesFrom true current rest
           else current :: splitSpacesFrom true EmptyString rest
      else splitSpacesFrom false (current ++ String c EmptyString)%string rest
  end.

Definition splitSpaces (s : string) : list string :=
  splitSpacesFrom false EmptyString s.

(** The texts the handlers answer with. *)
Inductive Notice : Type :=
| NotAuthorized
| NeedPermission
| NumberBetween
| InvalidMessageId
| HelpText
| VersionText (info : string).

(** What a handler does, in order; the engine's events are kept as they
    are. *)
Inductive DispatchEvent : Type :=
| DReply (n : Notice) (answer : result unit)
| DFloating (n : Notice)
| DDeleteCommand (msg : Message) (answer : result unit)
| DDeferReply (answer : result unit)
| DReadPackage (answer : result string)
| DConsoleError (text : string) (e : Error)
| DEngine (e : Event).

(** The calls of the handlers that the engine does not make. *)
Class Dispatch (World : Type) : Type := {
  message_reply : Notice -> World -> result unit * World;
  interaction_reply : Notice -> World -> result unit * World;
  interaction_deferReply : World -> result unit * World;
  interaction_editReply : string -> World -> result unit * World;
  channel_send : string -> World -> result Message * World;
  channel_sendNotice : Notice -> World -> result unit * World;
  scheduleDelete : Message -> JsNumber -> World -> World;
  readPackageInfo : World -> result string * World
}.

(** The message that carries a prefix command, sent in a guild (where the
    bot's permissions are defined). *)
Record Incoming : Type := mkIncoming {
  author_bot : bool;
  content : string;
  author_id : string;
  canManageMessages : bool;
  commandMessage : Message
}.

(** A slash command. *)
Record Interaction : Type := mkInteraction {
  isCommand : bool;
  user_id : string;
  botCanManageMessages : bool;
  commandName : string;
  option_amount : Z;
  option_messageid : option string
}.

Record DRun (World A : Type) : Type := mkDRun {
  d_outcome : outcome A;
  d_world : World;
  d_events : list DispatchEvent
}.
Arguments mkDRun {World A} _ _ _.
Arguments d_outcome {World A} _.
Arguments d_world {World A} _.
Arguments d_events {World A} _.

Definition D (World A : Type) : Type := World -> DRun World A.

Definition dret {World A} (a : A) : D World A :=
  fun w => mkDRun (Ok a) w [].

Definition dthrow {World A} (e : Error) : D World A :=
  fun w => mkDRun (Throw e) w [].

Definition dbind {World A B} (m : D World A) (k : A -> D World B) : D World B :=
  fun w =>
    let r := m w in
    match d_outcome r with
    | Ok a =>
        let r' := k a (d_world r) in
        mkDRun (d_outcome r') (d_world r') (d_events r ++ d_events r')
    | Throw e => mkDRun (Throw e) (d_world r) (d_events r)
    | OutOfFuel => mkDRun OutOfFuel (d_world r) (d_events r)
    end.

Definition dtry_catch {World A} (m : D World A) (handler : Error -> D World A)
  : D World A :=
  fun w =>
    let r := m w in
    match d_outcome r with
    | Throw e =>
        let r' := handler e (d_world r) in
        mkDRun (d_outcome r') (d_world r') (d_events r ++ d_events r')
    | _ => r
    end.

Definition dawait {World A} (call : World -> result A * World)
    (event : result A -> DispatchEvent) : D World A :=
  fun w =>
    let (answer, w') := call w in
    mkDRun (match answer with Resolved a => Ok a | Rejected e => Throw e end)
           w' [event answer].

(** A run of the engine inside a handler. *)
Definition engine {World A} (m : M World A) : D World A :=
  fun w =>
    let r := m w in
    mkDRun (outcome_of r) (world_of r) (map DEngine (events_of r)).

Section Handlers.

Context {World : Type} `{Platform World} `{Dispatch World}.

Variable trim : string -> string.
Variable toLowerCase : string -> string.
Variable parseInt : string -> JsNumber.

(** [parseInt(args[0])]; [parseInt(undefined)] is [NaN]. *)
Definition parseArgument (argument : option string) : JsNumber :=
  match argument with
  | None => NaN
  | Some s => parseInt s
  end.

(** [config.authorizedUsers.includes(id)] *)
Definition includes (id0 : string) (users : list string) : bool :=
  existsb (String.eqb id0) users.

Definition dconsole_error (text : string) (e : Error) : D World unit :=
  fun w => mkDRun (Ok tt) w [DConsoleError text e].

(** A call whose promise is neither awaited nor returned. *)
Definition floating (call : Notice -> World -> result unit * World) (n : Notice)
  : D World unit :=
  fun w => mkDRun (Ok tt) (snd (call n w)) [DFloating n].

(** The callback of the prefix commands (lines 374-386, 405-417): send the
    text, arrange for the confirmation to be deleted later; a failure to
    send is logged and swallowed. *)
Definition confirmationCallback (timeout : JsNumber) : Callback World :=
  fun responseText w =>
    let (sent, w1) := channel_send responseText w in
    match sent with
    | Resolved reply => (Resolved tt, scheduleDelete reply timeout w1)
    | Rejected _ => (Resolved tt, w1)
    end.

(** The callback of the slash commands (lines 282-284, 302-304). *)
Definition editReplyCallback : Callback World :=
  fun message w => interaction_editReply message w.

(** [client.on('messageCreate', ...)], lines 343-448. *)
Definition onMessageCreate (fuel : nat) (config : Config) (message : Incoming)
  : D World unit :=
  if author_bot message || negb (String.prefix (prefix config) (content message))
  then dret tt
  else if negb (includes (author_id message) (authorizedUsers config))
  then dawait (message_reply NotAuthorized) (DReply NotAuthorized)
  else if negb (canManageMessages message)
  then dawait (message_reply NeedPermission) (DReply NeedPermission)
  else
    match splitSpaces (trim (slice (String.length (prefix config)) (content message)))
    with
    | [] => dthrow typeError
    | first :: args =>
        let command := toLowerCase first in
        if String.eqb command "clean" then
          let amount := parseArgument (hd_error args) in
          if outOfRange amount
          then dawait (message_reply NumberBetween) (DReply NumberBetween)
          else
            dtry_catch
              (dbind (dawait (msg_delete (commandMessage message))
                             (DDeleteCommand (commandMessage message)))
                     (fun _ =>
                        engine (cleanMessages (integerValue amount)
                                  (confirmationCallback
                                     (deleteConfirmationTimeout config)))))
              (fun error => dconsole_error "Error in clean command:" error)
        else if String.eqb command "cleanuntil" then
          let targetMessageId := hd_error args in
          if badMessageId targetMessageId
          then dawait (message_reply InvalidMessageId) (DReply InvalidMessageId)
          else
            dtry_catch
              (dbind (dawait (msg_delete (commandMessage message))
                             (DDeleteCommand (commandMessage message)))
                     (fun _ =>
                        engine (cleanUntilMessage fuel (stringValue targetMessageId)
                                  (confirmationCallback (Num 5000)))))
              (fun error => dconsole_error "Error in cleanuntil command:" error)
        else if String.eqb command "help" then floating channel_sendNotice HelpText
        else if String.eqb command "version" then
          dbind (dawait readPackageInfo DReadPackage)
                (fun info => floating channel_sendNotice (VersionText info))
        else dret tt
    end.

(** [client.on('interactionCreate', ...)], lines 252-340. *)
Definition onInteractionCreate (fuel : nat) (config : Config)
    (interaction : Interaction) : D World unit :=
  if negb (isCommand interaction) then dret tt
  else if negb (includes (user_id interaction) (authorizedUsers config))
  then dawait (interaction_reply NotAuthorized) (DReply NotAuthorized)
  else if negb (botCanManageMessages interaction)
  then dawait (interaction_reply NeedPermission) (DReply NeedPermission)
  else if String.eqb (commandName interaction) "clean" then
    dbind (dawait interaction_deferReply DDeferReply)
          (fun _ => engine (cleanMessages (option_amount interaction)
                              editReplyCallback))
  else if String.eqb (commandName interaction) "cleanuntil" then
    let targetMessageId := option_messageid interaction in
    if badMessageId targetMessageId
    then dawait (interaction_reply InvalidMessageId) (DReply InvalidMessageId)
    else
      dbind (dawait interaction_deferReply DDeferReply)
            (fun _ => engine (cleanUntilMessage fuel (stringValue targetMessageId)
                                editReplyCallback))
  else if String.eqb (commandName interaction) "help"
  then floating interaction_reply HelpText
  else if String.eqb (commandName interaction) "version" then
    dbind (dawait readPackageInfo DReadPackage)
          (fun info => floating interaction_reply (VersionText info))
  else dret tt.

End Handlers.

(** The handlers' other calls on the reference channel: each consumes one
    entry of the fault script, like the platform's calls; a confirmation is
    not kept in the history, and the timer that deletes it is not run. *)
Definition reference_call {A : Type} (a : A) (c : Channel) : result A * Channel :=
  let (fault, c1) := nextFault c in
  if fault then (Rejected apiError, c1) else (Resolved a, c1).

#[export] Instance ChannelDispatch : Dispatch Channel := {|
  message_reply := fun _ => reference_call tt;
  interaction_reply := fun _ => reference_call tt;
  interaction_deferReply := reference_call tt;
  interaction_editReply := fun _ => reference_call tt;
  channel_send := fun _ c => reference_call (mkMessage "0" (clock c)) c;
  channel_sendNotice := fun _ => reference_call tt;
  scheduleDelete := fun _ _ c => c;
  readPackageInfo := reference_call "package.json"
|}.

(** Stand-ins for the built-ins on plain ASCII input, for the examples:
    [trim] removes spaces at both ends, [toLowerCase] maps [A]-[Z], and
    [parseInt] reads the leading decimal digits. *)
Fixpoint dropSpaces (s : string) : string :=
  match s with
  | String c rest => if Ascii.eqb c " " then dropSpaces rest else s
  | EmptyString => EmptyString
  end.

Fixpoint reverse (acc s : string) : string :=
  match s with
  | String c rest => reverse (String c acc) rest
  | EmptyString => acc
  end.

Definition asciiTrim (s : string) : string :=
  reverse EmptyString (dropSpaces (reverse EmptyString (dropSpaces s))).

Definition asciiLower (c : ascii) : ascii :=
  let n := nat_of_ascii c in
  if (65 <=? n)%nat && (n <=? 90)%nat then ascii_of_nat (n + 32) else c.

Fixpoint asciiLowerCase (s : string) : string :=
  match s with
  | String c rest => String (asciiLower c) (asciiLowerCase rest)
  | EmptyString => EmptyString
  end.

Fixpoint leadingDigits (acc : option Z) (s : string) : option Z :=
  match s with
  | String c rest =>
      if isDigit c
      then leadingDigits
             (Some (10 * match acc with Some z => z | None => 0 end
                    + (Z.of_nat (nat_of_ascii c) - 48))%Z) rest
      else acc
  | EmptyString => acc
  end.

Definition parseDigits (s : string) : JsNumber :=
  match leadingDigits None s with
  | Some z => Num z
  | None => NaN
  end.

(** ** The setup script's questions (part_002, lines 128-233)

    [question] reads one line; the lines the user types are a list, taken
    in order.  What the script prints is left out; the result is what is
    written to [config.json], that is [JSON.stringify(config, null, 2)],
    with the lines not yet read, or nothing when the lines run out (the
    script then waits). *)

(** A number as [JSON.stringify] writes it: [null] for what is not a finite
    number. *)
Definition stringifyNumber (n : JsNumber) : option Z :=
  match n with
  | Num z => Some z
  | NaN => None
  | Infinity _ => None
  end.

(** The contents of [config.json]; the timeout is a number or [null]. *)
Record ConfigJson : Type := mkConfigJson {
  json_prefix : string;
  json_authorizedUsers : list string;
  json_deleteConfirmationTimeout : option Z
}.

Definition JSON_stringify (config : Config) : ConfigJson :=
  mkConfigJson (prefix config) (authorizedUsers config)
               (stringifyNumber (deleteConfirmationTimeout config)).

(** [s.split(',')] *)
Fixpoint splitCommasFrom (current s : string) : list string :=
  match s with
  | EmptyString => [current]
  | String c rest =>
      if Ascii.eqb c ","
      then current :: splitCommasFrom EmptyString rest
      else splitCommasFrom (current ++ String c EmptyString)%string rest
  end.

Definition splitCommas (s : string) : list string :=
  splitCommasFrom EmptyString s.

(** [!isNaN(n) && n > 0] *)
Definition positiveNumber (n : JsNumber) : bool :=
  match n with
  | NaN => false
  | Num z => (0 <? z)%Z
  | Infinity negative => negb negative
  end.

Section Setup.

Variable trim : string -> string.
Variable parseInt10 : string -> JsNumber.

(** [!s.trim()] *)
Definition blank (s : string) : bool := String.eqb (trim s) EmptyString.

(** [configureBotSettings], lines 128-200; first the loop of lines
    147-155: ask until the answer is a string of digits. *)
Fixpoint askUserId (answers : list string) : option (string * list string) :=
  match answers with
  | [] => None
  | authorizedUser :: rest =>
      if negb (digitsOnly authorizedUser) then askUserId rest
      else Some (authorizedUser, rest)
  end.

Definition configureBotSettings (answers : list string)
  : option (ConfigJson * list string) :=
  match answers with
  | [] => None
  | answer :: answers1 =>
      let prefix := if blank answer then "!"%string else answer in
      match askUserId answers1 with
      | Some (authorizedUser, additionalUsersInput :: timeoutStr :: rest) =>
          let additionalUsers :=
            if negb (blank additionalUsersInput)
            then filter digitsOnly (map trim (splitCommas additionalUsersInput))
            else [] in
          let timeout :=
            if negb (blank timeoutStr)
            then if positiveNumber (parseInt10 timeoutStr)
                 then parseInt10 timeoutStr
                 else Num 5000
            else Num 5000 in
          let config := mkConfig prefix (authorizedUser :: additionalUsers) timeout in
          Some (JSON_stringify config, rest)
      | _ => None
      end
  end.

(** [setupBotToken], lines 203-233: ask until the answer is not the empty
    string; a blank answer is complained about, but only the empty one is
    asked for again.  The result is the token written to [.env], the number
    of complaints printed, and the lines not yet read. *)
Fixpoint askToken (complaints : nat) (answers : list string)
  : option (string * nat * list string) :=
  match answers with
  | [] => None
  | token :: rest =>
      let complaints' := if blank token then S complaints else complaints in
      if negb (truthy (Some token)) then askToken complaints' rest
      else Some (token, complaints', rest)
  end.

Definition setupBotToken (answers : list string)
  : option (string * nat * list string) :=
  askToken 0 answers.

End Setup.

(** The engine's events among a handler's. *)
Fixpoint engineEvents (tr : list DispatchEvent) : list Event :=
  match tr with
  | [] => []
  | DEngine e :: tr' => e :: engineEvents tr'
  | _ :: tr' => engineEvents tr'
  end.

(** The deletions of the command message. *)
Fixpoint commandDeletes (tr : list DispatchEvent) : list Message :=
  match tr with
  | [] => []
  | DDeleteCommand msg _ :: tr' => msg :: commandDeletes tr'
  | _ :: tr' => commandDeletes tr'
  end.

(** Examples for the handlers: a configuration, a user it authorizes, and
    commands of that user. *)
Definition botConfig : Config := mkConfig "!" ["42"] (Num 3000).

Definition cleanCommand : Incoming :=
  mkIncoming false "!clean 2" "42" true (mkMessage "1006" (100 * day + 6)).

Definition cleanUntilCommand : Incoming :=
  mkIncoming false "!CleanUntil  1003" "42" true (mkMessage "1006" (100 * day + 6)).

Definition cleanUntilInteraction : Interaction :=
  mkInteraction true "42" true "cleanuntil" 0 (Some "1003").

(** The channel with the command message on top of its history. *)
Definition withCommand (message : Incoming) (c : Channel) : Channel :=
  mkChannel (commandMessage message :: live c) (clock c) (faults c).

(** The same, with a first call that rejects. *)
Definition firstCallRejects (c : Channel) : Channel :=
  mkChannel (live c) (clock c) (true :: faults c).

(** The lines typed to the setup script in the example. *)
Definition typedAnswers : list string :=
  [EmptyString; "my id"; "42"; "7, seven ,8"; "2500"; "token"].

(** ** The monad and the event readers *)

Section MonadFacts.

Context {World : Type}.

Lemma bind_assoc {A B C} (m : M World A) (k : A -> M World B)
    (h : B -> M World C) w :
  bind (bind m k) h w = bind m (fun x => bind (k x) h) w.
Proof.
  unfold bind. destruct (outcome_of (m w)); cbn [outcome_of world_of events_of];
    [|reflexivity|reflexivity].
  destruct (outcome_of (k a (world_of (m w)))); cbn [outcome_of world_of events_of];
    rewrite ?app_assoc; reflexivity.
Qed.

Lemma try_catch_ext {A} (m m' : M World A) handler w :
  m w = m' w -> try_catch m handler w = try_catch m' handler w.
Proof. intros E. unfold try_catch. rewrite E. reflexivity. Qed.

(** The shape both operations share: run a body, hand its result to the
    callback; on an exception log it and hand the error text instead. *)
Lemma guarded_run {A} (body : M World A) (f : A -> Response) text
    (responseCallback : Callback World) w :
  let r := try_catch
             (bind body (fun x => await (responseCallback (render (f x)))
                                        (ERespond (f x))))
             (fun e => bind (fun w0 => mkRun (Ok tt) w0 [EConsoleError text e])
                            (fun _ => await (responseCallback (render ErrorText))
                                            (ERespond ErrorText))) w in
  match outcome_of (body w) with
  | Ok a =>
      match responseCallback (render (f a)) (world_of (body w)) with
      | (Resolved u, w1) =>
          r = mkRun (Ok u) w1 (events_of (body w) ++ [ERespond (f a) (Resolved u)])
      | (Rejected e, w1) =>
          let (answer, w2) := responseCallback (render ErrorText) w1 in
          r = mkRun (match answer with Resolved u => Ok u | Rejected e' => Throw e' end)
                    w2
                    (events_of (body w)
                       ++ [ERespond (f a) (Rejected e); EConsoleError text e;
                           ERespond ErrorText answer])
      end
  | Throw e =>
      let (answer, w1) := responseCallback (render ErrorText) (world_of (body w)) in
      r = mkRun (match answer with Resolved u => Ok u | Rejected e' => Throw e' end)
                w1
                (events_of (body w) ++ [EConsoleError text e; ERespond ErrorText answer])
  | OutOfFuel => r = mkRun OutOfFuel (world_of (body w)) (events_of (body w))
  end.
Proof.
  cbv zeta. unfold try_catch, bind, await.
  destruct (outcome_of (body w)) as [a|e|]; cbn [outcome_of world_of events_of].
  - destruct (responseCallback (render (f a)) (world_of (body w))) as [[u|e] w1];
      cbn [outcome_of world_of events_of]; [reflexivity|].
    destruct (responseCallback (render ErrorText) w1) as [answer w2].
    cbn [outcome_of world_of events_of app]. rewrite <- app_assoc. reflexivity.
  - destruct (responseCallback (render ErrorText) (world_of (body w))) as [answer w1].
    cbn [outcome_of world_of events_of app]. reflexivity.
  - reflexivity.
Qed.

(** Whatever the callback does, the operation's events are the body's,
    followed by reporting only. *)
Lemma guarded_events {A} (body : M World A) (f : A -> Response) text
    (responseCallback : Callback World) w :
  exists tail,
    events_of
      (try_catch
         (bind body (fun x => await (responseCallback (render (f x)))
                                    (ERespond (f x))))
         (fun e => bind (fun w0 => mkRun (Ok tt) w0 [EConsoleError text e])
                        (fun _ => await (responseCallback (render ErrorText))
                                        (ERespond ErrorText))) w)
    = events_of (body w) ++ tail
    /\ forallb isReport tail = true.
Proof.
  pose proof (guarded_run body f text responseCallback w) as R. cbv zeta in R.
  destruct (outcome_of (body w)) as [a|e|].
  - destruct (responseCallback (render (f a)) (world_of (body w))) as [[u|e] w1].
    + rewrite R. eexists. split; reflexivity.
    + destruct (responseCallback (render ErrorText) w1) as [answer w2].
      rewrite R. eexists. split; reflexivity.
  - destruct (responseCallback (render ErrorText) (world_of (body w))) as [answer w1].
    rewrite R. eexists. split; reflexivity.
  - rewrite R. exists []. rewrite app_nil_r. split; reflexivity.
Qed.

End MonadFacts.

Ltac unlet := repeat match goal with x := _ |- _ => subst x end.

Ltac app_reader :=
  let a := fresh "a" in
  let e := fresh "e" in
  let IH := fresh "IH" in
  intros a; induction a as [|e a IH]; intros; simpl;
  [ reflexivity
  | destruct e; simpl; try rewrite IH; try reflexivity;
    repeat match goal with
           | r : result _ |- _ => destruct r; simpl; try rewrite IH
           end;
    try reflexivity; try (rewrite <- ?app_assoc; reflexivity); try lia ].

Lemma bulkCalls_app : forall a b, bulkCalls (a ++ b) = bulkCalls a ++ bulkCalls b.
Proof. app_reader. Qed.

Lemma deleteCalls_app : forall a b, deleteCalls (a ++ b) = deleteCalls a ++ deleteCalls b.
Proof. app_reader. Qed.

Lemma deletedArgs_app : forall a b, deletedArgs (a ++ b) = deletedArgs a ++ deletedArgs b.
Proof. app_reader. Qed.

Lemma rejectedDeletes_app :
  forall a b, rejectedDeletes (a ++ b) = (rejectedDeletes a + rejectedDeletes b)%nat.
Proof. app_reader. Qed.

Lemma fetchedPages_app :
  forall a b, fetchedPages (a ++ b) = fetchedPages a ++ fetchedPages b.
Proof. app_reader. Qed.

Lemma fetchedTotal_app :
  forall a b, fetchedTotal (a ++ b) = (fetchedTotal a + fetchedTotal b)%nat.
Proof.
  intros a b. unfold fetchedTotal.
  rewrite fetchedPages_app, concat_app, length_app. reflexivity.
Qed.

Lemma fetchCalls_app : forall a b, fetchCalls (a ++ b) = fetchCalls a ++ fetchCalls b.
Proof. app_reader. Qed.

Lemma responses_app : forall a b, responses (a ++ b) = responses a ++ responses b.
Proof. app_reader. Qed.

Lemma credited_app : forall a b, credited (a ++ b) = (credited a + credited b)%nat.
Proof. app_reader. Qed.

Lemma reportedDeleted_app :
  forall a b, reportedDeleted (a ++ b) = (reportedDeleted a + reportedDeleted b)%nat.
Proof. app_reader. Qed.

Lemma fatalRejection_app :
  forall a b, fatalRejection (a ++ b) = fatalRejection a || fatalRejection b.
Proof. app_reader. Qed.

Lemma cursorAssignments_app :
  forall a b, cursorAssignments (a ++ b) = cursorAssignments a ++ cursorAssignments b.
Proof. app_reader. Qed.

Lemma partitioned_app :
  forall a b c,
    partitioned c (a ++ b) = partitioned c a && partitioned (cutoffAfter c a) b.
Proof.
  intros a; induction a as [|e a IH]; intros b c; simpl; [reflexivity|].
  destruct e; simpl; rewrite ?IH, ?andb_assoc; reflexivity.
Qed.

Lemma respectsTarget_app :
  forall a b target page,
    fetchedPages a = [] ->
    respectsTarget target page (a ++ b)
    = respectsTarget target page a && respectsTarget target page b.
Proof.
  intros a; induction a as [|e a IH]; intros b target page Hq; simpl; [reflexivity|].
  destruct e; simpl in *; try (rewrite ?IH, ?andb_assoc by exact Hq; reflexivity).
  destruct answer; [discriminate|]. apply IH, Hq.
Qed.


Lemma reports_read tail :
  forallb isReport tail = true ->
  bulkCalls tail = [] /\ deleteCalls tail = [] /\ deletedArgs tail = []
  /\ fetchCalls tail = [] /\ fetchedPages tail = [] /\ credited tail = 0%nat
  /\ rejectedDeletes tail = 0%nat /\ fatalRejection tail = false
  /\ cursorAssignments tail = []
  /\ (forall c, partitioned c tail = true)
  /\ (forall target page, respectsTarget target page tail = true)
  /\ (forall pending cursor, cursorDiscipline pending cursor tail = true).
Proof.
  induction tail as [|e tail IH]; simpl; intros E.
  - repeat split; reflexivity.
  - apply andb_prop in E as [Ee E]. specialize (IH E).
    destruct e; try discriminate; simpl; exact IH.
Qed.

Lemma anyRejection_app :
  forall a b, anyRejection (a ++ b) = anyRejection a || anyRejection b.
Proof. app_reader. Qed.

(** ** The individual deletes and the partition-and-delete pass *)

Section EngineFacts.

Context {World : Type} `{Platform World}.

Lemma deleteOld_resolved msg rest n w w1 :
  msg_delete msg w = (Resolved tt, w1) ->
  deleteOld (msg :: rest) n w =
    mkRun (outcome_of (deleteOld rest (S n) (setTimeout 100 w1)))
          (world_of (deleteOld rest (S n) (setTimeout 100 w1)))
          (EDelete msg (Resolved tt) :: ESleep 100
             :: events_of (deleteOld rest (S n) (setTimeout 100 w1))).
Proof.
  intros E. simpl. unfold bind, try_catch, delete, await, sleep, ret. simpl.
  rewrite E. simpl. reflexivity.
Qed.

Lemma deleteOld_rejected msg rest n w e w1 :
  msg_delete msg w = (Rejected e, w1) ->
  deleteOld (msg :: rest) n w =
    mkRun (outcome_of (deleteOld rest n w1))
          (world_of (deleteOld rest n w1))
          (EDelete msg (Rejected e)
             :: EConsoleError "Error deleting older message:" e
             :: events_of (deleteOld rest n w1)).
Proof.
  intros E. simpl.
  unfold bind, try_catch, delete, await, sleep, ret, console_error. simpl.
  rewrite E. simpl. reflexivity.
Qed.

(** Induction along the [for] loop: one case per way a delete settles. *)
Lemma deleteOld_cases (P : Collection -> nat -> World -> Run World nat -> Prop) :
  (forall n w, P [] n w (mkRun (Ok n) w [])) ->
  (forall msg rest n w w1,
      msg_delete msg w = (Resolved tt, w1) ->
      P rest (S n) (setTimeout 100 w1) (deleteOld rest (S n) (setTimeout 100 w1)) ->
      P (msg :: rest) n w
        (mkRun (outcome_of (deleteOld rest (S n) (setTimeout 100 w1)))
               (world_of (deleteOld rest (S n) (setTimeout 100 w1)))
               (EDelete msg (Resolved tt) :: ESleep 100
                  :: events_of (deleteOld rest (S n) (setTimeout 100 w1))))) ->
  (forall msg rest n w e w1,
      msg_delete msg w = (Rejected e, w1) ->
      P rest n w1 (deleteOld rest n w1) ->
      P (msg :: rest) n w
        (mkRun (outcome_of (deleteOld rest n w1))
               (world_of (deleteOld rest n w1))
               (EDelete msg (Rejected e)
                  :: EConsoleError "Error deleting older message:" e
                  :: events_of (deleteOld rest n w1)))) ->
  forall olds n w, P olds n w (deleteOld olds n w).
Proof.
  intros Hnil Hres Hrej olds.
  induction olds as [|msg rest IH]; intros n w.
  - apply Hnil.
  - destruct (msg_delete msg w) as [[[]|e] w1] eqn:E.
    + rewrite (deleteOld_resolved _ _ _ _ _ E). apply Hres; auto.
    + rewrite (deleteOld_rejected _ _ _ _ _ _ E). apply Hrej; auto.
Qed.

(** The loop over the old messages never throws, calls [delete] on every
    one of them in order, and counts the deletes that resolved. *)
Lemma deleteOld_facts olds n w :
  let r := deleteOld olds n w in
  outcome_of r = Ok (n + credited (events_of r))%nat
  /\ deleteCalls (events_of r) = olds
  /\ deletedArgs (events_of r) = olds
  /\ bulkCalls (events_of r) = []
  /\ fetchCalls (events_of r) = []
  /\ fetchedPages (events_of r) = []
  /\ responses (events_of r) = []
  /\ fatalRejection (events_of r) = false
  /\ (credited (events_of r) + rejectedDeletes (events_of r))%nat = size olds
  /\ cursorAssignments (events_of r) = [].
Proof.
  pattern olds, n, w, (deleteOld olds n w). apply deleteOld_cases; clear.
  - intros n w. simpl. rewrite Nat.add_0_r. repeat split; reflexivity.
  - intros msg rest n w w1 _ (Ho & Hd & Ha & Hb & Hf & Hp & Hr & Hx & Hc & Hq).
    simpl in *. rewrite Ho, Hd, Ha, Hb, Hf, Hp, Hr, Hx, Hq.
    unfold size in *. simpl.
    repeat split; try reflexivity; try (f_equal; lia); lia.
  - intros msg rest n w e w1 _ (Ho & Hd & Ha & Hb & Hf & Hp & Hr & Hx & Hc & Hq).
    simpl in *. rewrite Ho, Hd, Ha, Hb, Hf, Hp, Hr, Hx, Hq.
    unfold size in *. simpl.
    repeat split; try reflexivity; lia.
Qed.

Lemma deleteOld_partitioned olds n w c :
  partitioned (Some c) (events_of (deleteOld olds n w)) = forallb (isOld c) olds.
Proof.
  pattern olds, n, w, (deleteOld olds n w). apply deleteOld_cases; clear - c.
  - reflexivity.
  - intros msg rest n w w1 _ IH. simpl in *. rewrite IH. reflexivity.
  - intros msg rest n w e w1 _ IH. simpl in *. rewrite IH. reflexivity.
Qed.

Lemma deleteOld_respectsTarget olds n w target page :
  respectsTarget target page (events_of (deleteOld olds n w))
  = forallb (mayDelete target page) olds.
Proof.
  pattern olds, n, w, (deleteOld olds n w). apply deleteOld_cases; clear - target page.
  - reflexivity.
  - intros msg rest n w w1 _ IH. simpl in *. rewrite IH. reflexivity.
  - intros msg rest n w e w1 _ IH. simpl in *. rewrite IH. reflexivity.
Qed.


(** The two filters split a collection exactly. *)
Lemma isRecent_isOld c m : isRecent c m = negb (isOld c m).
Proof.
  unfold isRecent, isOld. rewrite Z.gtb_ltb, Z.leb_antisym.
  symmetry. apply negb_involutive.
Qed.

Lemma split_size c (ms : Collection) :
  (size (filter (isRecent c) ms) + size (filter (isOld c) ms))%nat = size ms.
Proof.
  unfold size. induction ms as [|m ms IH]; simpl; [reflexivity|].
  rewrite isRecent_isOld. destruct (isOld c m); simpl; lia.
Qed.

Lemma forallb_filter_same {A} (p : A -> bool) l : forallb p (filter p l) = true.
Proof.
  induction l as [|a l IH]; simpl; [reflexivity|].
  destruct (p a) eqn:E; simpl; [rewrite E|]; exact IH.
Qed.

Lemma forallb_filter_weaken {A} (p q : A -> bool) l :
  forallb p l = true -> forallb p (filter q l) = true.
Proof.
  induction l as [|a l IH]; simpl; [reflexivity|].
  intros E. apply andb_prop in E as [Ea El].
  destruct (q a); simpl; [rewrite Ea|]; auto.
Qed.

Lemma partitionAndDelete_unfold ms n w :
  partitionAndDelete ms n w =
    let twoWeeksAgo := (Date_now w - fourteenDays)%Z in
    let recentMessages := filter (isRecent twoWeeksAgo) ms in
    let oldMessages := filter (isOld twoWeeksAgo) ms in
    if (0 <? size recentMessages)%nat then
      match bulkDelete recentMessages true w with
      | (Resolved reported, w1) =>
          let r := deleteOld oldMessages (n + size recentMessages) w1 in
          mkRun (outcome_of r) (world_of r)
                (ENow (Date_now w)
                   :: EBulkDelete recentMessages true (Resolved reported)
                   :: events_of r)
      | (Rejected e, w1) =>
          mkRun (Throw e) w1
                [ENow (Date_now w); EBulkDelete recentMessages true (Rejected e)]
      end
    else
      let r := deleteOld oldMessages n w in
      mkRun (outcome_of r) (world_of r) (ENow (Date_now w) :: events_of r).
Proof.
  unfold partitionAndDelete, bind, now, awaitBulkDelete, await, ret. simpl.
  destruct (0 <? size _)%nat; simpl.
  - destruct (bulkDelete _ true w) as [[reported|e] w1]; simpl; reflexivity.
  - reflexivity.
Qed.

(** Everything the later theorems need about one pass. *)
Lemma partitionAndDelete_facts ms n w :
  let r := partitionAndDelete ms n w in
  let twoWeeksAgo := (Date_now w - fourteenDays)%Z in
  let recentMessages := filter (isRecent twoWeeksAgo) ms in
  let oldMessages := filter (isOld twoWeeksAgo) ms in
  bulkCalls (events_of r) = (if (0 <? size recentMessages)%nat then [recentMessages] else [])
  /\ fetchCalls (events_of r) = []
  /\ fetchedPages (events_of r) = []
  /\ responses (events_of r) = []
  /\ cursorAssignments (events_of r) = []
  /\ match outcome_of r with
     | Ok k =>
         k = (n + credited (events_of r))%nat
         /\ deleteCalls (events_of r) = oldMessages
         /\ deletedArgs (events_of r) = recentMessages ++ oldMessages
         /\ (credited (events_of r) + rejectedDeletes (events_of r))%nat = size ms
         /\ fatalRejection (events_of r) = false
     | Throw _ =>
         deleteCalls (events_of r) = []
         /\ deletedArgs (events_of r) = recentMessages
         /\ fatalRejection (events_of r) = true
     | OutOfFuel => False
     end.
Proof.
  cbv zeta. rewrite partitionAndDelete_unfold. cbv zeta.
  pose proof (split_size (Date_now w - fourteenDays) ms) as Hsplit.
  destruct (0 <? size (filter (isRecent _) ms))%nat eqn:Hsz.
  - destruct (bulkDelete _ true w) as [[reported|e] w1].
    + destruct (deleteOld_facts (filter (isOld (Date_now w - fourteenDays)) ms)
                  (n + size (filter (isRecent (Date_now w - fourteenDays)) ms)) w1)
        as (Ho & Hd & Ha & Hb & Hf & Hp & Hr & Hx & Hc & Hq).
      simpl. rewrite Ho, Hd, Ha, Hb, Hf, Hp, Hr, Hx, Hq.
      repeat split; try reflexivity; lia.
    + simpl. repeat split; try reflexivity. rewrite app_nil_r. reflexivity.
  - destruct (deleteOld_facts (filter (isOld (Date_now w - fourteenDays)) ms) n w)
      as (Ho & Hd & Ha & Hb & Hf & Hp & Hr & Hx & Hc & Hq).
    apply Nat.ltb_ge in Hsz.
    assert (Hnil : filter (isRecent (Date_now w - fourteenDays)) ms = []).
    { destruct (filter (isRecent _) ms); [reflexivity|]. unfold size in Hsz. simpl in Hsz. lia. }
    simpl. rewrite Ho, Hd, Ha, Hb, Hf, Hp, Hr, Hx, Hq, Hnil in *.
    repeat split; try reflexivity. unfold size in *. simpl in *. lia.
Qed.

Lemma partitionAndDelete_partitioned ms n w c0 :
  partitioned c0 (events_of (partitionAndDelete ms n w)) = true.
Proof.
  rewrite partitionAndDelete_unfold. cbv zeta.
  destruct (0 <? size _)%nat.
  - destruct (bulkDelete _ true w) as [[reported|e] w1]; simpl.
    + rewrite forallb_filter_same, deleteOld_partitioned.
      apply forallb_filter_same.
    + rewrite forallb_filter_same. reflexivity.
  - simpl. rewrite deleteOld_partitioned. apply forallb_filter_same.
Qed.

Lemma partitionAndDelete_respectsTarget ms n w target page :
  forallb (mayDelete target page) ms = true ->
  respectsTarget target page (events_of (partitionAndDelete ms n w)) = true.
Proof.
  intros Hall. rewrite partitionAndDelete_unfold. cbv zeta.
  destruct (0 <? size _)%nat.
  - destruct (bulkDelete _ true w) as [[reported|e] w1]; simpl.
    + rewrite deleteOld_respectsTarget, !forallb_filter_weaken by exact Hall.
      reflexivity.
    + rewrite forallb_filter_weaken by exact Hall. reflexivity.
  - simpl. rewrite deleteOld_respectsTarget. apply forallb_filter_weaken, Hall.
Qed.


End EngineFacts.

(** ** The pagination loop *)

Lemma last_of_nonempty (ms : Collection) :
  (size ms =? 0)%nat = false -> exists m, last ms = Some m /\ In m ms.
Proof.
  induction ms as [|a ms IH]; simpl; intros E; [discriminate|].
  destruct ms as [|b ms].
  - exists a. split; [reflexivity | left; reflexivity].
  - destruct IH as (m & Hm & Hin); [reflexivity|].
    exists m. split; [exact Hm | right; exact Hin].
Qed.

Lemma has_get key (ms : Collection) :
  has key ms = true ->
  exists t, get key ms = Some t /\ In t ms /\ id t = key.
Proof.
  unfold has, get. induction ms as [|a ms IH]; simpl; intros E; [discriminate|].
  destruct (String.eqb (id a) key) eqn:Ea.
  - exists a. repeat split; auto. apply String.eqb_eq, Ea.
  - destruct (IH E) as (t & Ht & Hin & Hid). exists t. auto.
Qed.

Lemma get_none_has key (ms : Collection) :
  has key ms = false -> get key ms = None.
Proof.
  unfold has, get. induction ms as [|a ms IH]; simpl; intros E; [reflexivity|].
  apply orb_false_elim in E as [Ea E]. rewrite Ea. auto.
Qed.

Section LoopFacts.

Context {World : Type} `{Platform World}.

Variable targetMessageId : string.

Lemma fetch_run options w :
  fetch options w =
    match messages_fetch options w with
    | (Resolved page, w1) => mkRun (Ok page) w1 [EFetch options (Resolved page)]
    | (Rejected e, w1) => mkRun (Throw e) w1 [EFetch options (Rejected e)]
    end.
Proof.
  unfold fetch, await. destruct (messages_fetch options w) as [[page|e] w1]; reflexivity.
Qed.

(** Induction along the [while] loop: one case per path through its body. *)
Lemma cleanUntilLoop_cases (P : nat -> Locals -> World -> Run World Locals -> Prop) :
  (forall l w, P O l w (mkRun OutOfFuel w [])) ->
  (forall fuel l w, targetFound l = true -> P (S fuel) l w (mkRun (Ok l) w [])) ->
  (forall fuel l w e w1,
      messages_fetch (fetchOptions (lastMessageId l)) w = (Rejected e, w1) ->
      P (S fuel) l w
        (mkRun (Throw e) w1 [EFetch (fetchOptions (lastMessageId l)) (Rejected e)])) ->
  (forall fuel l w w1,
      messages_fetch (fetchOptions (lastMessageId l)) w = (Resolved [], w1) ->
      P (S fuel) l w
        (mkRun (Ok l) w1 [EFetch (fetchOptions (lastMessageId l)) (Resolved [])])) ->
  (forall fuel l w page w1 oldest target,
      messages_fetch (fetchOptions (lastMessageId l)) w = (Resolved page, w1) ->
      last page = Some oldest -> In oldest page ->
      has targetMessageId page = true ->
      get targetMessageId page = Some target ->
      (0 <? size (filter (newerThan targetMessageId target) page))%nat = false ->
      P (S fuel) l w
        (mkRun (Ok (mkLocals true (deletedCount l) (Some (id oldest)))) w1
               [EFetch (fetchOptions (lastMessageId l)) (Resolved page);
                EAssignCursor (id oldest)])) ->
  (forall fuel l w page w1 oldest target,
      messages_fetch (fetchOptions (lastMessageId l)) w = (Resolved page, w1) ->
      last page = Some oldest -> In oldest page ->
      has targetMessageId page = true ->
      get targetMessageId page = Some target ->
      (0 <? size (filter (newerThan targetMessageId target) page))%nat = true ->
      let r := partitionAndDelete (filter (newerThan targetMessageId target) page)
                 (deletedCount l) w1 in
      P (S fuel) l w
        (mkRun (match outcome_of r with
                | Ok n => Ok (mkLocals true n (Some (id oldest)))
                | Throw e => Throw e
                | OutOfFuel => OutOfFuel
                end)
               (world_of r)
               (EFetch (fetchOptions (lastMessageId l)) (Resolved page)
                  :: EAssignCursor (id oldest) :: events_of r))) ->
  (forall fuel l w page w1 oldest e,
      messages_fetch (fetchOptions (lastMessageId l)) w = (Resolved page, w1) ->
      last page = Some oldest -> In oldest page ->
      has targetMessageId page = false ->
      let r := partitionAndDelete page (deletedCount l) w1 in
      outcome_of r = Throw e ->
      P (S fuel) l w
        (mkRun (Throw e) (world_of r)
               (EFetch (fetchOptions (lastMessageId l)) (Resolved page)
                  :: EAssignCursor (id oldest) :: events_of r))) ->
  (forall fuel l w page w1 oldest n,
      messages_fetch (fetchOptions (lastMessageId l)) w = (Resolved page, w1) ->
      last page = Some oldest -> In oldest page ->
      has targetMessageId page = false ->
      let r := partitionAndDelete page (deletedCount l) w1 in
      outcome_of r = Ok n ->
      let l' := mkLocals (targetFound l) n (Some (id oldest)) in
      let r' := cleanUntilLoop fuel targetMessageId l' (setTimeout 1000 (world_of r)) in
      P fuel l' (setTimeout 1000 (world_of r)) r' ->
      P (S fuel) l w
        (mkRun (outcome_of r') (world_of r')
               (EFetch (fetchOptions (lastMessageId l)) (Resolved page)
                  :: EAssignCursor (id oldest)
                  :: events_of r ++ ESleep 1000 :: events_of r'))) ->
  forall fuel l w, P fuel l w (cleanUntilLoop fuel targetMessageId l w).
Proof.
  intros H0 Hdone Hrej Hempty Hfound0 Hfound Hthrow Hnext fuel.
  induction fuel as [|fuel IH]; intros l w; [apply H0|].
  cbn [cleanUntilLoop].
  destruct (targetFound l) eqn:Etf; [apply Hdone; exact Etf|].
  unfold bind, fetch, await, assignLastMessageId, ret, throw, sleep.
  destruct (messages_fetch (fetchOptions (lastMessageId l)) w) as [[page|e] w1] eqn:Ef;
    cbn [outcome_of world_of events_of]; [|apply Hrej; exact Ef].
  destruct (size page =? 0)%nat eqn:Esz.
  { destruct page; [|discriminate]. cbn [app]. apply Hempty; exact Ef. }
  destruct (last_of_nonempty page Esz) as (oldest & Hlast & Hin).
  rewrite Hlast.
  cbn [outcome_of world_of events_of targetFound deletedCount lastMessageId].
  destruct (has targetMessageId page) eqn:Ehas.
  - destruct (has_get _ _ Ehas) as (target & Hget & _ & _). rewrite Hget.
    destruct (0 <? size (filter (newerThan targetMessageId target) page))%nat eqn:Enz.
    + pose proof (Hfound fuel l w page w1 oldest target Ef Hlast Hin Ehas Hget Enz) as Hp.
      cbv zeta in Hp.
      destruct (outcome_of (partitionAndDelete _ (deletedCount l) w1)) eqn:Eo;
        cbn [outcome_of world_of events_of app];
        rewrite ?app_nil_r; exact Hp.
    + cbn [outcome_of world_of events_of app].
      apply (Hfound0 fuel l w page w1 oldest target); assumption.
  - destruct (outcome_of (partitionAndDelete page (deletedCount l) w1)) as [n|e|] eqn:Eo;
      cbn [outcome_of world_of events_of app].
    + pose proof (Hnext fuel l w page w1 oldest n Ef Hlast Hin Ehas Eo (IH _ _)) as Hp.
      cbv zeta in Hp. exact Hp.
    + apply (Hthrow fuel l w page w1 oldest e); assumption.
    + exfalso.
      pose proof (partitionAndDelete_facts page (deletedCount l) w1) as F.
      cbv zeta in F. rewrite Eo in F. tauto.
Qed.

Lemma cleanUntilLoop_partitioned fuel l w :
  forall c0, partitioned c0 (events_of (cleanUntilLoop fuel targetMessageId l w)) = true.
Proof.
  pattern fuel, l, w, (cleanUntilLoop fuel targetMessageId l w).
  apply cleanUntilLoop_cases; clear; intros; unlet;
    cbn [events_of partitioned]; auto.
  - apply partitionAndDelete_partitioned.
  - apply partitionAndDelete_partitioned.
  - rewrite partitioned_app, partitionAndDelete_partitioned. cbn [partitioned andb].
    auto.
Qed.

Lemma newerThan_mayDelete page target :
  get targetMessageId page = Some target ->
  forall m, newerThan targetMessageId target m = mayDelete targetMessageId page m.
Proof. intros E m. unfold newerThan, mayDelete. rewrite E. reflexivity. Qed.

Lemma forallb_ext_filter {A} (p q : A -> bool) l :
  (forall a, p a = q a) -> forallb q (filter p l) = true.
Proof.
  intros E. induction l as [|a l IH]; simpl; [reflexivity|].
  destruct (p a) eqn:Ea; simpl; [rewrite <- E, Ea|]; exact IH.
Qed.

Lemma absent_mayDelete page :
  has targetMessageId page = false ->
  forallb (mayDelete targetMessageId page) page = true.
Proof.
  intros E. unfold mayDelete. rewrite (get_none_has _ _ E).
  unfold has in E. clear - E.
  induction page as [|a ms IH]; simpl in *; [reflexivity|].
  apply orb_false_elim in E as [Ea E]. rewrite Ea. simpl. auto.
Qed.

Lemma cleanUntilLoop_respectsTarget fuel l w :
  forall page0,
    respectsTarget targetMessageId page0
      (events_of (cleanUntilLoop fuel targetMessageId l w)) = true.
Proof.
  pattern fuel, l, w, (cleanUntilLoop fuel targetMessageId l w).
  apply cleanUntilLoop_cases; clear; intros; unlet;
    cbn [events_of respectsTarget]; auto.
  - apply partitionAndDelete_respectsTarget.
    apply forallb_ext_filter. apply newerThan_mayDelete. assumption.
  - apply partitionAndDelete_respectsTarget. apply absent_mayDelete. assumption.
  - pose proof (partitionAndDelete_facts page (deletedCount l) w1) as F.
    cbv zeta in F. destruct F as (_ & _ & Hp & _).
    rewrite respectsTarget_app by exact Hp.
    rewrite partitionAndDelete_respectsTarget by (apply absent_mayDelete; assumption).
    cbn [respectsTarget andb]. auto.
Qed.



(** The counter and the outcome of the loop, read off its events. *)
Lemma cleanUntilLoop_accounting fuel l w :
  let r := cleanUntilLoop fuel targetMessageId l w in
  responses (events_of r) = []
  /\ match outcome_of r with
     | Ok l' =>
         deletedCount l' = (deletedCount l + credited (events_of r))%nat
         /\ fatalRejection (events_of r) = false
         /\ (targetFound l' = false ->
             (credited (events_of r) + rejectedDeletes (events_of r))%nat
             = fetchedTotal (events_of r))
         /\ (forallb (fun page => negb (has targetMessageId page))
                     (fetchedPages (events_of r)) = true ->
             targetFound l' = targetFound l)
     | Throw _ => fatalRejection (events_of r) = true
     | OutOfFuel => True
     end.
Proof.
  cbv zeta.
  pattern fuel, l, w, (cleanUntilLoop fuel targetMessageId l w).
  apply cleanUntilLoop_cases; clear.
  - intros; simpl; auto.
  - intros; simpl; rewrite Nat.add_0_r; repeat split; auto.
  - intros; simpl; auto.
  - intros; simpl; repeat split; auto.
  - intros fuel l w page w1 oldest target Ef Hlast Hin Ehas Hget Enz.
    simpl. repeat split; auto; try discriminate.
    rewrite Ehas. simpl. discriminate.
  - intros fuel l w page w1 oldest target Ef Hlast Hin Ehas Hget Enz r.
    pose proof (partitionAndDelete_facts
                  (filter (newerThan targetMessageId target) page)
                  (deletedCount l) w1) as F.
    cbv zeta in F. fold r in F. destruct F as (_ & _ & Hp & Hr & _ & F).
    cbn [events_of outcome_of responses fatalRejection credited rejectedDeletes
         fetchedPages].
    split; [exact Hr|].
    destruct (outcome_of r).
    + destruct F as (Hk & _ & _ & _ & Hx).
      cbn [deletedCount targetFound]. repeat split; auto; try discriminate.
      cbn [forallb]. rewrite Ehas. simpl. discriminate.
    + tauto.
    + exact I.
  - intros fuel l w page w1 oldest e Ef Hlast Hin Ehas r Eo.
    pose proof (partitionAndDelete_facts page (deletedCount l) w1) as F.
    cbv zeta in F. fold r in F. destruct F as (_ & _ & _ & Hr & _ & F).
    rewrite Eo in F.
    cbn [events_of outcome_of responses fatalRejection]. tauto.
  - intros fuel l w page w1 oldest n Ef Hlast Hin Ehas r Eo l' r' (Hr' & IH).
    pose proof (partitionAndDelete_facts page (deletedCount l) w1) as F.
    cbv zeta in F. fold r in F. destruct F as (_ & _ & Hp & Hr & _ & F).
    rewrite Eo in F. destruct F as (Hk & _ & _ & Hsz & Hx).
    cbn [events_of outcome_of responses fatalRejection credited rejectedDeletes
         fetchedPages].
    rewrite responses_app, Hr. cbn [responses app].
    split; [exact Hr'|].
    destruct (outcome_of r') as [l''| |].
    + destruct IH as (Hd & Hfat & Hacc & Htf).
      rewrite credited_app, fatalRejection_app, rejectedDeletes_app, Hx.
      cbn [credited fatalRejection rejectedDeletes orb]. rewrite Hfat.
      unfold fetchedTotal in *. cbn [fetchedPages].
      rewrite fetchedPages_app, Hp. cbn [fetchedPages app concat forallb].
      simpl List.concat. rewrite length_app.
      subst l'. cbn [deletedCount targetFound] in *.
      repeat split; auto; try lia.
      * intros E. specialize (Hacc E). unfold size in *. lia.
      * intros E. apply andb_prop in E as [_ E]. auto.
    + rewrite fatalRejection_app, Hx. cbn [fatalRejection orb]. exact IH.
    + exact I.
Qed.

End LoopFacts.

(** ** The two operations *)

Section OperationFacts.

Context {World : Type} `{Platform World}.

Variable responseCallback : Callback World.

(** [cleanMessages] in the shape of [guarded_run]. *)
Lemma cleanMessages_guarded amount w :
  cleanMessages amount responseCallback w =
    try_catch
      (bind (bind (fetch (mkOptions amount None))
                  (fun fetchedMessages => partitionAndDelete fetchedMessages 0))
            (fun x => await (responseCallback (render (Deleted x)))
                            (ERespond (Deleted x))))
      (fun e => bind (fun w0 => mkRun (Ok tt) w0
                                  [EConsoleError "Error deleting messages:" e])
                     (fun _ => await (responseCallback (render ErrorText))
                                     (ERespond ErrorText))) w.
Proof.
  unfold cleanMessages. apply try_catch_ext. symmetry. apply bind_assoc.
Qed.

(** The fetch and the pass of [cleanMessages]. *)
Lemma cleanMessages_body amount w :
  bind (fetch (mkOptions amount None))
       (fun fetchedMessages => partitionAndDelete fetchedMessages 0) w =
    match messages_fetch (mkOptions amount None) w with
    | (Resolved page, w1) =>
        mkRun (outcome_of (partitionAndDelete page 0 w1))
              (world_of (partitionAndDelete page 0 w1))
              (EFetch (mkOptions amount None) (Resolved page)
                 :: events_of (partitionAndDelete page 0 w1))
    | (Rejected e, w1) =>
        mkRun (Throw e) w1 [EFetch (mkOptions amount None) (Rejected e)]
    end.
Proof.
  unfold bind. rewrite fetch_run.
  destruct (messages_fetch (mkOptions amount None) w) as [[page|e] w1];
    cbn [outcome_of world_of events_of app]; [|reflexivity].
  destruct (outcome_of (partitionAndDelete page 0 w1)); reflexivity.
Qed.

Lemma cleanMessages_events amount w :
  exists tail,
    events_of (cleanMessages amount responseCallback w)
    = events_of (bind (fetch (mkOptions amount None))
                      (fun fetchedMessages => partitionAndDelete fetchedMessages 0) w)
      ++ tail
    /\ forallb isReport tail = true.
Proof. rewrite cleanMessages_guarded. apply guarded_events. Qed.

Lemma cleanUntilMessage_events fuel targetMessageId w :
  exists tail,
    events_of (cleanUntilMessage fuel targetMessageId responseCallback w)
    = events_of (cleanUntilLoop fuel targetMessageId (mkLocals false 0 None) w)
      ++ tail
    /\ forallb isReport tail = true.
Proof.
  unfold cleanUntilMessage.
  apply (guarded_events
           (cleanUntilLoop fuel targetMessageId (mkLocals false 0 None))
           (fun l => if targetFound l then DeletedUpTo (deletedCount l)
                     else TargetNotFound)).
Qed.

End OperationFacts.

(** ** The reference channel *)

Lemma filter_filter {A} (p q : A -> bool) l :
  filter q (filter p l) = filter (fun a => p a && q a) l.
Proof.
  induction l as [|a l IH]; simpl; [reflexivity|].
  destruct (p a); simpl; [destruct (q a)|]; rewrite IH; reflexivity.
Qed.

Lemma filter_length_le {A} (p g : A -> bool) l :
  (List.length (filter p (filter g l)) <= List.length (filter p l))%nat.
Proof.
  induction l as [|a l IH]; simpl; [lia|].
  destruct (g a); simpl; destruct (p a); simpl; lia.
Qed.

Lemma filter_length_mono {A} (p q : A -> bool) l :
  (forall a, p a = true -> q a = true) ->
  (List.length (filter p l) <= List.length (filter q l))%nat.
Proof.
  intros Hpq. induction l as [|a l IH]; simpl; [lia|].
  destruct (p a) eqn:Ep.
  - rewrite (Hpq _ Ep). simpl. lia.
  - destruct (q a); simpl; lia.
Qed.

Lemma filter_length_lt {A} (p q : A -> bool) l x :
  (forall a, p a = true -> q a = true) ->
  In x l -> q x = true -> p x = false ->
  (List.length (filter p l) < List.length (filter q l))%nat.
Proof.
  intros Hpq. induction l as [|a l IH]; simpl; [tauto|].
  intros [->|Hin] Hq Hp.
  - rewrite Hq, Hp. simpl.
    pose proof (filter_length_mono p q l Hpq). lia.
  - specialize (IH Hin Hq Hp). destruct (p a) eqn:Ep.
    + rewrite (Hpq _ Ep). simpl. lia.
    + destruct (q a); simpl; lia.
Qed.

Lemma has_In key (ms : Collection) :
  has key ms = true <-> exists m, In m ms /\ id m = key.
Proof.
  unfold has. rewrite existsb_exists. split; intros (m & Hin & E); exists m;
    (split; [exact Hin|]); apply String.eqb_eq; exact E.
Qed.

Lemma has_incl key (small big : Collection) :
  incl small big -> has key big = false -> has key small = false.
Proof.
  intros Hi Hb. destruct (has key small) eqn:E; [|reflexivity].
  apply has_In in E as (m & Hin & Hid).
  assert (has key big = true) by (apply has_In; exists m; auto). congruence.
Qed.

Lemma candidates_incl b (ms : Collection) : incl (candidates b ms) ms.
Proof.
  destruct b; simpl; [|apply incl_refl].
  intros m Hin. apply filter_In in Hin. tauto.
Qed.

Lemma firstn_incl {A} n (l : list A) : incl (firstn n l) l.
Proof.
  revert l. induction n as [|n IH]; intros [|a l]; simpl;
    try (intros y Hy; destruct Hy; fail).
  intros y [->|Hin]; [left; reflexivity | right; apply IH, Hin].
Qed.

Lemma wellFormed_filter g (ms : Collection) :
  wellFormed ms = true -> wellFormed (filter g ms) = true.
Proof. apply forallb_filter_weaken. Qed.

(** What a resolved fetch of the reference channel is. *)
Lemma reference_fetch_resolved options c page c1 :
  reference_fetch options c = (Resolved page, c1) ->
  live c1 = live c
  /\ page = firstn (Z.to_nat (limit options)) (candidates (before options) (live c)).
Proof.
  unfold reference_fetch, nextFault.
  destruct (faults c) as [|[|] rest]; simpl;
    destruct ((limit options <? 1)%Z || (100 <? limit options)%Z);
    intros E; inversion E; subst; simpl; auto.
Qed.

Lemma channel_honoursLimit : @honoursLimit Channel ChannelPlatform.
Proof.
  intros options c. simpl.
  destruct (reference_fetch options c) as [[page|e] c1] eqn:E; simpl; [|exact I].
  apply reference_fetch_resolved in E as [_ ->]. unfold size.
  rewrite length_firstn. lia.
Qed.

Lemma filter_all {A} (l : list A) : filter (fun _ => true) l = l.
Proof. induction l as [|a l IH]; simpl; congruence. Qed.

Lemma shrinks_same c c' : live c' = live c -> shrinks c c'.
Proof. intros E. exists (fun _ => true). rewrite filter_all. exact E. Qed.

Lemma shrinks_refl c : shrinks c c.
Proof. apply shrinks_same. reflexivity. Qed.

Lemma shrinks_trans a b c : shrinks a b -> shrinks b c -> shrinks a c.
Proof.
  intros [g Hg] [h Hh]. exists (fun m => g m && h m).
  rewrite Hh, Hg. apply filter_filter.
Qed.

Lemma nextFault_live c : live (snd (nextFault c)) = live c.
Proof. unfold nextFault. destruct (faults c); reflexivity. Qed.

Lemma reference_delete_shrinks msg c : shrinks c (snd (reference_delete msg c)).
Proof.
  unfold reference_delete. pose proof (nextFault_live c) as E.
  destruct (nextFault c) as [[|] c1]; simpl in *.
  - apply shrinks_same, E.
  - exists (keeps [msg]). rewrite E. reflexivity.
Qed.

Lemma reference_bulkDelete_shrinks ms flag c : shrinks c (snd (reference_bulkDelete ms flag c)).
Proof.
  unfold reference_bulkDelete. pose proof (nextFault_live c) as E.
  destruct (nextFault c) as [[|] c1]; simpl in *.
  - apply shrinks_same, E.
  - destruct (negb flag && existsb _ ms); simpl.
    + apply shrinks_same, E.
    + eexists. rewrite E. reflexivity.
Qed.

Lemma deleteOld_shrinks olds n (c : Channel) :
  shrinks c (world_of (deleteOld olds n c)).
Proof.
  pattern olds, n, c, (deleteOld olds n c). apply deleteOld_cases; clear.
  - intros n c. apply shrinks_refl.
  - intros msg rest n c c1 E IH. cbn [world_of].
    eapply shrinks_trans; [|exact IH].
    pose proof (reference_delete_shrinks msg c) as S. simpl in E.
    rewrite E in S. destruct S as [g Hg]. exists g. exact Hg.
  - intros msg rest n c e c1 E IH. cbn [world_of].
    eapply shrinks_trans; [|exact IH].
    pose proof (reference_delete_shrinks msg c) as S. simpl in E.
    rewrite E in S. exact S.
Qed.

Lemma partitionAndDelete_shrinks ms n (c : Channel) :
  shrinks c (world_of (partitionAndDelete ms n c)).
Proof.
  rewrite partitionAndDelete_unfold. cbv zeta.
  destruct (0 <? size _)%nat.
  - pose proof (reference_bulkDelete_shrinks
                  (filter (isRecent (Date_now c - fourteenDays)) ms) true c) as S.
    change (bulkDelete (filter (isRecent (Date_now c - fourteenDays)) ms) true c)
      with (reference_bulkDelete (filter (isRecent (Date_now c - fourteenDays)) ms) true c).
    destruct (reference_bulkDelete _ true c) as [[reported|e] c1]; cbn [world_of snd] in *.
    + eapply shrinks_trans; [exact S | apply deleteOld_shrinks].
    + exact S.
  - cbn [world_of]. apply deleteOld_shrinks.
Qed.

Lemma truthy_wellFormed (ms : Collection) m :
  wellFormed ms = true -> In m ms -> truthy (Some (id m)) = true.
Proof.
  unfold wellFormed. rewrite forallb_forall. intros Hwf Hin.
  specialize (Hwf m Hin). simpl. destruct (id m); [discriminate | reflexivity].
Qed.

(** The loop ends on the reference channel: every further fetch looks at
    strictly fewer live messages. *)
Lemma channel_loop_terminates targetMessageId fuel l (c : Channel) :
  wellFormed (live c) = true ->
  (size (candidates (before (fetchOptions (lastMessageId l))) (live c)) < fuel)%nat ->
  outcome_of (cleanUntilLoop fuel targetMessageId l c) <> OutOfFuel.
Proof.
  pattern fuel, l, c, (cleanUntilLoop fuel targetMessageId l c).
  apply cleanUntilLoop_cases; clear - targetMessageId.
  - intros l c _ Hlt. lia.
  - intros; cbn [outcome_of]; discriminate.
  - intros; cbn [outcome_of]; discriminate.
  - intros; cbn [outcome_of]; discriminate.
  - intros; cbn [outcome_of]; discriminate.
  - intros fuel l c page c1 oldest target Ef Hlast Hin Ehas Hget Enz r _ _.
    cbn [outcome_of].
    pose proof (partitionAndDelete_facts
                  (filter (newerThan targetMessageId target) page)
                  (deletedCount l) c1) as F.
    cbv zeta in F. fold r in F. destruct F as (_ & _ & _ & _ & _ & F).
    destruct (outcome_of r); [discriminate | discriminate | tauto].
  - intros; cbn [outcome_of]; discriminate.
  - intros fuel l c page c1 oldest n Ef Hlast Hin Ehas r Eo l' r' IH Hwf Hlt.
    cbn [outcome_of]. simpl in Ef.
    apply reference_fetch_resolved in Ef as [Hlive Hpage].
    pose proof (partitionAndDelete_shrinks page (deletedCount l) c1) as [g Hg].
    fold r in Hg. rewrite Hlive in Hg.
    assert (Hcand : In oldest
                      (candidates (before (fetchOptions (lastMessageId l))) (live c))).
    { rewrite Hpage in Hin. apply firstn_incl in Hin. exact Hin. }
    assert (Hinlive : In oldest (live c)) by (apply candidates_incl in Hcand; exact Hcand).
    apply IH.
    + cbn [setTimeout ChannelPlatform live]. rewrite Hg.
      apply wellFormed_filter, Hwf.
    + subst l'. cbn [lastMessageId]. unfold fetchOptions at 1.
      rewrite (truthy_wellFormed _ _ Hwf Hinlive).
      cbn [before candidates setTimeout ChannelPlatform live].
      rewrite Hg. unfold size in *.
      eapply Nat.le_lt_trans; [apply filter_length_le|].
      assert (Hself : olderThan (id oldest) oldest = false)
        by (unfold olderThan; apply N.ltb_irrefl).
      destruct (before (fetchOptions (lastMessageId l))) as [b|] eqn:Eb;
        cbn [candidates] in *.
      * apply filter_In in Hcand as [_ Hb].
        assert (List.length (filter (olderThan (id oldest)) (live c))
                < List.length (filter (olderThan b) (live c)))%nat; [|lia].
        apply (filter_length_lt _ _ _ oldest); auto.
        intros a Ha. unfold olderThan in *.
        apply N.ltb_lt in Ha, Hb. apply N.ltb_lt. lia.
      * assert (List.length (filter (olderThan (id oldest)) (live c))
                < List.length (filter (fun _ => true) (live c)))%nat
          by (apply (filter_length_lt _ _ _ oldest); auto).
        rewrite filter_all in *. lia.
Qed.

(** A target that is not in the channel is on no page. *)
Lemma channel_loop_absent targetMessageId fuel l (c : Channel) :
  has targetMessageId (live c) = false ->
  forallb (fun page => negb (has targetMessageId page))
    (fetchedPages (events_of (cleanUntilLoop fuel targetMessageId l c))) = true.
Proof.
  pattern fuel, l, c, (cleanUntilLoop fuel targetMessageId l c).
  apply cleanUntilLoop_cases; clear - targetMessageId.
  - reflexivity.
  - reflexivity.
  - reflexivity.
  - reflexivity.
  - intros fuel l c page c1 oldest target Ef Hlast Hin Ehas Hget Enz Habs.
    exfalso. simpl in Ef. apply reference_fetch_resolved in Ef as [_ Hpage].
    assert (has targetMessageId page = false); [|congruence].
    apply (has_incl _ _ (live c)); [|exact Habs]. rewrite Hpage.
    eapply incl_tran; [apply firstn_incl | apply candidates_incl].
  - intros fuel l c page c1 oldest target Ef Hlast Hin Ehas Hget Enz r Habs.
    exfalso. simpl in Ef. apply reference_fetch_resolved in Ef as [_ Hpage].
    assert (has targetMessageId page = false); [|congruence].
    apply (has_incl _ _ (live c)); [|exact Habs]. rewrite Hpage.
    eapply incl_tran; [apply firstn_incl | apply candidates_incl].
  - intros fuel l c page c1 oldest e Ef Hlast Hin Ehas r Eo Habs.
    pose proof (partitionAndDelete_facts page (deletedCount l) c1) as F.
    cbv zeta in F. fold r in F. destruct F as (_ & _ & Hp & _).
    cbn [events_of fetchedPages forallb]. rewrite Hp, Ehas. reflexivity.
  - intros fuel l c page c1 oldest n Ef Hlast Hin Ehas r Eo l' r' IH Habs.
    pose proof (partitionAndDelete_facts page (deletedCount l) c1) as F.
    cbv zeta in F. fold r in F. destruct F as (_ & _ & Hp & _).
    cbn [events_of fetchedPages forallb].
    rewrite fetchedPages_app, Hp, Ehas. cbn [app fetchedPages negb andb].
    apply IH. simpl in Ef. apply reference_fetch_resolved in Ef as [Hlive _].
    pose proof (partitionAndDelete_shrinks page (deletedCount l) c1) as [g Hg].
    fold r in Hg. cbn [setTimeout ChannelPlatform live]. rewrite Hg, Hlive.
    apply (has_incl _ _ (live c)); [|exact Habs].
    intros m Hm. apply filter_In in Hm. tauto.
Qed.

Section EndOfLoop.

Context {World : Type} `{Platform World}.

(** A loop that ends without the target ends on an empty page. *)
Lemma cleanUntilLoop_ends_on_empty_page targetMessageId fuel l w :
  forall l',
    outcome_of (cleanUntilLoop fuel targetMessageId l w) = Ok l' ->
    targetFound l' = false ->
    exists pre options,
      events_of (cleanUntilLoop fuel targetMessageId l w)
      = pre ++ [EFetch options (Resolved [])].
Proof.
  pattern fuel, l, w, (cleanUntilLoop fuel targetMessageId l w).
  apply cleanUntilLoop_cases; clear - targetMessageId.
  - intros; discriminate.
  - intros fuel l w Etf l' E Hf. inversion E; subst. congruence.
  - intros; discriminate.
  - intros fuel l w w1 Ef l' _ _. exists [], (fetchOptions (lastMessageId l)).
    reflexivity.
  - intros fuel l w page w1 oldest target _ _ _ _ _ _ l' E Hf.
    inversion E; subst. discriminate.
  - intros fuel l w page w1 oldest target _ _ _ _ _ _ r l' E Hf.
    cbn [outcome_of] in E.
    destruct (outcome_of r); inversion E; subst. discriminate.
  - intros; discriminate.
  - intros fuel l w page w1 oldest n _ _ _ _ r _ l0 r' IH l' E Hf.
    cbn [outcome_of events_of] in *.
    destruct (IH l' E Hf) as (pre & options & Hev).
    exists (EFetch (fetchOptions (lastMessageId l)) (Resolved page)
              :: EAssignCursor (id oldest) :: events_of r ++ ESleep 1000 :: pre),
           options.
    rewrite Hev. cbn [app]. rewrite <- app_assoc. reflexivity.
Qed.

End EndOfLoop.

(** ** Newest-first histories on the reference channel *)

Lemma newestFirst_filter p ms : newestFirst ms -> newestFirst (filter p ms).
Proof.
  unfold newestFirst. induction ms as [|a ms IH]; simpl; intros S; [constructor|].
  apply StronglySorted_inv in S as [S Ha]. destruct (p a); [|auto].
  constructor; [auto|].
  rewrite Forall_forall in *. intros x Hx. apply filter_In in Hx. apply Ha. tauto.
Qed.

Lemma newestFirstb_sound ms : newestFirstb ms = true -> newestFirst ms.
Proof.
  unfold newestFirst. induction ms as [|a ms IH]; simpl; intros E; [constructor|].
  apply andb_prop in E as [Ea E]. constructor; [auto|].
  rewrite forallb_forall in Ea. apply Forall_forall. intros b Hb.
  specialize (Ea b Hb). apply andb_prop in Ea as [E1 E2].
  split; [apply N.ltb_lt, E1 | apply Z.leb_le, E2].
Qed.

(** A message left out of a prefix comes after everything in the prefix. *)
Lemma newestFirst_prefix n ms t :
  newestFirst ms -> In t ms -> ~ In t (firstn n ms) ->
  Forall (fun m => precedes m t) (firstn n ms).
Proof.
  unfold newestFirst. revert n. induction ms as [|a ms IH]; intros n S Hin Hout.
  - destruct n; constructor.
  - destruct n as [|n]; [constructor|]. simpl in *.
    apply StronglySorted_inv in S as [S Ha].
    destruct Hin as [->|Hin]; [tauto|].
    constructor.
    + rewrite Forall_forall in Ha. apply Ha, Hin.
    + apply IH; auto.
Qed.

Lemma newestFirst_unique ms a b :
  newestFirst ms -> In a ms -> In b ms -> id a = id b -> a = b.
Proof.
  unfold newestFirst. induction ms as [|x ms IH]; simpl; intros S Ha Hb E; [tauto|].
  apply StronglySorted_inv in S as [S Hx]. rewrite Forall_forall in Hx.
  destruct Ha as [->|Ha], Hb as [->|Hb]; auto.
  - destruct (Hx b Hb) as [Hlt _]. rewrite E in Hlt. lia.
  - destruct (Hx a Ha) as [Hlt _]. rewrite E in Hlt. lia.
Qed.

Lemma newestFirst_later ms m t :
  newestFirst ms -> In m ms -> In t ms ->
  (createdTimestamp t < createdTimestamp m)%Z -> precedes m t.
Proof.
  unfold newestFirst. induction ms as [|x ms IH]; simpl; intros S Hm Ht Hlt; [tauto|].
  apply StronglySorted_inv in S as [S Hx]. rewrite Forall_forall in Hx.
  destruct Hm as [->|Hm], Ht as [->|Ht]; auto.
  - lia.
  - destruct (Hx m Hm) as [_ Hle]. lia.
Qed.

Lemma get_In key (ms : Collection) t :
  get key ms = Some t -> In t ms /\ id t = key.
Proof.
  unfold get. intros E. apply find_some in E as [Hin E].
  split; [exact Hin | apply String.eqb_eq, E].
Qed.

Lemma keeps_absent (gone ms : Collection) m :
  incl gone ms -> has (id m) ms = false -> keeps gone m = true.
Proof.
  intros Hi Hm. unfold keeps. rewrite (has_incl _ _ _ Hi Hm). reflexivity.
Qed.

(** Only messages that were asked for disappear from the reference channel. *)
Lemma reference_delete_survivor msg c m :
  In m (live c) -> has (id m) [msg] = false ->
  In m (live (snd (reference_delete msg c))).
Proof.
  intros Hin Hm. unfold reference_delete. pose proof (nextFault_live c) as E.
  destruct (nextFault c) as [[|] c1]; simpl in *; rewrite E; [exact Hin|].
  apply filter_In. split; [exact Hin|].
  apply (keeps_absent [msg] [msg]); [apply incl_refl | exact Hm].
Qed.

Lemma reference_bulkDelete_survivor ms flag c m :
  In m (live c) -> has (id m) ms = false ->
  In m (live (snd (reference_bulkDelete ms flag c))).
Proof.
  intros Hin Hm. unfold reference_bulkDelete. pose proof (nextFault_live c) as E.
  destruct (nextFault c) as [[|] c1]; simpl in *; [rewrite E; exact Hin|].
  destruct (negb flag && existsb _ ms); simpl; rewrite E; [exact Hin|].
  apply filter_In. split; [exact Hin|].
  apply (keeps_absent _ ms); [|exact Hm].
  intros x Hx. apply filter_In in Hx. tauto.
Qed.

Lemma deleteOld_survivor olds n (c : Channel) m :
  In m (live c) -> has (id m) olds = false ->
  In m (live (world_of (deleteOld olds n c))).
Proof.
  pattern olds, n, c, (deleteOld olds n c). apply deleteOld_cases; clear - m.
  - intros n c Hin _. exact Hin.
  - intros msg rest n c c1 E IH Hin Hm. cbn [world_of].
    simpl in Hm. apply orb_false_elim in Hm as [Hmsg Hrest].
    apply IH; [|exact Hrest]. cbn [setTimeout ChannelPlatform live].
    pose proof (reference_delete_survivor msg c m Hin) as S.
    simpl in E, S. rewrite E, Hmsg in S. apply S. reflexivity.
  - intros msg rest n c e c1 E IH Hin Hm. cbn [world_of].
    simpl in Hm. apply orb_false_elim in Hm as [Hmsg Hrest].
    apply IH; [|exact Hrest].
    pose proof (reference_delete_survivor msg c m Hin) as S.
    simpl in E, S. rewrite E, Hmsg in S. apply S. reflexivity.
Qed.

Lemma partitionAndDelete_survivor ms n (c : Channel) m :
  In m (live c) -> has (id m) ms = false ->
  In m (live (world_of (partitionAndDelete ms n c))).
Proof.
  intros Hin Hm. rewrite partitionAndDelete_unfold. cbv zeta.
  assert (Hold : has (id m) (filter (isOld (Date_now c - fourteenDays)) ms) = false).
  { apply (has_incl _ _ ms); [|exact Hm]. intros x Hx. apply filter_In in Hx. tauto. }
  assert (Hrec : has (id m) (filter (isRecent (Date_now c - fourteenDays)) ms) = false).
  { apply (has_incl _ _ ms); [|exact Hm]. intros x Hx. apply filter_In in Hx. tauto. }
  destruct (0 <? size _)%nat.
  - pose proof (reference_bulkDelete_survivor
                  (filter (isRecent (Date_now c - fourteenDays)) ms) true c m Hin Hrec)
      as S.
    change (bulkDelete (filter (isRecent (Date_now c - fourteenDays)) ms) true c)
      with (reference_bulkDelete
              (filter (isRecent (Date_now c - fourteenDays)) ms) true c).
    destruct (reference_bulkDelete _ true c) as [[reported|e] c1];
      cbn [world_of snd] in *; [|exact S].
    apply deleteOld_survivor; assumption.
  - cbn [world_of]. apply deleteOld_survivor; assumption.
Qed.

Section PassArguments.

Context {World : Type} `{Platform World}.

(** A pass hands to delete calls only messages of its collection. *)
Lemma partitionAndDelete_args ms n w :
  incl (deletedArgs (events_of (partitionAndDelete ms n w))) ms.
Proof.
  pose proof (partitionAndDelete_facts ms n w) as F. cbv zeta in F.
  destruct F as (_ & _ & _ & _ & _ & F).
  intros m Hm.
  destruct (outcome_of (partitionAndDelete ms n w)).
  - destruct F as (_ & _ & Ha & _). rewrite Ha in Hm.
    apply in_app_or in Hm as [Hm|Hm]; apply filter_In in Hm; tauto.
  - destruct F as (_ & Ha & _). rewrite Ha in Hm. apply filter_In in Hm. tauto.
  - tauto.
Qed.

End PassArguments.

(** On a newest-first history that holds the target, every message handed
    to a delete call comes before the target. *)
Lemma channel_loop_newer targetMessageId t fuel l (c : Channel) :
  id t = targetMessageId ->
  newestFirst (live c) -> In t (live c) ->
  (forall b, before (fetchOptions (lastMessageId l)) = Some b ->
             (snowflake (id t) < snowflake b)%N) ->
  Forall (fun m => precedes m t)
    (deletedArgs (events_of (cleanUntilLoop fuel targetMessageId l c))).
Proof.
  intros Hid.
  pattern fuel, l, c, (cleanUntilLoop fuel targetMessageId l c).
  apply cleanUntilLoop_cases; clear - Hid.
  - constructor.
  - constructor.
  - constructor.
  - constructor.
  - constructor.
  - intros fuel l c page c1 oldest target Ef Hlast Hin Ehas Hget Enz r Hs Ht Hcur.
    cbn [events_of deletedArgs]. simpl in Ef.
    apply reference_fetch_resolved in Ef as [_ Hpage].
    assert (Hsub : incl page (live c)).
    { rewrite Hpage. eapply incl_tran; [apply firstn_incl | apply candidates_incl]. }
    apply get_In in Hget as [Htin Htid].
    assert (target = t).
    { apply (newestFirst_unique (live c)); auto. congruence. }
    subst target. apply Forall_forall. intros m Hm.
    apply partitionAndDelete_args in Hm. apply filter_In in Hm as [Hmin Hnew].
    unfold newerThan in Hnew. apply andb_prop in Hnew as [_ Hnew].
    rewrite Z.gtb_ltb in Hnew. apply Z.ltb_lt in Hnew.
    apply (newestFirst_later (live c)); auto.
  - intros fuel l c page c1 oldest e Ef Hlast Hin Ehas r Eo Hs Ht Hcur.
    cbn [events_of deletedArgs]. simpl in Ef.
    apply reference_fetch_resolved in Ef as [_ Hpage].
    assert (Hall : Forall (fun m => precedes m t) page).
    { rewrite Hpage. apply newestFirst_prefix.
      - destruct (before (fetchOptions (lastMessageId l))); cbn [candidates];
          [apply newestFirst_filter|]; exact Hs.
      - destruct (before (fetchOptions (lastMessageId l))) as [b|] eqn:Eb;
          cbn [candidates]; [|exact Ht].
        apply filter_In. split; [exact Ht|]. unfold olderThan.
        apply N.ltb_lt, Hcur. reflexivity.
      - rewrite <- Hpage. intros Hc.
        assert (has targetMessageId page = true) by (apply has_In; eauto).
        congruence. }
    apply Forall_forall. intros m Hm. apply partitionAndDelete_args in Hm.
    rewrite Forall_forall in Hall. auto.
  - intros fuel l c page c1 oldest n Ef Hlast Hin Ehas r Eo l' r' IH Hs Ht Hcur.
    cbn [events_of deletedArgs]. simpl in Ef.
    apply reference_fetch_resolved in Ef as [Hlive Hpage].
    assert (Hall : Forall (fun m => precedes m t) page).
    { rewrite Hpage. apply newestFirst_prefix.
      - destruct (before (fetchOptions (lastMessageId l))); cbn [candidates];
          [apply newestFirst_filter|]; exact Hs.
      - destruct (before (fetchOptions (lastMessageId l))) as [b|] eqn:Eb;
          cbn [candidates]; [|exact Ht].
        apply filter_In. split; [exact Ht|]. unfold olderThan.
        apply N.ltb_lt, Hcur. reflexivity.
      - rewrite <- Hpage. intros Hc.
        assert (has targetMessageId page = true) by (apply has_In; eauto).
        congruence. }
    rewrite deletedArgs_app. cbn [deletedArgs]. apply Forall_app. split.
    + apply Forall_forall. intros m Hm. apply partitionAndDelete_args in Hm.
      rewrite Forall_forall in Hall. auto.
    + apply IH.
      * cbn [setTimeout ChannelPlatform live].
        destruct (partitionAndDelete_shrinks page (deletedCount l) c1) as [g Hg].
        fold r in Hg. rewrite Hg, Hlive. apply newestFirst_filter, Hs.
      * cbn [setTimeout ChannelPlatform live].
        apply partitionAndDelete_survivor; [rewrite Hlive; exact Ht|].
        rewrite Hid. exact Ehas.
      * subst l'. cbn [lastMessageId]. unfold fetchOptions. cbn [before].
        intros b Eb. destruct (truthy (Some (id oldest))); inversion Eb; subst.
        rewrite Forall_forall in Hall. apply (Hall oldest Hin).
Qed.

(** * The specified properties *)

Lemma respectsTarget_never_target targetMessageId tr :
  forall page,
    respectsTarget targetMessageId page tr = true ->
    forallb (fun m => negb (String.eqb (id m) targetMessageId)) (deletedArgs tr) = true.
Proof.
  induction tr as [|e tr IH]; intros page E; simpl in *; [reflexivity|].
  destruct e; simpl in *; eauto.
  - destruct answer; eauto.
  - apply andb_prop in E as [Ea E]. rewrite forallb_app, (IH _ E), andb_true_r.
    clear - Ea. induction messages as [|m ms IHm]; simpl in *; [reflexivity|].
    apply andb_prop in Ea as [Em Ea]. unfold mayDelete in Em.
    apply andb_prop in Em as [Em _]. rewrite Em. auto.
  - apply andb_prop in E as [Ea E]. unfold mayDelete in Ea.
    apply andb_prop in Ea as [Em _]. rewrite Em. eauto.
Qed.

(** C1, counterexample.  On a channel whose history holds the target, a
    message created in the same millisecond as the target and lying on the
    page fetched before the target's page is passed to a delete call: its
    timestamp is not greater than the target's. *)
Lemma tie_on_earlier_page_is_deleted :
  has (id tieTarget) (live tieChannel) = true
  /\ existsb (fun m => (createdTimestamp m <=? createdTimestamp tieTarget)%Z)
       (deletedArgs
          (events_of (cleanUntilMessage 3 (id tieTarget) quietCallback tieChannel)))
     = true.
Proof. split; vm_compute; reflexivity. Qed.

(** C1, as the code has it.  Whatever the platform answers,
    [cleanUntilMessage] never passes a message carrying the target id to a
    delete call, bulk or individual, and from the page that holds the target
    it deletes only messages whose timestamp is strictly greater than the
    target's; the pages fetched before that one are deleted whole, without a
    comparison of timestamps.  On a reference channel whose history is newest
    first and holds the target, every message passed to a delete call comes
    before the target in the history: its snowflake is greater and its
    timestamp is not smaller than the target's (it may be equal). *)
Theorem cleanUntilMessage_spares_target :
  (forall (World : Type) (P : Platform World) (fuel : nat)
          (targetMessageId : string) (responseCallback : Callback World) (w : World),
      let ev := events_of (cleanUntilMessage fuel targetMessageId responseCallback w) in
      respectsTarget targetMessageId [] ev = true
      /\ forallb (fun m => negb (String.eqb (id m) targetMessageId)) (deletedArgs ev)
         = true)
  /\ (forall (c : Channel) (target : Message) (fuel : nat)
             (responseCallback : Callback Channel),
         newestFirst (live c) ->
         In target (live c) ->
         Forall (fun m => precedes m target)
           (deletedArgs
              (events_of (cleanUntilMessage fuel (id target) responseCallback c)))).
Proof.
  split.
  - intros World P fuel targetMessageId responseCallback w ev.
    assert (E : respectsTarget targetMessageId [] ev = true).
    { subst ev.
      destruct (cleanUntilMessage_events responseCallback fuel targetMessageId w)
        as (tail & -> & Htail).
      apply reports_read in Htail.
      destruct Htail as (_ & _ & _ & _ & _ & _ & _ & _ & _ & _ & Hrt & _).
      generalize (cleanUntilLoop_respectsTarget targetMessageId fuel
                    (mkLocals false 0 None) w).
      generalize (events_of (cleanUntilLoop fuel targetMessageId
                               (mkLocals false 0 None) w)).
      intros tr Htr. specialize (Htr []). revert Htr. generalize (@nil Message).
      induction tr as [|e tr IH]; intros page Htr; simpl in *; [apply Hrt|].
      destruct e; simpl in *; eauto.
      - destruct answer; eauto.
      - apply andb_prop in Htr as [-> Htr]. simpl. eauto.
      - apply andb_prop in Htr as [-> Htr]. simpl. eauto. }
    split; [exact E|]. eapply respectsTarget_never_target, E.
  - intros c target fuel responseCallback Hs Hin.
    destruct (cleanUntilMessage_events responseCallback fuel (id target) c)
      as (tail & -> & Htail).
    apply reports_read in Htail. destruct Htail as (_ & _ & Ha & _).
    rewrite deletedArgs_app, Ha, app_nil_r.
    apply channel_loop_newer; auto.
    cbn [lastMessageId fetchOptions truthy before]. discriminate.
Qed.

(** C1, an instance: the history with the tie is newest first and holds the
    target; what is deleted comes before the target. *)
Lemma cleanUntilMessage_spares_target_witness :
  newestFirst (live tieChannel)
  /\ In tieTarget (live tieChannel)
  /\ Forall (fun m => precedes m tieTarget)
       (deletedArgs
          (events_of (cleanUntilMessage 3 (id tieTarget) quietCallback tieChannel))).
Proof.
  assert (Hs : newestFirst (live tieChannel))
    by (apply newestFirstb_sound; vm_compute; reflexivity).
  assert (Hin : In tieTarget (live tieChannel)).
  { unfold tieChannel, tieHistory. cbn [live]. apply in_or_app. right.
    right. left. reflexivity. }
  split; [exact Hs|]. split; [exact Hin|].
  apply (proj2 cleanUntilMessage_spares_target tieChannel tieTarget 3%nat
           quietCallback Hs Hin).
Defined.

(** C3, counterexample.  With [amount = 0] the engine does call the
    platform: the fetch is issued, and it is the platform that refuses. *)
Lemma cleanMessages_amount_zero_fetches :
  fetchCalls (events_of (cleanMessages 0 quietCallback fiveRecent)) <> []
  /\ events_of (cleanMessages 0 quietCallback fiveRecent)
     = [EFetch (mkOptions 0 None) (Rejected "DiscordAPIError: Invalid Form Body");
        EConsoleError "Error deleting messages:" "DiscordAPIError: Invalid Form Body";
        ERespond ErrorText (Resolved tt)].
Proof. split; [vm_compute; discriminate | vm_compute; reflexivity]. Qed.

(** C3, as the code has it.  [cleanMessages] does not look at [amount]: for
    every amount, in or out of 1..100, its first action is the fetch with
    [limit = amount]; the range is the callers' business. *)
Theorem cleanMessages_fetches_unvalidated :
  forall (World : Type) (P : Platform World) (amount : Z)
         (responseCallback : Callback World) (w : World),
  exists answer rest,
    events_of (cleanMessages amount responseCallback w)
    = EFetch (mkOptions amount None) answer :: rest.
Proof.
  intros World P amount responseCallback w.
  destruct (cleanMessages_events responseCallback amount w) as (tail & -> & _).
  rewrite cleanMessages_body.
  destruct (messages_fetch (mkOptions amount None) w) as [[page|e] w1];
    cbn [events_of app]; eauto.
Qed.

Lemma guarded_responses {World A : Type} (body : M World A) (f : A -> Response)
    text (responseCallback : Callback World) w :
  Forall (fun r => r = ErrorText \/ exists a, outcome_of (body w) = Ok a /\ r = f a)
    (responses
       (events_of
          (try_catch
             (bind body (fun x => await (responseCallback (render (f x)))
                                        (ERespond (f x))))
             (fun e => bind (fun w0 => mkRun (Ok tt) w0 [EConsoleError text e])
                            (fun _ => await (responseCallback (render ErrorText))
                                            (ERespond ErrorText))) w)))
  \/ responses (events_of (body w)) <> [].
Proof.
  destruct (responses (events_of (body w))) eqn:Hb; [left | right; discriminate].
  pose proof (guarded_run body f text responseCallback w) as R. cbv zeta in R.
  destruct (outcome_of (body w)) as [a|e|] eqn:Eo.
  - destruct (responseCallback (render (f a)) (world_of (body w))) as [[u|e] w1].
    + rewrite R. cbn [events_of]. rewrite responses_app, Hb. simpl.
      constructor; [right; eauto | constructor].
    + destruct (responseCallback (render ErrorText) w1) as [answer w2].
      rewrite R. cbn [events_of]. rewrite responses_app, Hb. simpl.
      constructor; [right; eauto|].
      constructor; [left; reflexivity | constructor].
  - destruct (responseCallback (render ErrorText) (world_of (body w))) as [answer w1].
    rewrite R. cbn [events_of]. rewrite responses_app, Hb. simpl.
    constructor; [left; reflexivity | constructor].
  - rewrite R. cbn [events_of]. rewrite Hb. constructor.
Qed.

Lemma filter_size_le {A} (p : A -> bool) l :
  (List.length (filter p l) <= List.length l)%nat.
Proof. induction l as [|a l IH]; simpl; [lia|]. destruct (p a); simpl; lia. Qed.

(** C4.  On a platform whose pages hold at most [limit] messages,
    [cleanMessages] with an amount in 1..100 issues at most one bulk delete
    and at most [amount] individual deletes, passes at most [amount] messages
    to delete calls altogether, and reports a count of at most [amount]. *)
Theorem cleanMessages_call_bounds :
  forall (World : Type) (P : Platform World) (amount : Z)
         (responseCallback : Callback World) (w : World),
    (1 <= amount <= 100)%Z ->
    honoursLimit ->
    let ev := events_of (cleanMessages amount responseCallback w) in
    (List.length (bulkCalls ev) <= 1)%nat
    /\ (Z.of_nat (List.length (deleteCalls ev)) <= amount)%Z
    /\ (Z.of_nat (List.length (deletedArgs ev)) <= amount)%Z
    /\ Forall (fun r => match r with
                        | Deleted n => (Z.of_nat n <= amount)%Z
                        | _ => True
                        end) (responses ev).
Proof.
  intros World P amount responseCallback w Hrange Hlimit ev.
  assert (Hbody :
    let b := bind (fetch (mkOptions amount None))
                  (fun fetchedMessages => partitionAndDelete fetchedMessages 0) w in
    (List.length (bulkCalls (events_of b)) <= 1)%nat
    /\ (Z.of_nat (List.length (deleteCalls (events_of b))) <= amount)%Z
    /\ (Z.of_nat (List.length (deletedArgs (events_of b))) <= amount)%Z
    /\ responses (events_of b) = []
    /\ forall n, outcome_of b = Ok n -> (Z.of_nat n <= amount)%Z).
  { cbv zeta. rewrite cleanMessages_body.
    pose proof (Hlimit (mkOptions amount None) w) as Hl.
    destruct (messages_fetch (mkOptions amount None) w) as [[page|e] w1];
      cbn [fst limit] in Hl; cbn [events_of outcome_of].
    - pose proof (partitionAndDelete_facts page 0 w1) as F. cbv zeta in F.
      destruct F as (Hb & _ & _ & Hr & _ & F).
      pose proof (split_size (Date_now w1 - fourteenDays) page) as Hsp.
      pose proof (filter_size_le (isOld (Date_now w1 - fourteenDays)) page) as Hold.
      pose proof (filter_size_le (isRecent (Date_now w1 - fourteenDays)) page) as Hrec.
      unfold size in *.
      cbn [bulkCalls deleteCalls deletedArgs responses]. rewrite Hb, Hr.
      split; [destruct (0 <? _)%nat; simpl; lia|].
      destruct (outcome_of (partitionAndDelete page 0 w1)) as [k| |].
      + destruct F as (Hk & Hd & Ha & Hc & _). rewrite Hd, Ha, length_app.
        repeat split; try lia. intros n E. inversion E; subst. lia.
      + destruct F as (Hd & Ha & _). rewrite Hd, Ha. simpl.
        repeat split; try lia. discriminate.
      + tauto.
    - simpl. repeat split; try lia. discriminate. }
  cbv zeta in Hbody. destruct Hbody as (Hb & Hd & Ha & Hr & Hn).
  pose proof (cleanMessages_events responseCallback amount w) as (tail & Hev & Htail).
  apply reports_read in Htail. destruct Htail as (Tb & Td & Ta & _).
  subst ev. split; [|split; [|split]].
  - rewrite Hev, bulkCalls_app, Tb, app_nil_r. exact Hb.
  - rewrite Hev, deleteCalls_app, Td, app_nil_r. exact Hd.
  - rewrite Hev, deletedArgs_app, Ta, app_nil_r. exact Ha.
  - rewrite cleanMessages_guarded.
    destruct (guarded_responses
                (bind (fetch (mkOptions amount None))
                      (fun fetchedMessages => partitionAndDelete fetchedMessages 0))
                Deleted "Error deleting messages:" responseCallback w) as [F|F];
      [|congruence].
    eapply Forall_impl; [|exact F]. cbv beta.
    intros r [->|(n & En & ->)]; [exact I | apply Hn, En].
Qed.

(** C4, an instance: five recent messages on the reference channel. *)
Lemma cleanMessages_call_bounds_witness :
  (1 <= 5 <= 100)%Z
  /\ @honoursLimit Channel ChannelPlatform
  /\ let ev := events_of (cleanMessages 5 quietCallback fiveRecent) in
     (List.length (bulkCalls ev) <= 1)%nat
     /\ (Z.of_nat (List.length (deleteCalls ev)) <= 5)%Z
     /\ (Z.of_nat (List.length (deletedArgs ev)) <= 5)%Z
     /\ Forall (fun r => match r with
                         | Deleted n => (Z.of_nat n <= 5)%Z
                         | _ => True
                         end) (responses ev).
Proof.
  split; [lia|]. split; [exact channel_honoursLimit|].
  apply (cleanMessages_call_bounds Channel ChannelPlatform 5 quietCallback fiveRecent);
    [lia | exact channel_honoursLimit].
Defined.

Lemma concat_bulkCalls_single (ms : Collection) :
  List.concat (if (0 <? size ms)%nat then [ms] else []) = ms.
Proof. destruct ms; simpl; [reflexivity | rewrite app_nil_r; reflexivity]. Qed.

(** *** What the passes owe, and that they settle it *)

Lemma due_idle select (a b : list Event) :
  forallb idle a = true ->
  forall pending,
    dueInBulk select pending (a ++ b) = dueInBulk select pending b
    /\ dueOneByOne select pending (a ++ b) = dueOneByOne select pending b.
Proof.
  induction a as [|e a IH]; intros Ha pending; [split; reflexivity|].
  simpl in Ha. apply andb_prop in Ha as [He Ha].
  destruct e; try discriminate He; simpl; apply IH, Ha.
Qed.

Lemma bulkRejectedNext_idle (a b : list Event) :
  forallb idle a = true -> bulkRejectedNext b = false ->
  bulkRejectedNext (a ++ b) = false.
Proof.
  destruct a as [|e a]; simpl; [auto|]. intros Ha _.
  apply andb_prop in Ha as [He _]. destruct e; try discriminate He; reflexivity.
Qed.

Lemma reports_idle tail : forallb isReport tail = true -> forallb idle tail = true.
Proof.
  induction tail as [|e tail IH]; simpl; [reflexivity|]. intros H.
  apply andb_prop in H as [He H]. rewrite (IH H).
  destruct e; try discriminate He; reflexivity.
Qed.

Lemma idle_not_rejected b : forallb idle b = true -> bulkRejectedNext b = false.
Proof.
  destruct b as [|e b]; simpl; [reflexivity|]. intros H.
  apply andb_prop in H as [He _]. destruct e; try discriminate He; reflexivity.
Qed.

Section Due.
Context {World : Type} {P : Platform World}.

Lemma deleteOld_idle olds n (w : World) :
  forallb idle (events_of (deleteOld olds n w)) = true.
Proof.
  pattern olds, n, w, (deleteOld olds n w). apply deleteOld_cases; clear.
  - reflexivity.
  - intros msg rest n w w1 _ IH. simpl. exact IH.
  - intros msg rest n w e w1 _ IH. simpl. exact IH.
Qed.

Lemma partitionAndDelete_due select pending ms n (w : World) rest :
  bulkRejectedNext rest = false ->
  let ev := events_of (partitionAndDelete ms n w) in
  let twoWeeksAgo := (Date_now w - fourteenDays)%Z in
  dueInBulk select pending (ev ++ rest)
  = filter (isRecent twoWeeksAgo) pending ++ dueInBulk select pending rest
  /\ dueOneByOne select pending (ev ++ rest)
     = (if fatalRejection ev then [] else filter (isOld twoWeeksAgo) pending)
         ++ dueOneByOne select pending rest.
Proof.
  intros Hrest. cbv zeta. rewrite partitionAndDelete_unfold. cbv zeta.
  destruct (0 <? size (filter (isRecent (Date_now w - fourteenDays)) ms))%nat.
  - destruct (bulkDelete _ true w) as [[reported|e] w1];
      cbn [events_of app dueInBulk dueOneByOne bulkRejectedNext fatalRejection].
    + pose proof (deleteOld_idle (filter (isOld (Date_now w - fourteenDays)) ms)
                    (n + size (filter (isRecent (Date_now w - fourteenDays)) ms)) w1)
        as Hi.
      destruct (due_idle select _ rest Hi pending) as [-> ->].
      pose proof (deleteOld_facts (filter (isOld (Date_now w - fourteenDays)) ms)
                    (n + size (filter (isRecent (Date_now w - fourteenDays)) ms)) w1)
        as F.
      cbv zeta in F. destruct F as (_ & _ & _ & _ & _ & _ & _ & -> & _).
      split; reflexivity.
    + split; reflexivity.
  - cbn [events_of app dueInBulk dueOneByOne fatalRejection].
    pose proof (deleteOld_idle (filter (isOld (Date_now w - fourteenDays)) ms) n w)
      as Hi.
    destruct (due_idle select _ rest Hi pending) as [-> ->].
    rewrite (bulkRejectedNext_idle _ rest Hi Hrest).
    pose proof (deleteOld_facts (filter (isOld (Date_now w - fourteenDays)) ms) n w)
      as F.
    cbv zeta in F. destruct F as (_ & _ & _ & _ & _ & _ & _ & -> & _).
    split; reflexivity.
Qed.

(** One pass settles what it owes. *)
Lemma partitionAndDelete_settles select ms n (w : World) rest :
  bulkRejectedNext rest = false ->
  let ev := events_of (partitionAndDelete ms n w) in
  List.concat (bulkCalls ev) ++ dueInBulk select ms rest
  = dueInBulk select ms (ev ++ rest)
  /\ deleteCalls ev ++ dueOneByOne select ms rest
     = dueOneByOne select ms (ev ++ rest).
Proof.
  intros Hrest ev.
  destruct (partitionAndDelete_due select ms ms n w rest Hrest) as [E1 E2].
  fold ev in E1, E2. rewrite E1, E2.
  pose proof (partitionAndDelete_facts ms n w) as F. cbv zeta in F. fold ev in F.
  destruct F as (Hb & _ & _ & _ & _ & F).
  rewrite Hb, concat_bulkCalls_single. split; [reflexivity|].
  destruct (outcome_of (partitionAndDelete ms n w)).
  - destruct F as (_ & -> & _ & _ & ->). reflexivity.
  - destruct F as (-> & _ & ->). reflexivity.
  - destruct F.
Qed.

Lemma upToTarget_absent targetMessageId page :
  has targetMessageId page = false -> upToTarget targetMessageId page = page.
Proof. intros E. unfold upToTarget. rewrite (get_none_has _ _ E). reflexivity. Qed.

Lemma cleanUntilLoop_settles targetMessageId fuel l (w : World) :
  forall pending b,
    forallb idle b = true ->
    let ev := events_of (cleanUntilLoop fuel targetMessageId l w) in
    List.concat (bulkCalls ev)
    = dueInBulk (upToTarget targetMessageId) pending (ev ++ b)
    /\ deleteCalls ev = dueOneByOne (upToTarget targetMessageId) pending (ev ++ b).
Proof.
  pattern fuel, l, w, (cleanUntilLoop fuel targetMessageId l w).
  apply cleanUntilLoop_cases; clear.
  - intros l w pending b Hb. cbn [events_of app bulkCalls deleteCalls List.concat].
    destruct (due_idle (upToTarget targetMessageId) b [] Hb pending) as [E1 E2].
    rewrite app_nil_r in E1, E2. rewrite E1, E2. split; reflexivity.
  - intros fuel l w _ pending b Hb.
    cbn [events_of app bulkCalls deleteCalls List.concat].
    destruct (due_idle (upToTarget targetMessageId) b [] Hb pending) as [E1 E2].
    rewrite app_nil_r in E1, E2. rewrite E1, E2. split; reflexivity.
  - intros fuel l w e w1 _ pending b Hb.
    cbn [events_of app bulkCalls deleteCalls List.concat dueInBulk dueOneByOne].
    destruct (due_idle (upToTarget targetMessageId) b [] Hb pending) as [E1 E2].
    rewrite app_nil_r in E1, E2. rewrite E1, E2. split; reflexivity.
  - intros fuel l w w1 _ pending b Hb.
    cbn [events_of app bulkCalls deleteCalls List.concat dueInBulk dueOneByOne].
    destruct (due_idle (upToTarget targetMessageId) b [] Hb
                (upToTarget targetMessageId [])) as [E1 E2].
    rewrite app_nil_r in E1, E2. rewrite E1, E2. split; reflexivity.
  - intros fuel l w page w1 oldest target _ _ _ _ Hget Hsz pending b Hb.
    cbn [events_of app bulkCalls deleteCalls List.concat dueInBulk dueOneByOne].
    destruct (due_idle (upToTarget targetMessageId) b [] Hb
                (upToTarget targetMessageId page)) as [E1 E2].
    rewrite app_nil_r in E1, E2. rewrite E1, E2. split; reflexivity.
  - intros fuel l w page w1 oldest target _ _ _ _ Hget Hsz r pending b Hb. subst r.
    cbn [events_of app bulkCalls deleteCalls List.concat dueInBulk dueOneByOne].
    assert (Hsel : upToTarget targetMessageId page
                   = filter (newerThan targetMessageId target) page)
      by (unfold upToTarget; rewrite Hget; reflexivity).
    rewrite Hsel.
    destruct (partitionAndDelete_settles (upToTarget targetMessageId)
                (filter (newerThan targetMessageId target) page) (deletedCount l) w1 b
                (idle_not_rejected b Hb)) as [E1 E2].
    rewrite <- E1, <- E2.
    destruct (due_idle (upToTarget targetMessageId) b [] Hb
                (filter (newerThan targetMessageId target) page)) as [F1 F2].
    rewrite app_nil_r in F1, F2. rewrite F1, F2, !app_nil_r. split; reflexivity.
  - intros fuel l w page w1 oldest e _ _ _ Hhas r _ pending b Hb. subst r.
    cbn [events_of app bulkCalls deleteCalls List.concat dueInBulk dueOneByOne].
    rewrite (upToTarget_absent _ _ Hhas).
    destruct (partitionAndDelete_settles (upToTarget targetMessageId)
                page (deletedCount l) w1 b (idle_not_rejected b Hb)) as [E1 E2].
    rewrite <- E1, <- E2.
    destruct (due_idle (upToTarget targetMessageId) b [] Hb page) as [F1 F2].
    rewrite app_nil_r in F1, F2. rewrite F1, F2, !app_nil_r. split; reflexivity.
  - intros fuel l w page w1 oldest n _ _ _ Hhas r _ l' r' IH pending b Hb.
    subst r r' l'.
    cbn [events_of app bulkCalls deleteCalls List.concat dueInBulk dueOneByOne].
    rewrite (upToTarget_absent _ _ Hhas).
    rewrite <- app_assoc. cbn [app].
    destruct (partitionAndDelete_settles (upToTarget targetMessageId)
                page (deletedCount l) w1
                (ESleep 1000 :: events_of (cleanUntilLoop fuel targetMessageId
                   (mkLocals (targetFound l) n (Some (id oldest)))
                   (setTimeout 1000 (world_of (partitionAndDelete page (deletedCount l) w1))))
                   ++ b) eq_refl) as [E1 E2].
    rewrite <- E1, <- E2. cbn [dueInBulk dueOneByOne].
    destruct (IH page b Hb) as [I1 I2]. rewrite <- I1, <- I2.
    rewrite bulkCalls_app, deleteCalls_app, concat_app.
    cbn [bulkCalls deleteCalls]. split; reflexivity.
Qed.

End Due.

Lemma due_idle_alone select (b : list Event) pending :
  forallb idle b = true ->
  dueInBulk select pending b = [] /\ dueOneByOne select pending b = [].
Proof.
  intros Hb. destruct (due_idle select b [] Hb pending) as [E1 E2].
  rewrite app_nil_r in E1, E2. split; assumption.
Qed.

(** C5.  A pass hands to the bulk delete exactly the messages created after
    the cutoff (the clock's reading less fourteen days) and deletes one by
    one exactly the messages created at or before it, all of them and in
    order; only when the bulk delete rejected does the pass end there, with
    no individual delete.  So no recent message is ever deleted
    individually and no old one is ever in a bulk call, and over the whole
    of either operation the bulk calls hold exactly the recent messages,
    and the individual deletes are exactly of the old messages, of what
    each pass was given from the page fetched last. *)
Theorem recent_in_bulk_old_one_by_one :
  forall (World : Type) (P : Platform World),
    (forall ms n w,
        let twoWeeksAgo := (Date_now w - fourteenDays)%Z in
        let r := partitionAndDelete ms n w in
        let ev := events_of r in
        List.concat (bulkCalls ev) = filter (isRecent twoWeeksAgo) ms
        /\ (if fatalRejection ev
            then deleteCalls ev = [] /\ (exists e, outcome_of r = Throw e)
            else deleteCalls ev = filter (isOld twoWeeksAgo) ms
                 /\ (exists k, outcome_of r = Ok k))
        /\ forallb (fun m => negb (isOld twoWeeksAgo m)) (List.concat (bulkCalls ev))
           = true
        /\ forallb (fun m => negb (isRecent twoWeeksAgo m)) (deleteCalls ev) = true)
    /\ (forall amount responseCallback w,
           let ev := events_of (cleanMessages amount responseCallback w) in
           partitioned None ev = true
           /\ List.concat (bulkCalls ev) = dueInBulk wholePage [] ev
           /\ deleteCalls ev = dueOneByOne wholePage [] ev
           /\ match messages_fetch (mkOptions amount None) w with
              | (Resolved page, w1) =>
                  let twoWeeksAgo := (Date_now w1 - fourteenDays)%Z in
                  List.concat (bulkCalls ev) = filter (isRecent twoWeeksAgo) page
                  /\ deleteCalls ev
                     = (if fatalRejection ev then []
                        else filter (isOld twoWeeksAgo) page)
              | (Rejected _, _) => bulkCalls ev = [] /\ deleteCalls ev = []
              end)
    /\ (forall fuel targetMessageId responseCallback w,
           let ev := events_of (cleanUntilMessage fuel targetMessageId
                                  responseCallback w) in
           partitioned None ev = true
           /\ List.concat (bulkCalls ev) = dueInBulk (upToTarget targetMessageId) [] ev
           /\ deleteCalls ev = dueOneByOne (upToTarget targetMessageId) [] ev).
Proof.
  intros World P. split; [|split].
  - intros ms n w twoWeeksAgo r ev.
    pose proof (partitionAndDelete_facts ms n w) as F. cbv zeta in F.
    fold twoWeeksAgo in F. fold r in F. fold ev in F.
    destruct F as (Hb & _ & _ & _ & _ & F).
    assert (Hbulk : List.concat (bulkCalls ev) = filter (isRecent twoWeeksAgo) ms)
      by (rewrite Hb; apply concat_bulkCalls_single).
    split; [exact Hbulk|]. split; [|split].
    + destruct (outcome_of r) as [k|e|].
      * destruct F as (_ & Hd & _ & _ & ->). split; [exact Hd|]. exists k. reflexivity.
      * destruct F as (Hd & _ & ->). split; [exact Hd|]. exists e. reflexivity.
      * destruct F.
    + rewrite Hbulk. apply forallb_ext_filter. intros m. apply isRecent_isOld.
    + destruct (outcome_of r) as [k|e|].
      * destruct F as (_ & -> & _). apply forallb_ext_filter. intros m.
        rewrite isRecent_isOld. symmetry. apply negb_involutive.
      * destruct F as (-> & _). reflexivity.
      * destruct F.
  - intros amount responseCallback w ev. subst ev.
    destruct (cleanMessages_events responseCallback amount w) as (tail & -> & Htail).
    pose proof (reports_idle _ Htail) as Hidle.
    apply reports_read in Htail.
    destruct Htail as (Hbt & Hdt & _ & _ & _ & _ & _ & Hft & _ & Hp & _).
    rewrite partitioned_app, Hp, andb_true_r, bulkCalls_app, deleteCalls_app,
      fatalRejection_app, Hbt, Hdt, Hft, !app_nil_r, orb_false_r, cleanMessages_body.
    destruct (messages_fetch (mkOptions amount None) w) as [[page|e] w1];
      cbn [events_of partitioned app bulkCalls deleteCalls dueInBulk dueOneByOne
           fatalRejection].
    + unfold wholePage at 2 4.
      destruct (partitionAndDelete_settles wholePage page 0 w1 tail
                  (idle_not_rejected _ Hidle)) as [E1 E2].
      destruct (due_idle_alone wholePage tail page Hidle) as [T1 T2].
      rewrite T1, T2, !app_nil_r in *. 
      pose proof (partitionAndDelete_facts page 0 w1) as F. cbv zeta in F.
      destruct F as (Hb & _ & _ & _ & _ & F).
      split; [apply partitionAndDelete_partitioned|].
      split; [exact E1|]. split; [exact E2|].
      split; [rewrite Hb; apply concat_bulkCalls_single|].
      destruct (outcome_of (partitionAndDelete page 0 w1)).
      * destruct F as (_ & -> & _ & _ & ->). reflexivity.
      * destruct F as (-> & _ & ->). reflexivity.
      * destruct F.
    + destruct (due_idle_alone wholePage tail [] Hidle) as [T1 T2].
      rewrite T1, T2. repeat split; reflexivity.
  - intros fuel targetMessageId responseCallback w ev. subst ev.
    destruct (cleanUntilMessage_events responseCallback fuel targetMessageId w)
      as (tail & -> & Htail).
    pose proof (reports_idle _ Htail) as Hidle.
    apply reports_read in Htail.
    destruct Htail as (Hbt & Hdt & _ & _ & _ & _ & _ & _ & _ & Hp & _).
    rewrite partitioned_app, Hp, andb_true_r, bulkCalls_app, deleteCalls_app,
      Hbt, Hdt, !app_nil_r.
    split; [apply cleanUntilLoop_partitioned|].
    apply cleanUntilLoop_settles, Hidle.
Qed.


(** C9.  The split is exact and the comparison strict: every message is in
    exactly one of the two buckets, a message created exactly at the cutoff
    is old, the two buckets together have the size of the collection, and in
    a pass no message created at the cutoff is in the bulk call while the
    individual deletes are of the whole old bucket (or none, when the bulk
    delete rejected). *)
Theorem cutoff_message_is_old :
  forall (World : Type) (P : Platform World) (ms : Collection) (n : nat) (w : World),
    let twoWeeksAgo := (Date_now w - fourteenDays)%Z in
    let ev := events_of (partitionAndDelete ms n w) in
    (forall m, xorb (isRecent twoWeeksAgo m) (isOld twoWeeksAgo m) = true)
    /\ (forall key, isOld twoWeeksAgo (mkMessage key twoWeeksAgo) = true
                    /\ isRecent twoWeeksAgo (mkMessage key twoWeeksAgo) = false)
    /\ (size (filter (isRecent twoWeeksAgo) ms)
        + size (filter (isOld twoWeeksAgo) ms))%nat = size ms
    /\ forallb (fun m => negb (createdTimestamp m =? twoWeeksAgo)%Z)
         (List.concat (bulkCalls ev)) = true
    /\ (deleteCalls ev = filter (isOld twoWeeksAgo) ms
        \/ (deleteCalls ev = [] /\ fatalRejection ev = true)).
Proof.
  intros World P ms n w twoWeeksAgo ev.
  pose proof (partitionAndDelete_facts ms n w) as F. cbv zeta in F.
  fold twoWeeksAgo in F. fold ev in F. destruct F as (Hb & _ & _ & _ & _ & F).
  split; [|split; [|split; [|split]]].
  - intros m. rewrite isRecent_isOld. destruct (isOld twoWeeksAgo m); reflexivity.
  - intros key. unfold isOld, isRecent. cbn [createdTimestamp].
    rewrite Z.leb_refl, Z.gtb_ltb, Z.ltb_irrefl. split; reflexivity.
  - apply split_size.
  - rewrite Hb, concat_bulkCalls_single.
    apply forallb_forall. intros m Hm. apply filter_In in Hm as [_ Hm].
    unfold isRecent in Hm. rewrite Z.gtb_ltb in Hm. apply Z.ltb_lt in Hm.
    apply negb_true_iff, Z.eqb_neq. lia.
  - destruct (outcome_of (partitionAndDelete ms n w)); [left|right|]; tauto.
Qed.

Section ClaimLemmas.

Context {World : Type} `{Platform World}.

(** The body of [cleanMessages]: it ends, and it throws exactly when the
    fetch or the bulk delete rejected. *)
Lemma cleanMessages_body_facts amount w :
  let b := bind (fetch (mkOptions amount None))
                (fun fetchedMessages => partitionAndDelete fetchedMessages 0) w in
  responses (events_of b) = []
  /\ match outcome_of b with
     | Ok n => n = credited (events_of b) /\ fatalRejection (events_of b) = false
     | Throw _ => fatalRejection (events_of b) = true
     | OutOfFuel => False
     end.
Proof.
  cbv zeta. rewrite cleanMessages_body.
  destruct (messages_fetch (mkOptions amount None) w) as [[page|e] w1];
    cbn [events_of outcome_of responses credited fatalRejection]; [|auto].
  pose proof (partitionAndDelete_facts page 0 w1) as F. cbv zeta in F.
  destruct F as (_ & _ & _ & Hr & _ & F). split; [exact Hr|].
  destruct (outcome_of (partitionAndDelete page 0 w1)); tauto.
Qed.

(** One more turn of the loop after a page without the target. *)
Lemma cleanUntilLoop_next targetMessageId fuel l w page w1 n :
  targetFound l = false ->
  messages_fetch (fetchOptions (lastMessageId l)) w = (Resolved page, w1) ->
  (size page =? 0)%nat = false ->
  has targetMessageId page = false ->
  outcome_of (partitionAndDelete page (deletedCount l) w1) = Ok n ->
  exists oldest,
    last page = Some oldest
    /\ cleanUntilLoop (S fuel) targetMessageId l w =
       let r := partitionAndDelete page (deletedCount l) w1 in
       let r' := cleanUntilLoop fuel targetMessageId
                   (mkLocals false n (Some (id oldest)))
                   (setTimeout 1000 (world_of r)) in
       mkRun (outcome_of r') (world_of r')
             (EFetch (fetchOptions (lastMessageId l)) (Resolved page)
                :: EAssignCursor (id oldest)
                :: events_of r ++ ESleep 1000 :: events_of r').
Proof.
  intros Etf Ef Esz Ehas Eo.
  destruct (last_of_nonempty page Esz) as (oldest & Hlast & _).
  exists oldest. split; [exact Hlast|].
  cbn [cleanUntilLoop]. rewrite Etf.
  unfold bind, fetch, await, assignLastMessageId, ret, throw, sleep.
  rewrite Ef. cbn [outcome_of world_of events_of]. rewrite Esz, Hlast.
  cbn [outcome_of world_of events_of targetFound deletedCount lastMessageId].
  rewrite Ehas, Eo. cbn [outcome_of world_of events_of app].
  rewrite ?Etf. reflexivity.
Qed.

End ClaimLemmas.

(** C10.  When the bulk delete resolves, the count grows by the size of the
    collection that was passed to it, whatever collection the platform
    reports as deleted; the counts the two operations report are the sum of
    those sizes and of the individual deletes that resolved. *)
Theorem bulk_credit_is_bucket_size :
  forall (World : Type) (P : Platform World),
    (forall ms n w reported w1,
        let twoWeeksAgo := (Date_now w - fourteenDays)%Z in
        let recentMessages := filter (isRecent twoWeeksAgo) ms in
        let oldMessages := filter (isOld twoWeeksAgo) ms in
        (0 < size recentMessages)%nat ->
        bulkDelete recentMessages true w = (Resolved reported, w1) ->
        outcome_of (partitionAndDelete ms n w)
        = Ok (n + size recentMessages
              + credited (events_of (deleteOld oldMessages
                                       (n + size recentMessages) w1)))%nat)
    /\ (forall amount responseCallback w,
           let ev := events_of (cleanMessages amount responseCallback w) in
           Forall (fun r => match r with
                            | Deleted k => k = credited ev
                            | _ => True
                            end) (responses ev))
    /\ (forall fuel targetMessageId responseCallback w,
           let ev := events_of (cleanUntilMessage fuel targetMessageId
                                  responseCallback w) in
           Forall (fun r => match r with
                            | DeletedUpTo k => k = credited ev
                            | _ => True
                            end) (responses ev)).
Proof.
  intros World P. split; [|split].
  - intros ms n w reported w1 twoWeeksAgo recentMessages oldMessages Hsz Hbulk.
    rewrite partitionAndDelete_unfold. cbv zeta.
    fold twoWeeksAgo. fold recentMessages. fold oldMessages.
    apply Nat.ltb_lt in Hsz. rewrite Hsz, Hbulk. cbn [outcome_of].
    destruct (deleteOld_facts oldMessages (n + size recentMessages) w1) as (Ho & _).
    rewrite Ho. f_equal.
  - intros amount responseCallback w ev.
    pose proof (cleanMessages_body_facts amount w) as B. cbv zeta in B.
    destruct B as (Hr & B).
    destruct (cleanMessages_events responseCallback amount w) as (tail & Hev & Htail).
    apply reports_read in Htail.
    destruct Htail as (_ & _ & _ & _ & _ & Hc & _).
    assert (Hcred : credited ev
                    = credited (events_of
                        (bind (fetch (mkOptions amount None))
                           (fun fetchedMessages => partitionAndDelete fetchedMessages 0)
                           w)))
      by (subst ev; rewrite Hev, credited_app, Hc; lia).
    subst ev. rewrite cleanMessages_guarded in *.
    destruct (guarded_responses
                (bind (fetch (mkOptions amount None))
                      (fun fetchedMessages => partitionAndDelete fetchedMessages 0))
                Deleted "Error deleting messages:" responseCallback w) as [F|F];
      [|congruence].
    eapply Forall_impl; [|exact F]. cbv beta.
    intros r [->|(k & Ek & ->)]; [exact I|].
    rewrite Ek in B. rewrite Hcred. tauto.
  - intros fuel targetMessageId responseCallback w ev.
    pose proof (cleanUntilLoop_accounting targetMessageId fuel
                  (mkLocals false 0 None) w) as B.
    cbv zeta in B. destruct B as (Hr & B).
    destruct (cleanUntilMessage_events responseCallback fuel targetMessageId w)
      as (tail & Hev & Htail).
    apply reports_read in Htail.
    destruct Htail as (_ & _ & _ & _ & _ & Hc & _).
    assert (Hcred : credited ev
                    = credited (events_of
                        (cleanUntilLoop fuel targetMessageId (mkLocals false 0 None) w)))
      by (subst ev; rewrite Hev, credited_app, Hc; lia).
    subst ev. unfold cleanUntilMessage in *.
    destruct (guarded_responses
                (cleanUntilLoop fuel targetMessageId (mkLocals false 0 None))
                (fun l => if targetFound l then DeletedUpTo (deletedCount l)
                          else TargetNotFound)
                "Error cleaning messages:" responseCallback w) as [F|F];
      [|congruence].
    eapply Forall_impl; [|exact F]. cbv beta.
    intros r [->|(l & El & ->)]; [exact I|].
    rewrite El in B. destruct (targetFound l); [|exact I].
    rewrite Hcred. cbn [deletedCount] in B. tauto.
Qed.

(** C10, an instance: two recent messages are handed to the bulk delete, the
    platform reports one deleted, the count is two. *)
Lemma bulk_credit_is_bucket_size_witness :
  (0 < size (filter (isRecent (Date_now racedChannel - fourteenDays)) racedPair))%nat
  /\ bulkDelete (filter (isRecent (Date_now racedChannel - fourteenDays)) racedPair)
       true racedChannel
     = (Resolved [mkMessage "1005" (100 * day + 5)], mkChannel [] (101 * day) [])
  /\ outcome_of (partitionAndDelete racedPair 0 racedChannel) = Ok 2%nat
  /\ reportedDeleted (events_of (partitionAndDelete racedPair 0 racedChannel)) = 1%nat.
Proof.
  split; [vm_compute; lia|].
  split; [vm_compute; reflexivity|].
  split; [|vm_compute; reflexivity].
  apply (proj1 (bulk_credit_is_bucket_size Channel ChannelPlatform)
           racedPair 0%nat racedChannel
           [mkMessage "1005" (100 * day + 5)]
           (mkChannel [] (101 * day) [])).
  - vm_compute. lia.
  - vm_compute. reflexivity.
Defined.

(** C7.  A rejected individual delete is logged and skipped: the rest of the
    batch is run as it would have been; every old message of a batch gets
    its delete call, whichever of them reject, and the loop over them never
    throws; a pass aborts only when its bulk delete rejected; and after a
    pass that did not abort the pagination loop pauses and runs its next
    turn. *)
Theorem individual_failure_skipped :
  forall (World : Type) (P : Platform World),
    (forall msg rest n w e w1,
        msg_delete msg w = (Rejected e, w1) ->
        deleteOld (msg :: rest) n w
        = mkRun (outcome_of (deleteOld rest n w1)) (world_of (deleteOld rest n w1))
                (EDelete msg (Rejected e)
                   :: EConsoleError "Error deleting older message:" e
                   :: events_of (deleteOld rest n w1)))
    /\ (forall olds n w,
           let ev := events_of (deleteOld olds n w) in
           deleteCalls ev = olds
           /\ outcome_of (deleteOld olds n w) = Ok (n + credited ev)%nat
           /\ (credited ev + rejectedDeletes ev)%nat = size olds)
    /\ (forall ms n w,
           let ev := events_of (partitionAndDelete ms n w) in
           fatalRejection ev = false ->
           deleteCalls ev = filter (isOld (Date_now w - fourteenDays)) ms
           /\ outcome_of (partitionAndDelete ms n w) = Ok (n + credited ev)%nat)
    /\ (forall targetMessageId fuel l w page w1,
           targetFound l = false ->
           messages_fetch (fetchOptions (lastMessageId l)) w = (Resolved page, w1) ->
           (size page =? 0)%nat = false ->
           has targetMessageId page = false ->
           let r := partitionAndDelete page (deletedCount l) w1 in
           fatalRejection (events_of r) = false ->
           exists oldest,
             last page = Some oldest
             /\ events_of (cleanUntilLoop (S fuel) targetMessageId l w)
                = EFetch (fetchOptions (lastMessageId l)) (Resolved page)
                    :: EAssignCursor (id oldest)
                    :: events_of r
                    ++ ESleep 1000
                    :: events_of
                         (cleanUntilLoop fuel targetMessageId
                            (mkLocals false
                               (deletedCount l + credited (events_of r))
                               (Some (id oldest)))
                            (setTimeout 1000 (world_of r)))).
Proof.
  intros World P. split; [|split; [|split]].
  - intros msg rest n w e w1 E. apply deleteOld_rejected, E.
  - intros olds n w ev. subst ev.
    destruct (deleteOld_facts olds n w) as (Ho & Hd & _ & _ & _ & _ & _ & _ & Hc & _).
    auto.
  - intros ms n w ev Hfat. subst ev.
    pose proof (partitionAndDelete_facts ms n w) as F. cbv zeta in F.
    destruct F as (_ & _ & _ & _ & _ & F).
    destruct (outcome_of (partitionAndDelete ms n w)) as [k|e|].
    + destruct F as (-> & Hd & _). auto.
    + destruct F as (_ & _ & Hx). congruence.
    + tauto.
  - intros targetMessageId fuel l w page w1 Etf Ef Esz Ehas r Hfat.
    pose proof (partitionAndDelete_facts page (deletedCount l) w1) as F.
    cbv zeta in F. fold r in F. destruct F as (_ & _ & _ & _ & _ & F).
    destruct (outcome_of r) as [k|e|] eqn:Eo.
    + destruct F as (Hk & _).
      destruct (cleanUntilLoop_next targetMessageId fuel l w page w1 k
                  Etf Ef Esz Ehas Eo) as (oldest & Hlast & Hrun).
      exists oldest. split; [exact Hlast|].
      rewrite Hrun. cbv zeta. cbn [events_of]. fold r.
      rewrite <- Hk. reflexivity.
    + destruct F as (_ & _ & Hx). congruence.
    + tauto.
Qed.

(** C7, an instance: of two aged messages the first delete rejects; the
    second is attempted all the same and counted. *)
Lemma individual_failure_skipped_witness :
  msg_delete (mkMessage "1002" (50 * day)) twoAgedFirstFails
  = (Rejected apiError, mkChannel twoAged (101 * day) [])
  /\ deleteCalls (events_of (deleteOld twoAged 0 twoAgedFirstFails)) = twoAged
  /\ outcome_of (deleteOld twoAged 0 twoAgedFirstFails) = Ok 1%nat
  /\ fatalRejection (events_of (partitionAndDelete twoAged 0 twoAgedFirstFails))
     = false
  /\ deleteCalls (events_of (partitionAndDelete twoAged 0 twoAgedFirstFails))
     = twoAged.
Proof.
  split; [vm_compute; reflexivity|].
  assert (Hpass :
    deleteCalls (events_of (partitionAndDelete twoAged 0 twoAgedFirstFails))
    = filter (isOld (Date_now twoAgedFirstFails - fourteenDays)) twoAged
    /\ outcome_of (partitionAndDelete twoAged 0 twoAgedFirstFails)
       = Ok (0 + credited (events_of
                            (partitionAndDelete twoAged 0 twoAgedFirstFails)))%nat).
  { apply (proj1 (proj2 (proj2 (individual_failure_skipped Channel ChannelPlatform)))
             twoAged 0%nat twoAgedFirstFails).
    vm_compute. reflexivity. }
  unfold twoAged at 1 3.
  rewrite (proj1 (individual_failure_skipped Channel ChannelPlatform)
             (mkMessage "1002" (50 * day)) [mkMessage "1001" (40 * day)] 0%nat
             twoAgedFirstFails apiError (mkChannel twoAged (101 * day) []));
    [|vm_compute; reflexivity].
  split; [vm_compute; reflexivity|].
  split; [vm_compute; reflexivity|].
  split; [vm_compute; reflexivity|].
  rewrite (proj1 Hpass). vm_compute. reflexivity.
Defined.

(** With a callback that resolves, the shape both operations share hands
    over exactly one text, last of all, and it is the error text exactly
    when the body threw. *)
Lemma guarded_delivers {World A : Type} (body : M World A) (f : A -> Response)
    text (responseCallback : Callback World) w :
  alwaysResolves responseCallback ->
  responses (events_of (body w)) = [] ->
  (forall a, f a <> ErrorText) ->
  match outcome_of (body w) with
  | Ok _ => fatalRejection (events_of (body w)) = false
  | Throw _ => fatalRejection (events_of (body w)) = true
  | OutOfFuel => True
  end ->
  let r := try_catch
             (bind body (fun x => await (responseCallback (render (f x)))
                                        (ERespond (f x))))
             (fun e => bind (fun w0 => mkRun (Ok tt) w0 [EConsoleError text e])
                            (fun _ => await (responseCallback (render ErrorText))
                                            (ERespond ErrorText))) w in
  (outcome_of r = Ok tt
   /\ exists pre resp,
        events_of r = pre ++ [ERespond resp (Resolved tt)]
        /\ responses pre = []
        /\ (resp = ErrorText <-> fatalRejection pre = true))
  \/ (outcome_of r = OutOfFuel /\ outcome_of (body w) = OutOfFuel).
Proof.
  intros Hres Hresp Hf Hfat.
  pose proof (guarded_run body f text responseCallback w) as R. cbv zeta in *.
  destruct (outcome_of (body w)) as [a|e|] eqn:Eo.
  - left.
    pose proof (Hres (render (f a)) (world_of (body w))) as Hr.
    destruct (responseCallback (render (f a)) (world_of (body w))) as [answer w1].
    cbn [fst] in Hr. subst answer. rewrite R. cbn [outcome_of events_of].
    split; [reflexivity|]. exists (events_of (body w)), (f a).
    repeat split; auto.
    + intros E. destruct (Hf a E).
    + intros E. congruence.
  - left.
    pose proof (Hres (render ErrorText) (world_of (body w))) as Hr.
    destruct (responseCallback (render ErrorText) (world_of (body w))) as [answer w1].
    cbn [fst] in Hr. subst answer. rewrite R. cbn [outcome_of events_of].
    split; [reflexivity|].
    exists (events_of (body w) ++ [EConsoleError text e]), ErrorText.
    rewrite <- app_assoc, responses_app, fatalRejection_app, Hresp, Hfat.
    repeat split; auto.
  - right. rewrite R. auto.
Qed.

(** C6, counterexample.  An individual delete rejects, and the text handed
    to the caller is the success text with a count of zero: it carries no
    error summary. *)
Lemma swallowed_failure_reports_success :
  anyRejection (events_of (cleanMessages 1 quietCallback oneAgedFaulty)) = true
  /\ responses (events_of (cleanMessages 1 quietCallback oneAgedFaulty))
     = [Deleted 0].
Proof. split; vm_compute; reflexivity. Qed.

(** C6, as the code has it.  Provided the caller's callback resolves, no
    behaviour of the platform calls makes either operation throw: an
    operation that ends hands exactly one text to the callback, as its last
    action, and that text is the error text exactly when a fetch or a bulk
    delete rejected (a rejected individual delete is swallowed and the
    success text is delivered).  [cleanMessages] always ends;
    [cleanUntilMessage] ends on the reference channel, whatever calls
    reject, within one turn more than the channel has messages. *)
Theorem result_always_delivered :
  (forall (World : Type) (P : Platform World) (responseCallback : Callback World),
      alwaysResolves responseCallback ->
      (forall amount w,
          let r := cleanMessages amount responseCallback w in
          outcome_of r = Ok tt
          /\ exists pre resp,
               events_of r = pre ++ [ERespond resp (Resolved tt)]
               /\ responses pre = []
               /\ (resp = ErrorText <-> fatalRejection pre = true))
      /\ (forall fuel targetMessageId w,
             let r := cleanUntilMessage fuel targetMessageId responseCallback w in
             (outcome_of r = Ok tt
              /\ exists pre resp,
                   events_of r = pre ++ [ERespond resp (Resolved tt)]
                   /\ responses pre = []
                   /\ (resp = ErrorText <-> fatalRejection pre = true))
             \/ (outcome_of r = OutOfFuel
                 /\ outcome_of (cleanUntilLoop fuel targetMessageId
                                  (mkLocals false 0 None) w) = OutOfFuel)))
  /\ (forall (responseCallback : Callback Channel) (c : Channel)
             (targetMessageId : string) (fuel : nat),
         alwaysResolves responseCallback ->
         wellFormed (live c) = true ->
         (size (live c) < fuel)%nat ->
         outcome_of (cleanUntilMessage fuel targetMessageId responseCallback c)
         = Ok tt).
Proof.
  assert (Hloop :
    forall (World : Type) (P : Platform World) (responseCallback : Callback World),
      alwaysResolves responseCallback ->
      forall fuel targetMessageId w,
        let r := cleanUntilMessage fuel targetMessageId responseCallback w in
        (outcome_of r = Ok tt
         /\ exists pre resp,
              events_of r = pre ++ [ERespond resp (Resolved tt)]
              /\ responses pre = []
              /\ (resp = ErrorText <-> fatalRejection pre = true))
        \/ (outcome_of r = OutOfFuel
            /\ outcome_of (cleanUntilLoop fuel targetMessageId
                             (mkLocals false 0 None) w) = OutOfFuel)).
  { intros World P responseCallback Hres fuel targetMessageId w.
    pose proof (cleanUntilLoop_accounting targetMessageId fuel
                  (mkLocals false 0 None) w) as B.
    cbv zeta in B. destruct B as (Hr & B).
    unfold cleanUntilMessage.
    apply (guarded_delivers
             (cleanUntilLoop fuel targetMessageId (mkLocals false 0 None))
             (fun l => if targetFound l then DeletedUpTo (deletedCount l)
                       else TargetNotFound)); auto.
    - intros l. destruct (targetFound l); discriminate.
    - destruct (outcome_of (cleanUntilLoop fuel targetMessageId
                              (mkLocals false 0 None) w)); tauto. }
  split.
  - intros World P responseCallback Hres. split; [|apply Hloop; exact Hres].
    intros amount w.
    pose proof (cleanMessages_body_facts amount w) as B. cbv zeta in B.
    destruct B as (Hr & B).
    cbv zeta. rewrite cleanMessages_guarded.
    destruct (guarded_delivers
                (bind (fetch (mkOptions amount None))
                      (fun fetchedMessages => partitionAndDelete fetchedMessages 0))
                Deleted "Error deleting messages:" responseCallback w Hres Hr)
      as [L|[_ R]]; auto.
    + discriminate.
    + destruct (outcome_of (bind (fetch (mkOptions amount None))
                  (fun fetchedMessages => partitionAndDelete fetchedMessages 0) w));
        tauto.
    + rewrite R in B. tauto.
  - intros responseCallback c targetMessageId fuel Hres Hwf Hfuel.
    destruct (Hloop Channel ChannelPlatform responseCallback Hres fuel
                targetMessageId c) as [[E _]|[_ E]]; [exact E|].
    exfalso. revert E. apply channel_loop_terminates; [exact Hwf|].
    cbn [lastMessageId fetchOptions truthy before candidates]. exact Hfuel.
Qed.

(** C6, an instance: on the reference channel with a delete that rejects. *)
Lemma result_always_delivered_witness :
  alwaysResolves (@quietCallback Channel)
  /\ wellFormed (live oneAgedFaulty) = true
  /\ (size (live oneAgedFaulty) < 2)%nat
  /\ outcome_of (cleanUntilMessage 2 "1000" quietCallback oneAgedFaulty) = Ok tt.
Proof.
  assert (Hq : alwaysResolves (@quietCallback Channel)) by (intros text w; reflexivity).
  split; [exact Hq|].
  split; [reflexivity|].
  split; [vm_compute; lia|].
  apply (proj2 result_always_delivered quietCallback oneAgedFaulty "1000" 2%nat Hq);
    [reflexivity | vm_compute; lia].
Defined.

(** C2, counterexample.  The history is finite and without the target; its
    only message is met on the first page, its delete rejects, and the loop
    ends with a count of zero although one message was met. *)
Lemma rejected_delete_lowers_count :
  has "1000" (live oneAgedFaulty) = false
  /\ outcome_of (cleanUntilLoop 2 "1000" (mkLocals false 0 None) oneAgedFaulty)
     = Ok (mkLocals false 0 (Some "1001"))
  /\ fetchedTotal
       (events_of (cleanUntilLoop 2 "1000" (mkLocals false 0 None) oneAgedFaulty))
     = 1%nat.
Proof. repeat split; vm_compute; reflexivity. Qed.

(** C2, as the code has it.  On the reference channel with a finite history
    that does not hold the target id, the loop ends within one turn more
    than the channel has messages.  If no fetch and no bulk delete rejected,
    it ends on a fetch that resolved with an empty page, with
    [targetFound = false], the callback gets the not-found text, and
    [deletedCount] is the number of messages on the fetched pages less the
    individual deletes that rejected; otherwise the callback gets the error
    text. *)
Theorem cleanUntilMessage_exhausts_history :
  forall (c : Channel) (targetMessageId : string) (fuel : nat)
         (responseCallback : Callback Channel),
    wellFormed (live c) = true ->
    has targetMessageId (live c) = false ->
    (size (live c) < fuel)%nat ->
    let r := cleanUntilLoop fuel targetMessageId (mkLocals false 0 None) c in
    let ev := events_of r in
    let said := responses (events_of (cleanUntilMessage fuel targetMessageId
                                        responseCallback c)) in
    match outcome_of r with
    | Ok l =>
        targetFound l = false
        /\ (deletedCount l + rejectedDeletes ev)%nat = fetchedTotal ev
        /\ (exists pre options, ev = pre ++ [EFetch options (Resolved [])])
        /\ fatalRejection ev = false
        /\ hd_error said = Some TargetNotFound
    | Throw _ => fatalRejection ev = true /\ hd_error said = Some ErrorText
    | OutOfFuel => False
    end.
Proof.
  intros c targetMessageId fuel responseCallback Hwf Habs Hfuel r ev said.
  pose proof (cleanUntilLoop_accounting targetMessageId fuel
                (mkLocals false 0 None) c) as B.
  cbv zeta in B. fold r in B. fold ev in B. destruct B as (Hresp & B).
  pose proof (channel_loop_absent targetMessageId fuel (mkLocals false 0 None) c Habs)
    as Hpages.
  fold r in Hpages. fold ev in Hpages.
  pose proof (channel_loop_terminates targetMessageId fuel (mkLocals false 0 None) c Hwf)
    as Hterm.
  cbn [lastMessageId fetchOptions truthy before candidates] in Hterm.
  specialize (Hterm Hfuel). fold r in Hterm.
  pose proof (cleanUntilLoop_ends_on_empty_page targetMessageId fuel
                (mkLocals false 0 None) c) as Hend.
  fold r in Hend. fold ev in Hend.
  pose proof (guarded_run
                (cleanUntilLoop fuel targetMessageId (mkLocals false 0 None))
                (fun l => if targetFound l then DeletedUpTo (deletedCount l)
                          else TargetNotFound)
                "Error cleaning messages:" responseCallback c) as R.
  cbv zeta in R. fold r in R. fold ev in R.
  change (try_catch _ _ c)
    with (cleanUntilMessage fuel targetMessageId responseCallback c) in R.
  destruct (outcome_of r) as [l|e|] eqn:Eo; [| |congruence].
  - destruct B as (Hd & Hfat & Hacc & Htf).
    specialize (Htf Hpages). cbn [targetFound] in Htf.
    specialize (Hacc Htf). cbn [deletedCount] in Hd.
    split; [exact Htf|]. split; [lia|].
    split; [apply (Hend l); [reflexivity | exact Htf]|].
    split; [exact Hfat|].
    subst said. rewrite Htf in R.
    destruct (responseCallback (render TargetNotFound) (world_of r)) as [[u|e] c1].
    + rewrite R. cbn [events_of]. rewrite responses_app, Hresp. reflexivity.
    + destruct (responseCallback (render ErrorText) c1) as [answer c2].
      rewrite R. cbn [events_of]. rewrite responses_app, Hresp. reflexivity.
  - split; [exact B|]. subst said.
    destruct (responseCallback (render ErrorText) (world_of r)) as [answer c1].
    rewrite R. cbn [events_of]. rewrite responses_app, Hresp. reflexivity.
Qed.

(** C2, an instance: five messages, two of them aged, and a target that is
    not in the channel. *)
Lemma cleanUntilMessage_exhausts_history_witness :
  wellFormed (live threeRecentTwoAged) = true
  /\ has "1000" (live threeRecentTwoAged) = false
  /\ (size (live threeRecentTwoAged) < 6)%nat
  /\ match outcome_of (cleanUntilLoop 6 "1000" (mkLocals false 0 None)
                         threeRecentTwoAged) with
     | Ok l => targetFound l = false /\ deletedCount l = 5%nat
     | _ => False
     end.
Proof.
  split; [reflexivity|]. split; [reflexivity|]. split; [vm_compute; lia|].
  pose proof (cleanUntilMessage_exhausts_history threeRecentTwoAged "1000" 6
                quietCallback eq_refl eq_refl) as W.
  cbv zeta in W.
  assert (Hlt : (size (live threeRecentTwoAged) < 6)%nat) by (vm_compute; lia).
  specialize (W Hlt).
  destruct (outcome_of (cleanUntilLoop 6 "1000" (mkLocals false 0 None)
                          threeRecentTwoAged)) as [l| |] eqn:Eo.
  - destruct W as (Htf & Hcount & _). split; [exact Htf|].
    vm_compute in Eo. inversion Eo. reflexivity.
  - vm_compute in Eo. discriminate Eo.
  - exact W.
Defined.

(** * Runs of the reference channel *)

(** Five messages within fourteen days, [cleanMessages 5]: one bulk delete
    with all five, no individual delete, a count of five. *)
Example five_recent_one_bulk :
  let ev := events_of (cleanMessages 5 quietCallback fiveRecent) in
  bulkCalls ev = [live fiveRecent] /\ deleteCalls ev = []
  /\ responses ev = [Deleted 5].
Proof. vm_compute. repeat split; reflexivity. Qed.

(** Three recent and two aged messages, [cleanMessages 5]: one bulk delete
    with the three recent ones, two individual deletes, a count of five. *)
Example three_recent_two_aged :
  let ev := events_of (cleanMessages 5 quietCallback threeRecentTwoAged) in
  map (map id) (bulkCalls ev) = [["1005"; "1004"; "1003"]]
  /\ map id (deleteCalls ev) = ["1002"; "1001"]
  /\ responses ev = [Deleted 5].
Proof. vm_compute. repeat split; reflexivity. Qed.

(** The target is the third-oldest of ten messages on the first page: the
    seven newer messages are deleted, the target is found, one fetch. *)
Example target_third_oldest :
  let r := cleanUntilMessage 2 "1003" quietCallback tenRecent in
  map id (deletedArgs (events_of r))
  = ["1010"; "1009"; "1008"; "1007"; "1006"; "1005"; "1004"]
  /\ responses (events_of r) = [DeletedUpTo 7]
  /\ List.length (fetchCalls (events_of r)) = 1%nat
  /\ map id (live (world_of r)) = ["1003"; "1002"; "1001"].
Proof. vm_compute. repeat split; reflexivity. Qed.

(** A message created exactly fourteen days before the clock's reading is
    deleted individually. *)
Example at_cutoff_deleted_individually :
  let ev := events_of (cleanMessages 2 quietCallback oneAtCutoff) in
  map (map id) (bulkCalls ev) = [["1002"]] /\ map id (deleteCalls ev) = ["1001"].
Proof. vm_compute. repeat split; reflexivity. Qed.

(** When the caller's callback rejects, the rejection of its second call
    leaves the operation. *)
Example rejecting_callback_escapes :
  outcome_of (cleanMessages 5 rejectingCallback fiveRecent)
  = Throw "DiscordAPIError: Unknown interaction".
Proof. vm_compute. reflexivity. Qed.

(** The checks do reject what they are meant to reject. *)
Example checks_reject :
  let m := mkMessage "1001" 5 in
  cursorDiscipline None None
    [EFetch (fetchOptions None) (Resolved [m]); EDelete m (Resolved tt);
     EAssignCursor "1001"] = false
  /\ partitioned None [ENow (fourteenDays + 5); EBulkDelete [m] true (Resolved [m])]
     = false
  /\ partitioned None [ENow (fourteenDays + 4); EDelete m (Resolved tt)] = false
  /\ respectsTarget "1001" [] [EFetch (fetchOptions None) (Resolved [m]);
                              EDelete m (Resolved tt)] = false.
Proof. vm_compute. repeat split; reflexivity. Qed.

(** What the passes owe, on the same three recent and two aged messages:
    the three to the bulk delete, the two to the individual deletes.  A list
    of events from which one individual delete is missing does not settle
    what it owes. *)
Example owed_and_settled :
  let ev := events_of (cleanMessages 5 quietCallback threeRecentTwoAged) in
  map id (dueInBulk wholePage [] ev) = ["1005"; "1004"; "1003"]
  /\ map id (dueOneByOne wholePage [] ev) = ["1002"; "1001"]
  /\ dueOneByOne wholePage [] ev = deleteCalls ev
  /\ let skipped := filter (fun e => match e with
                                     | EDelete m _ => negb (String.eqb (id m) "1001")
                                     | _ => true
                                     end) ev in
     map id (dueOneByOne wholePage [] skipped) = ["1002"; "1001"]
     /\ map id (deleteCalls skipped) = ["1002"].
Proof. vm_compute. repeat split; reflexivity. Qed.

(** * Further properties of the engine *)

Lemma pauses_app ms :
  forall a b, pauses ms (a ++ b) = (pauses ms a + pauses ms b)%nat.
Proof.
  intros a; induction a as [|e a IH]; intros b; simpl; [reflexivity|].
  destruct e; simpl; rewrite ?IH; try reflexivity. lia.
Qed.

Lemma resolvedDeletes_app :
  forall a b, resolvedDeletes (a ++ b) = (resolvedDeletes a + resolvedDeletes b)%nat.
Proof. app_reader. Qed.

Lemma fromLastPage_app :
  forall a b page,
    fetchedPages a = [] ->
    fromLastPage page (a ++ b) = fromLastPage page a && fromLastPage page b.
Proof.
  intros a; induction a as [|e a IH]; intros b page Hq; simpl; [reflexivity|].
  destruct e; simpl in *; try (rewrite ?IH, ?andb_assoc by exact Hq; reflexivity).
  destruct answer; [discriminate|]. apply IH, Hq.
Qed.

Lemma reports_read_more tail :
  forallb isReport tail = true ->
  (forall ms, pauses ms tail = 0%nat)
  /\ resolvedDeletes tail = 0%nat
  /\ paced tail = true
  /\ pagePaced tail = true
  /\ (forall page, fromLastPage page tail = true)
  /\ (forall target, stopsAtTarget target tail = true)
  /\ match tail with
     | [] => True
     | e :: _ => isReport e = true
     end.
Proof.
  induction tail as [|e tail IH]; simpl; intros E.
  - repeat split; reflexivity.
  - apply andb_prop in E as [Ee E]. specialize (IH E).
    destruct IH as (I1 & I2 & I3 & I4 & I5 & I6 & _).
    destruct e; try discriminate; simpl; repeat split; auto.
Qed.

Lemma sameMessage_refl m : sameMessage m m = true.
Proof. unfold sameMessage. rewrite String.eqb_refl, Z.eqb_refl. reflexivity. Qed.

Lemma isOn_In page m : In m page -> isOn page m = true.
Proof.
  intros Hin. unfold isOn. apply existsb_exists. exists m.
  split; [exact Hin | apply sameMessage_refl].
Qed.

Lemma isOn_incl (small page : Collection) :
  incl small page -> forallb (isOn page) small = true.
Proof.
  intros Hi. apply forallb_forall. intros m Hm. apply isOn_In, Hi, Hm.
Qed.

Section PacingFacts.

Context {World : Type} `{Platform World}.

(** The loop over the old messages, read for pauses and pages. *)
Lemma deleteOld_pacing olds n w :
  let ev := events_of (deleteOld olds n w) in
  pauses 100 ev = resolvedDeletes ev
  /\ pauses 1000 ev = 0%nat
  /\ (forall b, paced (ev ++ b) = paced b)
  /\ (forall b, pagePaced (ev ++ b) = pagePaced b)
  /\ (forall page, fromLastPage page ev = forallb (isOn page) olds).
Proof.
  pattern olds, n, w, (deleteOld olds n w). apply deleteOld_cases; clear.
  - intros n w. simpl. repeat split; reflexivity.
  - intros msg rest n w w1 _ (H1 & H2 & H3 & H4 & H5). simpl in *.
    rewrite H1, H2. repeat split; auto.
    intros page. rewrite H5. reflexivity.
  - intros msg rest n w e w1 _ (H1 & H2 & H3 & H4 & H5). simpl in *.
    rewrite H1, H2. repeat split; auto.
    + intros b. rewrite String.eqb_refl. apply H3.
    + intros page. rewrite H5. reflexivity.
Qed.

Lemma partitionAndDelete_pacing ms n w :
  let ev := events_of (partitionAndDelete ms n w) in
  pauses 100 ev = resolvedDeletes ev
  /\ pauses 1000 ev = 0%nat
  /\ (forall b, paced (ev ++ b) = paced b)
  /\ (forall b, pagePaced (ev ++ b) = pagePaced b)
  /\ (forall page, forallb (isOn page) ms = true -> fromLastPage page ev = true).
Proof.
  cbv zeta. rewrite partitionAndDelete_unfold. cbv zeta.
  destruct (0 <? size _)%nat.
  - destruct (bulkDelete _ true w) as [[reported|e] w1]; simpl.
    + destruct (deleteOld_pacing
                  (filter (isOld (Date_now w - fourteenDays)) ms)
                  (n + size (filter (isRecent (Date_now w - fourteenDays)) ms)) w1)
        as (H1 & H2 & H3 & H4 & H5).
      repeat split; auto.
      intros page Hall. rewrite H5, !forallb_filter_weaken by exact Hall. reflexivity.
    + repeat split; auto.
      intros page Hall. rewrite forallb_filter_weaken by exact Hall. reflexivity.
  - simpl.
    destruct (deleteOld_pacing (filter (isOld (Date_now w - fourteenDays)) ms) n w)
      as (H1 & H2 & H3 & H4 & H5).
    repeat split; auto.
    intros page Hall. rewrite H5. apply forallb_filter_weaken, Hall.
Qed.

End PacingFacts.

Section LoopPacing.

Context {World : Type} `{Platform World}.

Variable targetMessageId : string.

(** A loop that is entered with [targetFound = false] begins with a fetch,
    unless it has no fuel. *)
Lemma cleanUntilLoop_head fuel l w :
  targetFound l = false ->
  match fuel with
  | O => events_of (cleanUntilLoop fuel targetMessageId l w) = []
  | S _ => exists answer rest,
             events_of (cleanUntilLoop fuel targetMessageId l w)
             = EFetch (fetchOptions (lastMessageId l)) answer :: rest
  end.
Proof.
  pattern fuel, l, w, (cleanUntilLoop fuel targetMessageId l w).
  apply cleanUntilLoop_cases; clear; intros; cbn [events_of]; eauto; congruence.
Qed.

Lemma cleanUntilLoop_pauses fuel l w :
  let ev := events_of (cleanUntilLoop fuel targetMessageId l w) in
  pauses 100 ev = resolvedDeletes ev
  /\ (forall b, paced (ev ++ b) = paced b)
  /\ forallb (fun o => (limit o =? 100)%Z) (fetchCalls ev) = true
  /\ (forall page0, fromLastPage page0 ev = true)
  /\ stopsAtTarget targetMessageId ev = true.
Proof.
  cbv zeta.
  pattern fuel, l, w, (cleanUntilLoop fuel targetMessageId l w).
  apply cleanUntilLoop_cases; clear.
  - intros; simpl; auto.
  - intros; simpl; auto.
  - intros; simpl; auto.
  - intros; simpl; auto.
  - intros fuel l w page w1 oldest target Ef Hlast Hin Ehas Hget Enz.
    simpl. rewrite Ehas. auto.
  - intros fuel l w page w1 oldest target Ef Hlast Hin Ehas Hget Enz r.
    destruct (partitionAndDelete_pacing
                (filter (newerThan targetMessageId target) page) (deletedCount l) w1)
      as (H1 & H2 & H3 & H4 & H5).
    pose proof (partitionAndDelete_facts
                  (filter (newerThan targetMessageId target) page)
                  (deletedCount l) w1) as F.
    cbv zeta in F. destruct F as (_ & Hf & _).
    fold r in H1, H2, H3, H4, H5, Hf.
    cbn [events_of pauses resolvedDeletes paced app fetchCalls forallb limit
         fetchOptions fromLastPage stopsAtTarget].
    rewrite Ehas, Hf, H1. repeat split; auto.
    intros page0. apply H5, isOn_incl. intros m Hm. apply filter_In in Hm. tauto.
  - intros fuel l w page w1 oldest e Ef Hlast Hin Ehas r Eo.
    destruct (partitionAndDelete_pacing page (deletedCount l) w1)
      as (H1 & H2 & H3 & H4 & H5).
    pose proof (partitionAndDelete_facts page (deletedCount l) w1) as F.
    cbv zeta in F. destruct F as (_ & Hf & _).
    fold r in H1, H2, H3, H4, H5, Hf.
    cbn [events_of pauses resolvedDeletes paced app fetchCalls forallb limit
         fetchOptions fromLastPage stopsAtTarget].
    rewrite Ehas, Hf, H1. repeat split; auto.
    + intros page0. apply H5, isOn_incl, incl_refl.
    + clear - Hf. revert Hf. generalize (events_of r). intros tr.
      induction tr as [|x tr IH]; simpl; [reflexivity|].
      destruct x; simpl; auto; discriminate.
  - intros fuel l w page w1 oldest n Ef Hlast Hin Ehas r Eo l' r'
           (I1 & I2 & I3 & I4 & I5).
    destruct (partitionAndDelete_pacing page (deletedCount l) w1)
      as (H1 & H2 & H3 & H4 & H5).
    pose proof (partitionAndDelete_facts page (deletedCount l) w1) as F.
    cbv zeta in F. destruct F as (_ & Hf & Hp & _).
    fold r in H1, H2, H3, H4, H5, Hf, Hp.
    cbn [events_of pauses resolvedDeletes paced app fetchCalls forallb limit
         fetchOptions fromLastPage stopsAtTarget].
    rewrite Ehas, pauses_app, resolvedDeletes_app, fetchCalls_app, Hf, H1.
    cbn [pauses resolvedDeletes fetchCalls app]. rewrite I1, I3.
    repeat split; auto.
    + intros b. rewrite <- app_assoc, H3. cbn [app paced]. apply I2.
    + intros page0. rewrite fromLastPage_app by exact Hp.
      rewrite H5 by (apply isOn_incl, incl_refl).
      cbn [fromLastPage andb]. apply I4.
    + clear - Hf Hp I5. revert Hf Hp. generalize (events_of r). intros tr.
      induction tr as [|x tr IH]; simpl; intros Hf Hp; [exact I5|].
      destruct x; simpl in *; auto; try discriminate.
Qed.

(** Pauses of 1000 ms and fetches alternate. *)
Lemma cleanUntilLoop_pages fuel l w :
  targetFound l = false ->
  let r := cleanUntilLoop fuel targetMessageId l w in
  (forall b, (outcome_of r = OutOfFuel -> b = []) ->
             match b with
             | EFetch _ _ :: _ | ESleep _ :: _ => False
             | _ => True
             end ->
             pagePaced (events_of r ++ b) = pagePaced b)
  /\ match outcome_of r with
     | OutOfFuel => List.length (fetchCalls (events_of r)) = pauses 1000 (events_of r)
     | _ => List.length (fetchCalls (events_of r)) = S (pauses 1000 (events_of r))
     end.
Proof.
  cbv zeta.
  pattern fuel, l, w, (cleanUntilLoop fuel targetMessageId l w).
  apply cleanUntilLoop_cases; clear.
  - intros; simpl; auto.
  - intros; congruence.
  - intros; simpl; auto.
  - intros; simpl; auto.
  - intros; simpl; auto.
  - intros fuel l w page w1 oldest target Ef Hlast Hin Ehas Hget Enz r Etf.
    destruct (partitionAndDelete_pacing
                (filter (newerThan targetMessageId target) page) (deletedCount l) w1)
      as (H1 & H2 & H3 & H4 & H5).
    pose proof (partitionAndDelete_facts
                  (filter (newerThan targetMessageId target) page)
                  (deletedCount l) w1) as F.
    cbv zeta in F. destruct F as (_ & Hf & _ & _ & _ & F).
    fold r in H1, H2, H3, H4, H5, Hf, F.
    cbn [events_of outcome_of pauses fetchCalls app pagePaced].
    rewrite Hf, H2. split.
    + intros b _ _. apply H4.
    + destruct (outcome_of r); [reflexivity | reflexivity | tauto].
  - intros fuel l w page w1 oldest e Ef Hlast Hin Ehas r Eo Etf.
    destruct (partitionAndDelete_pacing page (deletedCount l) w1)
      as (H1 & H2 & H3 & H4 & H5).
    pose proof (partitionAndDelete_facts page (deletedCount l) w1) as F.
    cbv zeta in F. destruct F as (_ & Hf & _).
    fold r in H1, H2, H3, H4, H5, Hf.
    cbn [events_of outcome_of pauses fetchCalls app pagePaced].
    rewrite Hf, H2. split; [|reflexivity].
    intros b _ _. apply H4.
  - intros fuel l w page w1 oldest n Ef Hlast Hin Ehas r Eo l' r' IH Etf.
    assert (Etf' : targetFound l' = false) by exact Etf.
    specialize (IH Etf'). destruct IH as (I1 & I2).
    destruct (partitionAndDelete_pacing page (deletedCount l) w1)
      as (H1 & H2 & H3 & H4 & H5).
    pose proof (partitionAndDelete_facts page (deletedCount l) w1) as F.
    cbv zeta in F. destruct F as (_ & Hf & _).
    fold r in H1, H2, H3, H4, H5, Hf.
    pose proof (cleanUntilLoop_head fuel l' (setTimeout 1000 (world_of r)) Etf')
      as Hhead.
    fold r' in Hhead.
    cbn [events_of outcome_of pauses fetchCalls app pagePaced].
    rewrite pauses_app, fetchCalls_app, Hf, H2.
    cbn [pauses fetchCalls app]. rewrite Z.eqb_refl. cbn [Nat.add]. split.
    + intros b Hb Hshape. rewrite <- app_assoc, H4. cbn [app pagePaced].
      rewrite Z.eqb_refl, (I1 b Hb Hshape).
      destruct fuel as [|fuel].
      * rewrite Hhead. cbn [app]. rewrite (Hb eq_refl). reflexivity.
      * destruct Hhead as (answer & rest & ->). cbn [app].
        destruct b as [|[] b]; simpl in *; try reflexivity; tauto.
    + destruct (outcome_of r'); cbn [List.length]; rewrite I2; reflexivity.
Qed.

(** [targetFound] is set exactly when a fetched page held the target. *)
Lemma cleanUntilLoop_found fuel l w :
  targetFound l = false ->
  match outcome_of (cleanUntilLoop fuel targetMessageId l w) with
  | Ok l' =>
      targetFound l'
      = existsb (has targetMessageId)
          (fetchedPages (events_of (cleanUntilLoop fuel targetMessageId l w)))
  | _ => True
  end.
Proof.
  pattern fuel, l, w, (cleanUntilLoop fuel targetMessageId l w).
  apply cleanUntilLoop_cases; clear.
  - intros; exact I.
  - intros; congruence.
  - intros; exact I.
  - intros fuel l w w1 Ef Etf. simpl. exact Etf.
  - intros fuel l w page w1 oldest target Ef Hlast Hin Ehas Hget Enz Etf.
    simpl. rewrite Ehas. reflexivity.
  - intros fuel l w page w1 oldest target Ef Hlast Hin Ehas Hget Enz r Etf.
    cbn [outcome_of events_of fetchedPages existsb].
    destruct (outcome_of r); auto. rewrite Ehas. reflexivity.
  - intros; exact I.
  - intros fuel l w page w1 oldest n Ef Hlast Hin Ehas r Eo l' r' IH Etf.
    specialize (IH Etf).
    pose proof (partitionAndDelete_facts page (deletedCount l) w1) as F.
    cbv zeta in F. destruct F as (_ & _ & Hp & _). fold r in Hp.
    cbn [outcome_of events_of fetchedPages existsb].
    rewrite fetchedPages_app, Hp, Ehas. cbn [fetchedPages app orb]. exact IH.
Qed.

End LoopPacing.

Lemma guarded_events_fuel {World A : Type} (body : M World A) (f : A -> Response)
    text (responseCallback : Callback World) w :
  let r := try_catch
             (bind body (fun x => await (responseCallback (render (f x)))
                                        (ERespond (f x))))
             (fun e => bind (fun w0 => mkRun (Ok tt) w0 [EConsoleError text e])
                            (fun _ => await (responseCallback (render ErrorText))
                                            (ERespond ErrorText))) w in
  exists tail,
    events_of r = events_of (body w) ++ tail
    /\ forallb isReport tail = true
    /\ (outcome_of (body w) = OutOfFuel -> tail = [])
    /\ (outcome_of r = OutOfFuel <-> outcome_of (body w) = OutOfFuel).
Proof.
  pose proof (guarded_run body f text responseCallback w) as R. cbv zeta in *.
  destruct (outcome_of (body w)) as [a|e|].
  - destruct (responseCallback (render (f a)) (world_of (body w))) as [[u|e] w1].
    + rewrite R. eexists. cbn [events_of outcome_of].
      repeat split; try reflexivity; discriminate.
    + destruct (responseCallback (render ErrorText) w1) as [[u|e'] w2];
        rewrite R; eexists; cbn [events_of outcome_of];
        repeat split; try reflexivity; discriminate.
  - destruct (responseCallback (render ErrorText) (world_of (body w)))
      as [[u|e'] w1];
      rewrite R; eexists; cbn [events_of outcome_of];
      repeat split; try reflexivity; discriminate.
  - rewrite R. exists []. rewrite app_nil_r. cbn [events_of outcome_of].
    repeat split; reflexivity.
Qed.

(** X1.  Neither operation ever passes to a delete call, bulk or individual,
    a message that was not on the page it fetched last. *)
Theorem deletes_only_from_last_page :
  forall (World : Type) (P : Platform World),
    (forall amount responseCallback w,
        fromLastPage [] (events_of (cleanMessages amount responseCallback w)) = true)
    /\ (forall fuel targetMessageId responseCallback w,
           fromLastPage []
             (events_of (cleanUntilMessage fuel targetMessageId responseCallback w))
           = true).
Proof.
  intros World P. split.
  - intros amount responseCallback w.
    destruct (cleanMessages_events responseCallback amount w) as (tail & -> & Htail).
    apply reports_read_more in Htail. destruct Htail as (_ & _ & _ & _ & Hl & _).
    rewrite cleanMessages_body.
    destruct (messages_fetch (mkOptions amount None) w) as [[page|e] w1];
      cbn [events_of app fromLastPage]; [|apply Hl].
    pose proof (partitionAndDelete_facts page 0 w1) as F. cbv zeta in F.
    destruct F as (_ & _ & Hp & _).
    rewrite fromLastPage_app by exact Hp. rewrite Hl, andb_true_r.
    apply partitionAndDelete_pacing, isOn_incl, incl_refl.
  - intros fuel targetMessageId responseCallback w.
    destruct (cleanUntilMessage_events responseCallback fuel targetMessageId w)
      as (tail & -> & Htail).
    apply reports_read_more in Htail. destruct Htail as (_ & _ & _ & _ & Hl & _).
    destruct (cleanUntilLoop_pauses targetMessageId fuel (mkLocals false 0 None) w)
      as (_ & _ & _ & Hfrom & _).
    revert Hfrom.
    generalize (events_of (cleanUntilLoop fuel targetMessageId
                             (mkLocals false 0 None) w)).
    intros tr Hfrom. specialize (Hfrom []). revert Hfrom. generalize (@nil Message).
    induction tr as [|e tr IH]; intros page Htr; simpl in *; [apply Hl|].
    destruct e; simpl in *; eauto.
    + destruct answer; eauto.
    + apply andb_prop in Htr as [-> Htr]. simpl. eauto.
    + apply andb_prop in Htr as [-> Htr]. simpl. eauto.
Qed.

(** X2.  In both operations an individual delete that resolved is directly
    followed by a pause of 100 ms and one that rejected by the log of its
    error and no pause, so the pauses of 100 ms are as many as the individual
    deletes that resolved; [cleanMessages] never takes the pause of 1000 ms. *)
Theorem individual_deletes_paced :
  forall (World : Type) (P : Platform World),
    (forall amount responseCallback w,
        let ev := events_of (cleanMessages amount responseCallback w) in
        paced ev = true
        /\ pauses 100 ev = resolvedDeletes ev
        /\ pauses 1000 ev = 0%nat)
    /\ (forall fuel targetMessageId responseCallback w,
           let ev := events_of (cleanUntilMessage fuel targetMessageId
                                  responseCallback w) in
           paced ev = true /\ pauses 100 ev = resolvedDeletes ev).
Proof.
  intros World P. split.
  - intros amount responseCallback w ev. subst ev.
    destruct (cleanMessages_events responseCallback amount w) as (tail & -> & Htail).
    apply reports_read_more in Htail.
    destruct Htail as (Hz & Hr & Hp & _).
    rewrite !pauses_app, resolvedDeletes_app, !Hz, Hr, !Nat.add_0_r.
    rewrite cleanMessages_body.
    destruct (messages_fetch (mkOptions amount None) w) as [[page|e] w1];
      cbn [events_of app paced pauses resolvedDeletes]; [|auto].
    destruct (partitionAndDelete_pacing page 0 w1) as (H1 & H2 & H3 & _).
    rewrite H3. auto.
  - intros fuel targetMessageId responseCallback w ev. subst ev.
    destruct (cleanUntilMessage_events responseCallback fuel targetMessageId w)
      as (tail & -> & Htail).
    apply reports_read_more in Htail.
    destruct Htail as (Hz & Hr & Hp & _).
    destruct (cleanUntilLoop_pauses targetMessageId fuel (mkLocals false 0 None) w)
      as (H1 & H2 & _).
    rewrite pauses_app, resolvedDeletes_app, Hz, Hr, !Nat.add_0_r, H2. auto.
Qed.

(** X3.  Every fetch of [cleanUntilMessage] asks for 100 messages; a pause
    of 1000 ms is taken between two fetches and nowhere else, so an
    operation that ended made one fetch more than it took such pauses. *)
Theorem pages_of_hundred_with_pauses :
  forall (World : Type) (P : Platform World) (fuel : nat)
         (targetMessageId : string) (responseCallback : Callback World) (w : World),
    let r := cleanUntilMessage fuel targetMessageId responseCallback w in
    let ev := events_of r in
    forallb (fun o => (limit o =? 100)%Z) (fetchCalls ev) = true
    /\ pagePaced ev = true
    /\ match outcome_of r with
       | OutOfFuel => List.length (fetchCalls ev) = pauses 1000 ev
       | _ => List.length (fetchCalls ev) = S (pauses 1000 ev)
       end.
Proof.
  intros World P fuel targetMessageId responseCallback w r ev. subst ev r.
  unfold cleanUntilMessage.
  destruct (guarded_events_fuel
              (cleanUntilLoop fuel targetMessageId (mkLocals false 0 None))
              (fun l => if targetFound l then DeletedUpTo (deletedCount l)
                        else TargetNotFound)
              "Error cleaning messages:" responseCallback w)
    as (tail & Hev & Htail & Hnil & Hfuel).
  cbv zeta in Hfuel.
  change (try_catch _ _ w)
    with (cleanUntilMessage fuel targetMessageId responseCallback w) in *.
  rewrite Hev.
  pose proof (reports_read _ Htail) as (_ & _ & _ & Hfc & _).
  pose proof (reports_read_more _ Htail) as (Hz & _ & _ & Hpp & _ & _ & Hhd).
  destruct (cleanUntilLoop_pauses targetMessageId fuel (mkLocals false 0 None) w)
    as (_ & _ & Hlim & _).
  destruct (cleanUntilLoop_pages targetMessageId fuel (mkLocals false 0 None) w
              eq_refl) as (Hpaced & Hcount).
  rewrite fetchCalls_app, pauses_app, Hfc, Hz, app_nil_r, Nat.add_0_r.
  split; [exact Hlim|]. split.
  - rewrite Hpaced; [exact Hpp | exact Hnil |].
    destruct tail as [|[] tail]; simpl in *; auto; discriminate.
  - destruct (outcome_of (cleanUntilMessage fuel targetMessageId responseCallback w))
      eqn:Eo.
    + destruct (outcome_of (cleanUntilLoop fuel targetMessageId
                              (mkLocals false 0 None) w)); auto.
      destruct Hfuel as [_ Hf]. specialize (Hf eq_refl). discriminate.
    + destruct (outcome_of (cleanUntilLoop fuel targetMessageId
                              (mkLocals false 0 None) w)); auto.
      destruct Hfuel as [_ Hf]. specialize (Hf eq_refl). discriminate.
    + destruct Hfuel as [Hf _]. rewrite (Hf eq_refl) in Hcount. exact Hcount.
Qed.

(** X4.  [cleanUntilMessage] fetches nothing more after a page that holds
    the target, and it hands over the found text exactly when a fetched page
    held the target and the not-found text only when none did. *)
Theorem stops_at_first_page_with_target :
  forall (World : Type) (P : Platform World) (fuel : nat)
         (targetMessageId : string) (responseCallback : Callback World) (w : World),
    let ev := events_of (cleanUntilMessage fuel targetMessageId responseCallback w) in
    stopsAtTarget targetMessageId ev = true
    /\ Forall (fun r => match r with
                        | DeletedUpTo _ =>
                            existsb (has targetMessageId) (fetchedPages ev) = true
                        | TargetNotFound =>
                            existsb (has targetMessageId) (fetchedPages ev) = false
                        | _ => True
                        end) (responses ev).
Proof.
  intros World P fuel targetMessageId responseCallback w ev. subst ev.
  destruct (cleanUntilMessage_events responseCallback fuel targetMessageId w)
    as (tail & Hev & Htail).
  pose proof (reports_read _ Htail) as (_ & _ & _ & Hfc & Hfp & _).
  pose proof (reports_read_more _ Htail) as (_ & _ & _ & _ & _ & Hst & _).
  destruct (cleanUntilLoop_pauses targetMessageId fuel (mkLocals false 0 None) w)
    as (_ & _ & _ & _ & Hstop).
  pose proof (cleanUntilLoop_found targetMessageId fuel (mkLocals false 0 None) w
                eq_refl) as Hfound.
  pose proof (cleanUntilLoop_accounting targetMessageId fuel
                (mkLocals false 0 None) w) as B.
  cbv zeta in B. destruct B as (Hresp & _).
  split.
  - rewrite Hev. revert Hstop.
    generalize (events_of (cleanUntilLoop fuel targetMessageId
                             (mkLocals false 0 None) w)).
    intros tr. induction tr as [|e tr IH]; simpl; intros Hs; [apply Hst|].
    destruct e; simpl in *; auto.
    destruct answer; auto.
    destruct (has targetMessageId a); auto.
    rewrite fetchCalls_app, Hfc, app_nil_r. exact Hs.
  - assert (Hpages :
      fetchedPages
        (events_of (cleanUntilMessage fuel targetMessageId responseCallback w))
      = fetchedPages
          (events_of (cleanUntilLoop fuel targetMessageId (mkLocals false 0 None) w)))
      by (rewrite Hev, fetchedPages_app, Hfp, app_nil_r; reflexivity).
    rewrite Hpages. unfold cleanUntilMessage.
    destruct (guarded_responses
                (cleanUntilLoop fuel targetMessageId (mkLocals false 0 None))
                (fun l => if targetFound l then DeletedUpTo (deletedCount l)
                          else TargetNotFound)
                "Error cleaning messages:" responseCallback w) as [F|F];
      [|congruence].
    eapply Forall_impl; [|exact F]. cbv beta.
    intros r [->|(l & El & ->)]; [exact I|].
    rewrite El in Hfound. rewrite <- Hfound.
    destruct (targetFound l); reflexivity.
Qed.

(** * The operations on a reference channel without faults *)

Lemma keeps_cons msg rest m :
  keeps [msg] m && keeps rest m = keeps (msg :: rest) m.
Proof.
  unfold keeps, has. simpl. rewrite orb_false_r.
  destruct (String.eqb (id msg) (id m)); reflexivity.
Qed.

Lemma has_filter_split key p (ms : Collection) :
  has key ms = has key (filter p ms) || has key (filter (fun m => negb (p m)) ms).
Proof.
  unfold has. induction ms as [|a ms IH]; simpl; [reflexivity|].
  destruct (p a); simpl; rewrite IH;
    destruct (String.eqb (id a) key); simpl; rewrite ?orb_true_r; reflexivity.
Qed.

Lemma keeps_split c (ms : Collection) m :
  keeps (filter (isRecent c) ms) m && keeps (filter (isOld c) ms) m = keeps ms m.
Proof.
  unfold keeps. rewrite (has_filter_split (id m) (isRecent c) ms).
  rewrite negb_orb. do 2 f_equal. f_equal.
  apply filter_ext. intros a. rewrite isRecent_isOld. symmetry. apply negb_involutive.
Qed.

Lemma filter_keeps_firstn k (l : Collection) :
  distinctIds l -> filter (keeps (firstn k l)) l = skipn k l.
Proof.
  unfold distinctIds. revert k. induction l as [|a l IH]; intros k Hd.
  - destruct k; reflexivity.
  - destruct k as [|k].
    + simpl. unfold keeps at 1. simpl.
      f_equal. rewrite <- (filter_all l) at 2. apply filter_ext. reflexivity.
    + simpl in *. inversion Hd as [|x xs Hnotin Hd']; subst.
      unfold keeps at 1. simpl. rewrite String.eqb_refl. simpl.
      rewrite <- (IH k Hd'). apply filter_ext_in. intros m Hm.
      unfold keeps. simpl.
      destruct (String.eqb (id a) (id m)) eqn:E; [|reflexivity].
      apply String.eqb_eq in E. exfalso. apply Hnotin. rewrite E.
      apply in_map, Hm.
Qed.

Lemma newestFirst_distinct ms : newestFirst ms -> distinctIds ms.
Proof.
  unfold newestFirst, distinctIds. induction ms as [|a ms IH]; simpl; intros S;
    [constructor|].
  apply StronglySorted_inv in S as [S Ha]. constructor; [|auto].
  intros Hin. apply in_map_iff in Hin as (b & Hid & Hb).
  rewrite Forall_forall in Ha. destruct (Ha b Hb) as [Hlt _].
  rewrite Hid in Hlt. lia.
Qed.

Lemma nextFault_none c : faults c = [] -> nextFault c = (false, c).
Proof. unfold nextFault. intros ->. reflexivity. Qed.

Lemma reference_fetch_faultless options c :
  faults c = [] -> (1 <= limit options <= 100)%Z ->
  reference_fetch options c
  = (Resolved (firstn (Z.to_nat (limit options))
                      (candidates (before options) (live c))), c).
Proof.
  intros Hf Hl. unfold reference_fetch. rewrite (nextFault_none c Hf).
  replace ((limit options <? 1)%Z || (100 <? limit options)%Z) with false;
    [reflexivity|].
  symmetry. apply orb_false_intro; apply Z.ltb_ge; lia.
Qed.

Lemma deleteOld_faultless olds :
  forall n (c : Channel),
    faults c = [] ->
    outcome_of (deleteOld olds n c) = Ok (n + size olds)%nat
    /\ live (world_of (deleteOld olds n c)) = filter (keeps olds) (live c)
    /\ faults (world_of (deleteOld olds n c)) = [].
Proof.
  induction olds as [|msg rest IH]; intros n c Hf.
  - simpl. rewrite Nat.add_0_r. repeat split; auto.
    symmetry. rewrite <- (filter_all (live c)) at 2. apply filter_ext. reflexivity.
  - assert (E : msg_delete msg c
                = (Resolved tt,
                   mkChannel (filter (keeps [msg]) (live c)) (clock c) (faults c))).
    { simpl. unfold reference_delete. rewrite (nextFault_none c Hf). reflexivity. }
    rewrite (deleteOld_resolved _ _ _ _ _ E). cbn [outcome_of world_of].
    destruct (IH (S n)
                (setTimeout 100
                   (mkChannel (filter (keeps [msg]) (live c)) (clock c) (faults c))))
      as (Ho & Hl & Hfa); [exact Hf|].
    rewrite Ho, Hl, Hfa. cbn [setTimeout ChannelPlatform live].
    rewrite filter_filter. unfold size. simpl.
    split; [f_equal; lia|]. split; [|reflexivity].
    apply filter_ext. intros m. apply keeps_cons.
Qed.

Lemma partitionAndDelete_faultless ms n (c : Channel) :
  faults c = [] ->
  outcome_of (partitionAndDelete ms n c) = Ok (n + size ms)%nat
  /\ live (world_of (partitionAndDelete ms n c)) = filter (keeps ms) (live c)
  /\ faults (world_of (partitionAndDelete ms n c)) = [].
Proof.
  intros Hf. rewrite partitionAndDelete_unfold. cbv zeta.
  pose proof (split_size (Date_now c - fourteenDays) ms) as Hsplit.
  set (twoWeeksAgo := (Date_now c - fourteenDays)%Z) in *.
  destruct (0 <? size (filter (isRecent twoWeeksAgo) ms))%nat eqn:Hsz.
  - assert (E : bulkDelete (filter (isRecent twoWeeksAgo) ms) true c
                = (Resolved (filter (fun m => isRecent twoWeeksAgo m
                                               && has (id m) (live c))
                                    (filter (isRecent twoWeeksAgo) ms)),
                   mkChannel
                     (filter (keeps (filter (fun m => isRecent twoWeeksAgo m
                                                      && has (id m) (live c))
                                            (filter (isRecent twoWeeksAgo) ms)))
                             (live c))
                     (clock c) (faults c))).
    { simpl. unfold reference_bulkDelete. rewrite (nextFault_none c Hf).
      reflexivity. }
    rewrite E. cbn [outcome_of world_of].
    destruct (deleteOld_faultless (filter (isOld twoWeeksAgo) ms)
                (n + size (filter (isRecent twoWeeksAgo) ms))
                (mkChannel
                   (filter (keeps (filter (fun m => isRecent twoWeeksAgo m
                                                    && has (id m) (live c))
                                          (filter (isRecent twoWeeksAgo) ms)))
                           (live c))
                   (clock c) (faults c)) Hf) as (Ho & Hl & Hfa).
    rewrite Ho, Hl, Hfa. cbn [live]. rewrite filter_filter.
    split; [f_equal; lia|]. split; [|reflexivity].
    apply filter_ext_in. intros m Hm. rewrite <- (keeps_split twoWeeksAgo ms m).
    f_equal. unfold keeps. f_equal.
    unfold has. clear - Hm.
    induction ms as [|a ms IH]; simpl; [reflexivity|].
    destruct (isRecent twoWeeksAgo a) eqn:Ea; simpl; [|exact IH].
    rewrite Ea. simpl.
    destruct (existsb (fun m0 => String.eqb (id m0) (id a)) (live c)) eqn:Ex; simpl.
    + rewrite IH. reflexivity.
    + rewrite IH. destruct (String.eqb (id a) (id m)) eqn:Eam; [|reflexivity].
      exfalso. apply String.eqb_eq in Eam.
      assert (existsb (fun m0 => String.eqb (id m0) (id a)) (live c) = true);
        [|congruence].
      apply existsb_exists. exists m. split; [exact Hm|].
      apply String.eqb_eq. congruence.
  - apply Nat.ltb_ge in Hsz.
    assert (Hnil : filter (isRecent twoWeeksAgo) ms = []).
    { destruct (filter (isRecent twoWeeksAgo) ms); [reflexivity|].
      unfold size in Hsz. simpl in Hsz. lia. }
    cbn [outcome_of world_of].
    destruct (deleteOld_faultless (filter (isOld twoWeeksAgo) ms) n c Hf)
      as (Ho & Hl & Hfa).
    rewrite Ho, Hl, Hfa. rewrite Hnil in Hsplit. unfold size in *. simpl in Hsplit.
    split; [f_equal; lia|]. split; [|reflexivity].
    apply filter_ext. intros m. rewrite <- (keeps_split twoWeeksAgo ms m), Hnil.
    reflexivity.
Qed.

(** [cleanMessages] on a channel whose calls all succeed. *)
Lemma cleanMessages_faultless :
  forall (c : Channel) (amount : Z) (responseCallback : Callback Channel),
    faults c = [] ->
    distinctIds (live c) ->
    (1 <= amount <= 100)%Z ->
    leavesHistory responseCallback ->
    let r := cleanMessages amount responseCallback c in
    outcome_of r = Ok tt
    /\ live (world_of r) = skipn (Z.to_nat amount) (live c)
    /\ responses (events_of r)
       = [Deleted (Nat.min (Z.to_nat amount) (size (live c)))]
    /\ anyRejection (events_of r) = false.
Proof.
  intros c amount responseCallback Hf Hd Hrange Hcb r. subst r.
  rewrite cleanMessages_guarded.
  pose proof (guarded_run
                (bind (fetch (mkOptions amount None))
                      (fun fetchedMessages => partitionAndDelete fetchedMessages 0))
                Deleted "Error deleting messages:" responseCallback c) as R.
  cbv zeta in R. rewrite cleanMessages_body in R.
  assert (Ef : messages_fetch (mkOptions amount None) c
               = (Resolved (firstn (Z.to_nat amount) (live c)), c))
    by (apply reference_fetch_faultless; [exact Hf | exact Hrange]).
  rewrite Ef in R. cbn [outcome_of world_of events_of] in R.
  destruct (partitionAndDelete_faultless (firstn (Z.to_nat amount) (live c)) 0 c Hf)
    as (Ho & Hl & Hfa).
  rewrite Ho in R.
  pose proof (Hcb (render (Deleted (0 + size (firstn (Z.to_nat amount) (live c)))))
                (world_of (partitionAndDelete (firstn (Z.to_nat amount) (live c)) 0 c)))
    as [Hres Hlive].
  destruct (responseCallback _ _) as [answer c1]. cbn [fst snd] in Hres, Hlive.
  subst answer. rewrite R. cbn [outcome_of world_of events_of].
  split; [reflexivity|]. split.
  - rewrite Hlive, Hl. apply filter_keeps_firstn, Hd.
  - pose proof (partitionAndDelete_facts (firstn (Z.to_nat amount) (live c)) 0 c)
      as F.
    cbv zeta in F. destruct F as (_ & _ & _ & Hr & _ & F). rewrite Ho in F.
    destruct F as (_ & _ & _ & Hacc & Hfat).
    rewrite responses_app, anyRejection_app. cbn [responses app anyRejection].
    rewrite Hr. cbn [app]. unfold size. rewrite length_firstn, orb_false_r.
    split; [reflexivity|].
    assert (Hcred : credited (events_of (partitionAndDelete
                                           (firstn (Z.to_nat amount) (live c)) 0 c))
                    = size (firstn (Z.to_nat amount) (live c))).
    { pose proof (partitionAndDelete_facts (firstn (Z.to_nat amount) (live c)) 0 c)
        as F.
      cbv zeta in F. destruct F as (_ & _ & _ & _ & _ & F). rewrite Ho in F.
      destruct F as (Hk & _). inversion Hk. lia. }
    rewrite Hcred in Hacc.
    assert (Hrej : rejectedDeletes
                     (events_of (partitionAndDelete
                                   (firstn (Z.to_nat amount) (live c)) 0 c)) = 0%nat)
      by lia.
    clear - Hrej Hfat. revert Hrej Hfat.
    generalize (events_of (partitionAndDelete (firstn (Z.to_nat amount) (live c)) 0 c)).
    intros tr. induction tr as [|e tr IH]; simpl; intros Hrej Hfat; [reflexivity|].
    destruct e; simpl in *; auto; destruct answer; auto; discriminate.
Qed.

(** X5.  On a reference channel without faults whose messages have distinct
    ids, [cleanMessages] with an amount in 1..100 removes exactly the newest
    [amount] messages (all of them when there are fewer), leaves the older
    ones as they were, and reports how many it removed. *)
Theorem cleanMessages_removes_newest :
  forall (c : Channel) (amount : Z) (responseCallback : Callback Channel),
    faults c = [] ->
    distinctIds (live c) ->
    (1 <= amount <= 100)%Z ->
    leavesHistory responseCallback ->
    let r := cleanMessages amount responseCallback c in
    outcome_of r = Ok tt
    /\ live (world_of r) = skipn (Z.to_nat amount) (live c)
    /\ responses (events_of r)
       = [Deleted (Nat.min (Z.to_nat amount) (size (live c)))]
    /\ anyRejection (events_of r) = false.
Proof.
  intros c amount responseCallback Hf Hd Hrange Hcb r. subst r.
  rewrite cleanMessages_guarded.
  pose proof (guarded_run
                (bind (fetch (mkOptions amount None))
                      (fun fetchedMessages => partitionAndDelete fetchedMessages 0))
                Deleted "Error deleting messages:" responseCallback c) as R.
  cbv zeta in R. rewrite cleanMessages_body in R.
  assert (Ef : messages_fetch (mkOptions amount None) c
               = (Resolved (firstn (Z.to_nat amount) (live c)), c))
    by (apply reference_fetch_faultless; [exact Hf | exact Hrange]).
  rewrite Ef in R. cbn [outcome_of world_of events_of] in R.
  destruct (partitionAndDelete_faultless (firstn (Z.to_nat amount) (live c)) 0 c Hf)
    as (Ho & Hl & Hfa).
  rewrite Ho in R.
  pose proof (Hcb (render (Deleted (0 + size (firstn (Z.to_nat amount) (live c)))))
                (world_of (partitionAndDelete (firstn (Z.to_nat amount) (live c)) 0 c)))
    as [Hres Hlive].
  destruct (responseCallback _ _) as [answer c1]. cbn [fst snd] in Hres, Hlive.
  subst answer. rewrite R. cbn [outcome_of world_of events_of].
  split; [reflexivity|]. split.
  - rewrite Hlive, Hl. apply filter_keeps_firstn, Hd.
  - pose proof (partitionAndDelete_facts (firstn (Z.to_nat amount) (live c)) 0 c)
      as F.
    cbv zeta in F. destruct F as (_ & _ & _ & Hr & _ & F). rewrite Ho in F.
    destruct F as (_ & _ & _ & Hacc & Hfat).
    rewrite responses_app, anyRejection_app. cbn [responses app anyRejection].
    rewrite Hr. cbn [app]. unfold size. rewrite length_firstn, orb_false_r.
    split; [reflexivity|].
    assert (Hcred : credited (events_of (partitionAndDelete
                                           (firstn (Z.to_nat amount) (live c)) 0 c))
                    = size (firstn (Z.to_nat amount) (live c))).
    { pose proof (partitionAndDelete_facts (firstn (Z.to_nat amount) (live c)) 0 c)
        as F.
      cbv zeta in F. destruct F as (_ & _ & _ & _ & _ & F). rewrite Ho in F.
      destruct F as (Hk & _). inversion Hk. lia. }
    rewrite Hcred in Hacc.
    assert (Hrej : rejectedDeletes
                     (events_of (partitionAndDelete
                                   (firstn (Z.to_nat amount) (live c)) 0 c)) = 0%nat)
      by lia.
    clear - Hrej Hfat. revert Hrej Hfat.
    generalize (events_of (partitionAndDelete (firstn (Z.to_nat amount) (live c)) 0 c)).
    intros tr. induction tr as [|e tr IH]; simpl; intros Hrej Hfat; [reflexivity|].
    destruct e; simpl in *; auto; destruct answer; auto; discriminate.
Qed.

Lemma newestFirst_skipn k ms : newestFirst ms -> newestFirst (skipn k ms).
Proof.
  unfold newestFirst. revert k. induction ms as [|a ms IH]; intros k S.
  - destruct k; exact S.
  - destruct k as [|k]; [exact S|]. simpl.
    apply StronglySorted_inv in S as [S _]. auto.
Qed.

Lemma newestFirst_firstn k ms : newestFirst ms -> newestFirst (firstn k ms).
Proof.
  unfold newestFirst. revert k. induction ms as [|a ms IH]; intros k S.
  - destruct k; constructor.
  - destruct k as [|k]; [constructor|]. simpl.
    apply StronglySorted_inv in S as [S Ha]. constructor; [auto|].
    rewrite Forall_forall in *. intros x Hx. apply Ha. apply firstn_incl in Hx.
    exact Hx.
Qed.

Lemma skipn_incl {A} k (l : list A) : incl (skipn k l) l.
Proof.
  revert l. induction k as [|k IH]; intros [|a l]; simpl;
    try (intros y Hy; exact Hy).
  intros y Hy. right. apply IH, Hy.
Qed.

(** What is left behind a page comes after the page's last message. *)
Lemma newestFirst_behind k ms o :
  newestFirst ms -> last (firstn k ms) = Some o -> Forall (precedes o) (skipn k ms).
Proof.
  unfold newestFirst. revert k. induction ms as [|a ms IH]; intros k S Hlast.
  - destruct k; discriminate.
  - destruct k as [|k]; [discriminate|].
    apply StronglySorted_inv in S as [S Ha]. cbn [firstn skipn] in *.
    destruct (firstn k ms) as [|b page] eqn:Ep.
    + simpl in Hlast. inversion Hlast; subst.
      rewrite Forall_forall in *. intros x Hx. apply Ha. apply skipn_incl in Hx.
      exact Hx.
    + apply IH; [exact S|]. rewrite Ep. exact Hlast.
Qed.

Lemma filter_true {A} (p : A -> bool) l : forallb p l = true -> filter p l = l.
Proof.
  induction l as [|a l IH]; simpl; intros E; [reflexivity|].
  apply andb_prop in E as [-> E]. f_equal. auto.
Qed.

Lemma candidates_behind k ms o :
  newestFirst ms -> last (firstn k ms) = Some o ->
  candidates (before (fetchOptions (Some (id o)))) (skipn k ms) = skipn k ms.
Proof.
  intros S Hlast. unfold fetchOptions. destruct (truthy (Some (id o)));
    cbn [before candidates]; [|reflexivity].
  apply filter_true, forallb_forall. intros m Hm.
  pose proof (newestFirst_behind k ms o S Hlast) as F.
  rewrite Forall_forall in F. destruct (F m Hm) as [Hlt _].
  unfold olderThan. apply N.ltb_lt, Hlt.
Qed.

Lemma get_app_absent key (a b : Collection) :
  has key a = false -> get key (a ++ b) = get key b.
Proof.
  unfold has, get. induction a as [|x a IH]; simpl; intros E; [reflexivity|].
  apply orb_false_elim in E as [Ex E]. rewrite Ex. auto.
Qed.

(** On the page that holds the target, the messages to delete are exactly
    those before it, when none of them shares its timestamp. *)
Lemma toDelete_is_newer (newer older : Collection) t :
  newestFirst (newer ++ t :: older) ->
  has (id t) newer = false ->
  Forall (fun m => (createdTimestamp t < createdTimestamp m)%Z) newer ->
  filter (newerThan (id t) t) (newer ++ t :: older) = newer.
Proof.
  unfold newestFirst. intros S Habs Hts. rewrite filter_app.
  assert (Hn : filter (newerThan (id t) t) newer = newer).
  { apply filter_true, forallb_forall. intros m Hm.
    rewrite Forall_forall in Hts. specialize (Hts m Hm).
    unfold newerThan. apply andb_true_intro. split.
    - apply negb_true_iff. destruct (String.eqb (id m) (id t)) eqn:E; [|reflexivity].
      assert (has (id t) newer = true) by (apply has_In; exists m; split;
                                           [exact Hm | apply String.eqb_eq, E]).
      congruence.
    - rewrite Z.gtb_ltb. apply Z.ltb_lt, Hts. }
  assert (Ho : filter (newerThan (id t) t) (t :: older) = []).
  { assert (St : StronglySorted precedes (t :: older)).
    { clear - S. induction newer as [|a newer IH]; simpl in S; [exact S|].
      apply StronglySorted_inv in S as [S _]. auto. }
    apply StronglySorted_inv in St as [_ Ht]. simpl.
    unfold newerThan at 1. rewrite String.eqb_refl. simpl.
    rewrite Forall_forall in Ht. clear - Ht.
    induction older as [|o older IH]; simpl; [reflexivity|].
    assert (Hle : (createdTimestamp o <= createdTimestamp t)%Z)
      by (apply Ht; left; reflexivity).
    unfold newerThan at 1. rewrite Z.gtb_ltb.
    replace (createdTimestamp t <? createdTimestamp o)%Z with false
      by (symmetry; apply Z.ltb_ge; exact Hle).
    rewrite andb_false_r. apply IH. intros x Hx. apply Ht. right. exact Hx. }
  rewrite Hn, Ho, app_nil_r. reflexivity.
Qed.

Section LoopRuns.

Context {World : Type} `{Platform World}.

Lemma cleanUntilLoop_empty_run targetMessageId fuel l w w1 :
  targetFound l = false ->
  messages_fetch (fetchOptions (lastMessageId l)) w = (Resolved [], w1) ->
  cleanUntilLoop (S fuel) targetMessageId l w
  = mkRun (Ok l) w1 [EFetch (fetchOptions (lastMessageId l)) (Resolved [])].
Proof.
  intros Etf Ef. cbn [cleanUntilLoop]. rewrite Etf.
  unfold bind, fetch, await, ret. rewrite Ef. reflexivity.
Qed.

Lemma cleanUntilLoop_found_run targetMessageId fuel l w page w1 target :
  targetFound l = false ->
  messages_fetch (fetchOptions (lastMessageId l)) w = (Resolved page, w1) ->
  (size page =? 0)%nat = false ->
  has targetMessageId page = true ->
  get targetMessageId page = Some target ->
  let toDelete := filter (newerThan targetMessageId target) page in
  exists cursor,
    if (0 <? size toDelete)%nat
    then
      let r := partitionAndDelete toDelete (deletedCount l) w1 in
      outcome_of (cleanUntilLoop (S fuel) targetMessageId l w)
      = match outcome_of r with
        | Ok n => Ok (mkLocals true n cursor)
        | Throw e => Throw e
        | OutOfFuel => OutOfFuel
        end
      /\ world_of (cleanUntilLoop (S fuel) targetMessageId l w) = world_of r
    else
      outcome_of (cleanUntilLoop (S fuel) targetMessageId l w)
      = Ok (mkLocals true (deletedCount l) cursor)
      /\ world_of (cleanUntilLoop (S fuel) targetMessageId l w) = w1.
Proof.
  intros Etf Ef Esz Ehas Hget toDelete.
  destruct (last_of_nonempty page Esz) as (oldest & Hlast & _).
  exists (Some (id oldest)).
  cbn [cleanUntilLoop]. rewrite Etf.
  unfold bind, fetch, await, assignLastMessageId, ret, throw.
  rewrite Ef. cbn [outcome_of world_of events_of]. rewrite Esz, Hlast.
  cbn [outcome_of world_of events_of targetFound deletedCount lastMessageId].
  rewrite Ehas, Hget. fold toDelete.
  destruct (0 <? size toDelete)%nat; cbn [outcome_of world_of events_of].
  - cbv zeta.
    destruct (outcome_of (partitionAndDelete toDelete (deletedCount l) w1));
      cbn [outcome_of world_of]; split; reflexivity.
  - split; reflexivity.
Qed.

End LoopRuns.

(** The whole loop on a reference channel without faults: the history is
    [newer ++ rest], where [rest] is empty or begins with the target. *)
Lemma channel_loop_faultless targetMessageId :
  forall fuel l (c : Channel) (newer rest : Collection),
    faults c = [] ->
    newestFirst (newer ++ rest) ->
    live c = newer ++ rest ->
    targetFound l = false ->
    candidates (before (fetchOptions (lastMessageId l))) (live c) = live c ->
    has targetMessageId newer = false ->
    match rest with
    | [] => True
    | t :: _ =>
        id t = targetMessageId
        /\ Forall (fun m => (createdTimestamp t < createdTimestamp m)%Z) newer
    end ->
    (size newer + match rest with [] => 100 | _ => 1 end <= 100 * fuel)%nat ->
    exists l',
      outcome_of (cleanUntilLoop fuel targetMessageId l c) = Ok l'
      /\ deletedCount l' = (deletedCount l + size newer)%nat
      /\ targetFound l' = match rest with [] => false | _ => true end
      /\ live (world_of (cleanUntilLoop fuel targetMessageId l c)) = rest
      /\ faults (world_of (cleanUntilLoop fuel targetMessageId l c)) = [].
Proof.
  induction fuel as [|fuel IH];
    intros l c newer rest Hf Hs Hlive Etf Hcand Habs Hrest Hbound.
  { exfalso. destruct rest; lia. }
  assert (Ef : messages_fetch (fetchOptions (lastMessageId l)) c
               = (Resolved (firstn 100 (newer ++ rest)), c)).
  { simpl messages_fetch. rewrite reference_fetch_faultless.
    - rewrite Hcand, Hlive. reflexivity.
    - exact Hf.
    - unfold fetchOptions. cbn [limit]. lia. }
  assert (Hdist : distinctIds (newer ++ rest)) by (apply newestFirst_distinct, Hs).
  assert (Hcont :
    firstn 100 (newer ++ rest) = firstn 100 newer ->
    skipn 100 (newer ++ rest) = skipn 100 newer ++ rest ->
    newer <> [] ->
    (size (skipn 100 newer) + match rest with [] => 100 | _ => 1 end
     <= 100 * fuel)%nat ->
    exists l',
      outcome_of (cleanUntilLoop (S fuel) targetMessageId l c) = Ok l'
      /\ deletedCount l' = (deletedCount l + size newer)%nat
      /\ targetFound l' = match rest with [] => false | _ => true end
      /\ live (world_of (cleanUntilLoop (S fuel) targetMessageId l c)) = rest
      /\ faults (world_of (cleanUntilLoop (S fuel) targetMessageId l c)) = []).
  { intros Hfirst Hskip Hne Hb.
    rewrite Hfirst in Ef.
    assert (Esz : (size (firstn 100 newer) =? 0)%nat = false)
      by (destruct newer; [congruence | reflexivity]).
    assert (Ehas : has targetMessageId (firstn 100 newer) = false)
      by (apply (has_incl _ _ newer); [apply firstn_incl | exact Habs]).
    destruct (partitionAndDelete_faultless (firstn 100 newer) (deletedCount l) c Hf)
      as (Ho & Hl & Hfa).
    destruct (cleanUntilLoop_next targetMessageId fuel l c (firstn 100 newer) c
                (deletedCount l + size (firstn 100 newer)) Etf Ef Esz Ehas Ho)
      as (oldest & Hlast & Hrun).
    rewrite Hrun. cbv zeta. cbn [outcome_of world_of].
    assert (Hlive' :
      live (setTimeout 1000
              (world_of (partitionAndDelete (firstn 100 newer) (deletedCount l) c)))
      = skipn 100 newer ++ rest).
    { cbn [setTimeout ChannelPlatform live]. rewrite Hl, Hlive, <- Hfirst, <- Hskip.
      apply filter_keeps_firstn, Hdist. }
    destruct (IH (mkLocals false (deletedCount l + size (firstn 100 newer))
                    (Some (id oldest)))
                (setTimeout 1000
                   (world_of (partitionAndDelete (firstn 100 newer)
                                (deletedCount l) c)))
                (skipn 100 newer) rest) as (l' & Eo & Hd & Ht & Hw & Hfw).
    - cbn [setTimeout ChannelPlatform faults]. exact Hfa.
    - rewrite <- Hskip. apply newestFirst_skipn, Hs.
    - exact Hlive'.
    - reflexivity.
    - rewrite Hlive', <- Hskip. cbn [lastMessageId].
      apply candidates_behind; [exact Hs | rewrite Hfirst; exact Hlast].
    - apply (has_incl _ _ newer); [apply skipn_incl | exact Habs].
    - destruct rest as [|t older]; [exact I|]. destruct Hrest as [Hid Hts].
      split; [exact Hid|]. rewrite Forall_forall in *. intros m Hm.
      apply Hts. apply skipn_incl in Hm. exact Hm.
    - exact Hb.
    - exists l'. rewrite Eo, Hd, Ht, Hw, Hfw. cbn [deletedCount].
      repeat split; auto.
      unfold size. rewrite <- (firstn_skipn 100 newer) at 3.
      rewrite length_app. lia. }
  destruct (Nat.ltb (size newer) 100) eqn:Hlt.
  - apply Nat.ltb_lt in Hlt. destruct rest as [|t older].
    + destruct newer as [|a newer'].
      * change (firstn 100 ([] ++ [])) with (@nil Message) in Ef. exists l.
        rewrite (cleanUntilLoop_empty_run targetMessageId fuel l c c Etf Ef).
        cbn [outcome_of world_of]. rewrite Hlive, Nat.add_0_r.
        repeat split; auto.
      * apply Hcont.
        -- rewrite app_nil_r. reflexivity.
        -- rewrite !app_nil_r. reflexivity.
        -- discriminate.
        -- unfold size in *. rewrite skipn_all2 by lia. simpl in *. lia.
    + destruct Hrest as [Hid Hts]. subst targetMessageId.
      assert (Hpage : firstn 100 (newer ++ t :: older)
                      = newer ++ t :: firstn (100 - size newer - 1) older).
      { unfold size in *. rewrite firstn_app, firstn_all2 by lia.
        destruct (100 - List.length newer)%nat as [|k] eqn:Ek; [lia|].
        simpl. replace (k - 0)%nat with k by lia. reflexivity. }
      rewrite Hpage in Ef.
      assert (Spage : newestFirst (newer ++ t :: firstn (100 - size newer - 1) older))
        by (rewrite <- Hpage; apply newestFirst_firstn, Hs).
      assert (Esz : (size (newer ++ t :: firstn (100 - size newer - 1) older) =? 0)%nat
                    = false)
        by (unfold size; rewrite length_app; simpl; apply Nat.eqb_neq; lia).
      assert (Ehas : has (id t)
                       (newer ++ t :: firstn (100 - size newer - 1) older) = true).
      { apply has_In. exists t. split; [|reflexivity].
        apply in_or_app. right. left. reflexivity. }
      assert (Hget : get (id t)
                       (newer ++ t :: firstn (100 - size newer - 1) older) = Some t).
      { rewrite get_app_absent by exact Habs. unfold get. simpl.
        rewrite String.eqb_refl. reflexivity. }
      destruct (cleanUntilLoop_found_run (id t) fuel l c _ c t
                  Etf Ef Esz Ehas Hget) as (cursor & Hrun).
      cbv zeta in Hrun.
      rewrite (toDelete_is_newer newer _ t Spage) in Hrun;
        [|exact Habs | exact Hts].
      destruct (0 <? size newer)%nat eqn:Hnz.
      * destruct Hrun as [Eo Ew].
        destruct (partitionAndDelete_faultless newer (deletedCount l) c Hf)
          as (Ho & Hl & Hfa).
        rewrite Ho in Eo. rewrite Eo, Ew, Hl, Hfa.
        exists (mkLocals true (deletedCount l + size newer) cursor).
        cbn [deletedCount targetFound]. repeat split; auto.
        rewrite Hlive.
        rewrite <- (firstn_all newer) at 1.
        replace (firstn (List.length newer) newer)
          with (firstn (List.length newer) (newer ++ t :: older))
          by (rewrite firstn_app, Nat.sub_diag, firstn_all; simpl;
              apply app_nil_r).
        rewrite filter_keeps_firstn by exact Hdist.
        rewrite skipn_app, Nat.sub_diag, skipn_all. reflexivity.
      * destruct Hrun as [Eo Ew]. rewrite Eo, Ew.
        exists (mkLocals true (deletedCount l) cursor).
        apply Nat.ltb_ge in Hnz. destruct newer; [|unfold size in Hnz; simpl in Hnz; lia].
        cbn [deletedCount targetFound]. simpl in *. rewrite Nat.add_0_r.
        repeat split; auto.
  - apply Nat.ltb_ge in Hlt. apply Hcont.
    + unfold size in *. rewrite firstn_app.
      replace (100 - List.length newer)%nat with 0%nat by lia.
      simpl. apply app_nil_r.
    + unfold size in *. rewrite skipn_app.
      replace (100 - List.length newer)%nat with 0%nat by lia. reflexivity.
    + destruct newer; [unfold size in Hlt; simpl in Hlt; lia | discriminate].
    + unfold size in *. rewrite length_skipn. destruct rest; lia.
Qed.

Lemma quiet_leavesHistory : leavesHistory quietCallback.
Proof. intros text c. split; reflexivity. Qed.

(** X5, an instance: three of five messages. *)
Lemma cleanMessages_removes_newest_witness :
  faults fiveRecent = []
  /\ distinctIds (live fiveRecent)
  /\ (1 <= 3 <= 100)%Z
  /\ map id (live (world_of (cleanMessages 3 quietCallback fiveRecent)))
     = ["1002"; "1001"]
  /\ responses (events_of (cleanMessages 3 quietCallback fiveRecent)) = [Deleted 3].
Proof.
  assert (Hd : distinctIds (live fiveRecent))
    by (apply newestFirst_distinct, newestFirstb_sound; vm_compute; reflexivity).
  assert (Hr : (1 <= 3 <= 100)%Z) by lia.
  split; [reflexivity|]. split; [exact Hd|]. split; [exact Hr|].
  destruct (cleanMessages_removes_newest fiveRecent 3 quietCallback eq_refl Hd Hr
              quiet_leavesHistory) as (_ & Hl & Hresp & _).
  rewrite Hl, Hresp. split; reflexivity.
Defined.

Lemma newestFirst_absent_before (newer older : Collection) t :
  newestFirst (newer ++ t :: older) -> has (id t) newer = false.
Proof.
  intros S. destruct (has (id t) newer) eqn:E; [|reflexivity].
  apply has_In in E as (m & Hm & Hid).
  assert (m = t).
  { apply (newestFirst_unique (newer ++ t :: older)); auto.
    - apply in_or_app. left. exact Hm.
    - apply in_or_app. right. left. reflexivity. }
  subst m. exfalso.
  unfold newestFirst in S. clear Hid.
  induction newer as [|a newer IH]; simpl in *; [tauto|].
  apply StronglySorted_inv in S as [S Ha]. destruct Hm as [->|Hm]; [|auto].
  rewrite Forall_forall in Ha.
  destruct (Ha t) as [Hlt _]; [apply in_or_app; right; left; reflexivity | lia].
Qed.

(** [cleanUntilMessage] on a channel whose calls all succeed and that holds
    the target. *)
Lemma cleanUntilMessage_faultless :
  forall (c : Channel) (newer older : Collection) (target : Message) (fuel : nat)
         (responseCallback : Callback Channel),
    faults c = [] ->
    live c = newer ++ target :: older ->
    newestFirst (live c) ->
    Forall (fun m => (createdTimestamp target < createdTimestamp m)%Z) newer ->
    (size (live c) < fuel)%nat ->
    leavesHistory responseCallback ->
    let r := cleanUntilMessage fuel (id target) responseCallback c in
    outcome_of r = Ok tt
    /\ live (world_of r) = target :: older
    /\ responses (events_of r) = [DeletedUpTo (size newer)].
Proof.
  intros c newer older target fuel responseCallback Hf Hlive Hs Hts Hfuel Hcb r.
  subst r. rewrite Hlive in Hs.
  destruct (channel_loop_faultless (id target) fuel (mkLocals false 0 None) c
              newer (target :: older)) as (l' & Eo & Hd & Ht & Hw & _); auto.
  - apply (newestFirst_absent_before newer older target Hs).
  - rewrite Hlive in Hfuel. unfold size in *. rewrite length_app in Hfuel.
    simpl in Hfuel. lia.
  - pose proof (guarded_run
                  (cleanUntilLoop fuel (id target) (mkLocals false 0 None))
                  (fun l => if targetFound l then DeletedUpTo (deletedCount l)
                            else TargetNotFound)
                  "Error cleaning messages:" responseCallback c) as R.
    cbv zeta in R. rewrite Eo, Ht in R.
    change (try_catch _ _ c)
      with (cleanUntilMessage fuel (id target) responseCallback c) in R.
    pose proof (cleanUntilLoop_accounting (id target) fuel (mkLocals false 0 None) c)
      as B.
    cbv zeta in B. destruct B as (Hresp & _).
    destruct (Hcb (render (DeletedUpTo (deletedCount l')))
                (world_of (cleanUntilLoop fuel (id target) (mkLocals false 0 None) c)))
      as [Hres Hl].
    destruct (responseCallback _ _) as [answer c1]. cbn [fst snd] in Hres, Hl.
    subst answer. rewrite R. cbn [outcome_of world_of events_of].
    rewrite Hl, Hw, responses_app, Hresp, Hd. repeat split; reflexivity.
Qed.

(** X6.  On a reference channel without faults whose history is newest
    first and holds the target, with no newer message created in the same
    millisecond as the target, [cleanUntilMessage] removes exactly the
    messages newer than the target, keeps the target and everything older,
    and reports how many it removed. *)
Theorem cleanUntilMessage_removes_newer :
  forall (c : Channel) (newer older : Collection) (target : Message) (fuel : nat)
         (responseCallback : Callback Channel),
    faults c = [] ->
    live c = newer ++ target :: older ->
    newestFirst (live c) ->
    Forall (fun m => (createdTimestamp target < createdTimestamp m)%Z) newer ->
    (size (live c) < fuel)%nat ->
    leavesHistory responseCallback ->
    let r := cleanUntilMessage fuel (id target) responseCallback c in
    outcome_of r = Ok tt
    /\ live (world_of r) = target :: older
    /\ responses (events_of r) = [DeletedUpTo (size newer)].
Proof.
  intros c newer older target fuel responseCallback Hf Hlive Hs Hts Hfuel Hcb r.
  subst r. rewrite Hlive in Hs.
  destruct (channel_loop_faultless (id target) fuel (mkLocals false 0 None) c
              newer (target :: older)) as (l' & Eo & Hd & Ht & Hw & _); auto.
  - apply (newestFirst_absent_before newer older target Hs).
  - rewrite Hlive in Hfuel. unfold size in *. rewrite length_app in Hfuel.
    simpl in Hfuel. lia.
  - pose proof (guarded_run
                  (cleanUntilLoop fuel (id target) (mkLocals false 0 None))
                  (fun l => if targetFound l then DeletedUpTo (deletedCount l)
                            else TargetNotFound)
                  "Error cleaning messages:" responseCallback c) as R.
    cbv zeta in R. rewrite Eo, Ht in R.
    change (try_catch _ _ c)
      with (cleanUntilMessage fuel (id target) responseCallback c) in R.
    pose proof (cleanUntilLoop_accounting (id target) fuel (mkLocals false 0 None) c)
      as B.
    cbv zeta in B. destruct B as (Hresp & _).
    destruct (Hcb (render (DeletedUpTo (deletedCount l')))
                (world_of (cleanUntilLoop fuel (id target) (mkLocals false 0 None) c)))
      as [Hres Hl].
    destruct (responseCallback _ _) as [answer c1]. cbn [fst snd] in Hres, Hl.
    subst answer. rewrite R. cbn [outcome_of world_of events_of].
    rewrite Hl, Hw, responses_app, Hresp, Hd. repeat split; reflexivity.
Qed.

(** X6, an instance: the target is the third-oldest of ten messages. *)
Lemma cleanUntilMessage_removes_newer_witness :
  faults tenRecent = []
  /\ newestFirst (live tenRecent)
  /\ (size (live tenRecent) < 11)%nat
  /\ map id (live (world_of (cleanUntilMessage 11 "1003" quietCallback tenRecent)))
     = ["1003"; "1002"; "1001"]
  /\ responses (events_of (cleanUntilMessage 11 "1003" quietCallback tenRecent))
     = [DeletedUpTo 7].
Proof.
  assert (Hs : newestFirst (live tenRecent))
    by (apply newestFirstb_sound; vm_compute; reflexivity).
  assert (Hfuel : (size (live tenRecent) < 11)%nat) by (vm_compute; lia).
  split; [reflexivity|]. split; [exact Hs|]. split; [exact Hfuel|].
  assert (Hlive : live tenRecent
                  = firstn 7 (live tenRecent)
                    ++ mkMessage "1003" (100 * day + 3) :: skipn 8 (live tenRecent))
    by (vm_compute; reflexivity).
  assert (Hts : Forall (fun m => (createdTimestamp (mkMessage "1003" (100 * day + 3))
                                  < createdTimestamp m)%Z)
                  (firstn 7 (live tenRecent))).
  { apply Forall_forall. intros m Hm. vm_compute in Hm.
    repeat (destruct Hm as [<-|Hm]; [vm_compute; reflexivity|]). destruct Hm. }
  destruct (cleanUntilMessage_removes_newer tenRecent
              (firstn 7 (live tenRecent))
              (skipn 8 (live tenRecent))
              (mkMessage "1003" (100 * day + 3)) 11 quietCallback
              eq_refl Hlive Hs Hts Hfuel quiet_leavesHistory)
    as (_ & Hl & Hresp).
  cbn [id] in Hl, Hresp. rewrite Hl, Hresp. split; vm_compute; reflexivity.
Defined.

(** X7.  On a reference channel without faults whose history is newest
    first, a target id that no message carries makes [cleanUntilMessage]
    remove every message of the channel; it then hands over the not-found
    text. *)
Theorem cleanUntilMessage_absent_empties :
  forall (c : Channel) (targetMessageId : string) (fuel : nat)
         (responseCallback : Callback Channel),
    faults c = [] ->
    newestFirst (live c) ->
    has targetMessageId (live c) = false ->
    (size (live c) < fuel)%nat ->
    leavesHistory responseCallback ->
    let r := cleanUntilMessage fuel targetMessageId responseCallback c in
    outcome_of r = Ok tt
    /\ live (world_of r) = []
    /\ responses (events_of r) = [TargetNotFound].
Proof.
  intros c targetMessageId fuel responseCallback Hf Hs Habs Hfuel Hcb r. subst r.
  destruct (channel_loop_faultless targetMessageId fuel (mkLocals false 0 None) c
              (live c) []) as (l' & Eo & Hd & Ht & Hw & _); auto.
  - rewrite app_nil_r. exact Hs.
  - rewrite app_nil_r. reflexivity.
  - lia.
  - pose proof (guarded_run
                  (cleanUntilLoop fuel targetMessageId (mkLocals false 0 None))
                  (fun l => if targetFound l then DeletedUpTo (deletedCount l)
                            else TargetNotFound)
                  "Error cleaning messages:" responseCallback c) as R.
    cbv zeta in R. rewrite Eo, Ht in R.
    change (try_catch _ _ c)
      with (cleanUntilMessage fuel targetMessageId responseCallback c) in R.
    pose proof (cleanUntilLoop_accounting targetMessageId fuel
                  (mkLocals false 0 None) c) as B.
    cbv zeta in B. destruct B as (Hresp & _).
    destruct (Hcb (render TargetNotFound)
                (world_of (cleanUntilLoop fuel targetMessageId
                             (mkLocals false 0 None) c)))
      as [Hres Hl].
    destruct (responseCallback _ _) as [answer c1]. cbn [fst snd] in Hres, Hl.
    subst answer. rewrite R. cbn [outcome_of world_of events_of].
    rewrite Hl, Hw, responses_app, Hresp. repeat split; reflexivity.
Qed.

(** X7, an instance: a mistyped id and five messages. *)
Lemma cleanUntilMessage_absent_empties_witness :
  faults threeRecentTwoAged = []
  /\ newestFirst (live threeRecentTwoAged)
  /\ has "1000" (live threeRecentTwoAged) = false
  /\ (size (live threeRecentTwoAged) < 6)%nat
  /\ live (world_of (cleanUntilMessage 6 "1000" quietCallback threeRecentTwoAged))
     = [].
Proof.
  assert (Hs : newestFirst (live threeRecentTwoAged))
    by (apply newestFirstb_sound; vm_compute; reflexivity).
  assert (Hfuel : (size (live threeRecentTwoAged) < 6)%nat) by (vm_compute; lia).
  split; [reflexivity|]. split; [exact Hs|]. split; [reflexivity|].
  split; [exact Hfuel|].
  apply (cleanUntilMessage_absent_empties threeRecentTwoAged "1000" 6 quietCallback
           eq_refl Hs eq_refl Hfuel quiet_leavesHistory).
Defined.

(** * The command handlers *)

Lemma engineEvents_map es : engineEvents (map DEngine es) = es.
Proof. induction es as [|e es IH]; simpl; [reflexivity|]. rewrite IH. reflexivity. Qed.

Lemma commandDeletes_map es : commandDeletes (map DEngine es) = [].
Proof. induction es as [|e es IH]; simpl; auto. Qed.

Lemma engineEvents_app a b :
  engineEvents (a ++ b) = engineEvents a ++ engineEvents b.
Proof.
  induction a as [|e a IH]; simpl; [reflexivity|].
  destruct e; simpl; rewrite IH; reflexivity.
Qed.

Lemma commandDeletes_app a b :
  commandDeletes (a ++ b) = commandDeletes a ++ commandDeletes b.
Proof.
  induction a as [|e a IH]; simpl; [reflexivity|].
  destruct e; simpl; rewrite IH; reflexivity.
Qed.

Lemma splitSpacesFrom_nonempty s : forall inGap current,
  splitSpacesFrom inGap current s <> [].
Proof.
  induction s as [|c s IH]; intros inGap current; simpl; [discriminate|].
  destruct (Ascii.eqb c " "); [destruct inGap; [apply IH | discriminate] | apply IH].
Qed.

Section HandlerFacts.

Context {World : Type} {P : Platform World} {Dp : Dispatch World}.

Lemma cleanMessages_fetchCalls amount (responseCallback : Callback World) w :
  fetchCalls (events_of (cleanMessages amount responseCallback w))
  = [mkOptions amount None].
Proof.
  destruct (cleanMessages_events responseCallback amount w) as (tail & -> & Htail).
  apply reports_read in Htail. destruct Htail as (_ & _ & _ & Hf & _).
  rewrite fetchCalls_app, Hf, app_nil_r, cleanMessages_body.
  destruct (messages_fetch (mkOptions amount None) w) as [[page|e] w1];
    cbn [events_of fetchCalls]; [|reflexivity].
  pose proof (partitionAndDelete_facts page 0 w1) as F. cbv zeta in F.
  destruct F as (_ & -> & _). reflexivity.
Qed.

Lemma cleanUntilMessage_fetchCalls fuel targetMessageId
    (responseCallback : Callback World) w :
  forallb (fun o => (limit o =? 100)%Z)
          (fetchCalls (events_of (cleanUntilMessage fuel targetMessageId
                                    responseCallback w))) = true.
Proof.
  destruct (cleanUntilMessage_events responseCallback fuel targetMessageId w)
    as (tail & -> & Htail).
  apply reports_read in Htail. destruct Htail as (_ & _ & _ & Hf & _).
  rewrite fetchCalls_app, Hf, app_nil_r.
  apply (cleanUntilLoop_pauses targetMessageId fuel (mkLocals false 0 None) w).
Qed.

(** With a callback that resolves, [cleanMessages] ends and hands over one
    text, last of all. *)
Lemma cleanMessages_delivers (responseCallback : Callback World) amount w :
  alwaysResolves responseCallback ->
  let r := cleanMessages amount responseCallback w in
  outcome_of r = Ok tt
  /\ exists pre resp,
       events_of r = pre ++ [ERespond resp (Resolved tt)] /\ responses pre = [].
Proof.
  intros Hres.
  pose proof (cleanMessages_body_facts amount w) as B. cbv zeta in B.
  destruct B as (Hr & B).
  cbv zeta. rewrite cleanMessages_guarded.
  destruct (guarded_delivers
              (bind (fetch (mkOptions amount None))
                    (fun fetchedMessages => partitionAndDelete fetchedMessages 0))
              Deleted "Error deleting messages:" responseCallback w Hres Hr)
    as [(Ho & pre & resp & Hev & Hp & _)|[_ R]].
  - discriminate.
  - destruct (outcome_of (bind (fetch (mkOptions amount None))
                (fun fetchedMessages => partitionAndDelete fetchedMessages 0) w));
      tauto.
  - split; [exact Ho|]. exists pre, resp. split; assumption.
  - rewrite R in B. tauto.
Qed.

Lemma cleanUntilMessage_delivers (responseCallback : Callback World) fuel
    targetMessageId w :
  alwaysResolves responseCallback ->
  let r := cleanUntilMessage fuel targetMessageId responseCallback w in
  (outcome_of r = Ok tt
   /\ exists pre resp,
        events_of r = pre ++ [ERespond resp (Resolved tt)] /\ responses pre = [])
  \/ (outcome_of r = OutOfFuel
      /\ responses (events_of r) = []
      /\ outcome_of (cleanUntilLoop fuel targetMessageId (mkLocals false 0 None) w)
         = OutOfFuel).
Proof.
  intros Hres.
  pose proof (cleanUntilLoop_accounting targetMessageId fuel
                (mkLocals false 0 None) w) as B.
  cbv zeta in B. destruct B as (Hr & B).
  pose proof (guarded_events_fuel
                (cleanUntilLoop fuel targetMessageId (mkLocals false 0 None))
                (fun l => if targetFound l then DeletedUpTo (deletedCount l)
                          else TargetNotFound)
                "Error cleaning messages:" responseCallback w) as G.
  assert (Hf : forall l : Locals,
             (if targetFound l then DeletedUpTo (deletedCount l) else TargetNotFound)
             <> ErrorText)
    by (intros l; destruct (targetFound l); discriminate).
  assert (Hfat : match outcome_of (cleanUntilLoop fuel targetMessageId
                                     (mkLocals false 0 None) w) with
                 | Ok _ => fatalRejection
                             (events_of (cleanUntilLoop fuel targetMessageId
                                           (mkLocals false 0 None) w)) = false
                 | Throw _ => fatalRejection
                                (events_of (cleanUntilLoop fuel targetMessageId
                                              (mkLocals false 0 None) w)) = true
                 | OutOfFuel => True
                 end).
  { destruct (outcome_of (cleanUntilLoop fuel targetMessageId
                            (mkLocals false 0 None) w)); tauto. }
  pose proof (guarded_delivers
                (cleanUntilLoop fuel targetMessageId (mkLocals false 0 None))
                (fun l => if targetFound l then DeletedUpTo (deletedCount l)
                          else TargetNotFound)
                "Error cleaning messages:" responseCallback w Hres Hr Hf Hfat) as D.
  cbv zeta in G, D.
  change (try_catch _ _ w)
    with (cleanUntilMessage fuel targetMessageId responseCallback w) in G, D.
  cbv zeta. destruct G as (tail & Hev & _ & Hnil & _).
  destruct D as [(Ho & pre & resp & Hev' & Hp & _)|[Ho Hl]].
  - left. split; [exact Ho|]. exists pre, resp. split; assumption.
  - right. split; [exact Ho|]. split; [|exact Hl].
    rewrite Hev, (Hnil Hl), app_nil_r. exact Hr.
Qed.

Lemma confirmationCallback_resolves timeout :
  alwaysResolves (confirmationCallback timeout).
Proof.
  intros text w. unfold confirmationCallback.
  destruct (channel_send text w) as [[reply|e] w1]; reflexivity.
Qed.

(** The block both prefix commands share: delete the command message, run
    the operation, log whatever is thrown. *)
Lemma commandBlock_run (msg : Message) (op : M World unit) (text : string) w :
  let r := dtry_catch
             (dbind (dawait (msg_delete msg) (DDeleteCommand msg))
                    (fun _ => engine op))
             (fun error => dconsole_error text error) w in
  match msg_delete msg w with
  | (Rejected e, w1) =>
      r = mkDRun (Ok tt) w1 [DDeleteCommand msg (Rejected e); DConsoleError text e]
  | (Resolved u, w1) =>
      match outcome_of (op w1) with
      | Throw e =>
          r = mkDRun (Ok tt) (world_of (op w1))
                (DDeleteCommand msg (Resolved u)
                   :: map DEngine (events_of (op w1)) ++ [DConsoleError text e])
      | o =>
          r = mkDRun o (world_of (op w1))
                (DDeleteCommand msg (Resolved u) :: map DEngine (events_of (op w1)))
      end
  end.
Proof.
  cbv zeta. unfold dtry_catch, dbind, dawait, engine, dconsole_error.
  destruct (msg_delete msg w) as [[u|e] w1]; cbn [d_outcome d_world d_events app].
  - destruct (outcome_of (op w1)); cbn [d_outcome d_world d_events app]; reflexivity.
  - reflexivity.
Qed.

Variable trim : string -> string.
Variable toLowerCase : string -> string.
Variable parseInt : string -> JsNumber.

(** The ways a prefix command can go: nothing touches the channel, or one of
    the two cleanup blocks runs, past every test. *)
Lemma onMessageCreate_cases fuel config message w :
  let r := onMessageCreate trim toLowerCase parseInt fuel config message w in
  (engineEvents (d_events r) = [] /\ commandDeletes (d_events r) = [])
  \/ (author_bot message = false
      /\ String.prefix (prefix config) (content message) = true
      /\ includes (author_id message) (authorizedUsers config) = true
      /\ canManageMessages message = true
      /\ exists first args,
           splitSpaces (trim (slice (String.length (prefix config)) (content message)))
           = first :: args
           /\ ((toLowerCase first = "clean"
                /\ exists amount,
                     parseArgument parseInt (hd_error args) = Num amount
                     /\ (1 <= amount <= 100)%Z
                     /\ r = dtry_catch
                              (dbind (dawait (msg_delete (commandMessage message))
                                             (DDeleteCommand (commandMessage message)))
                                     (fun _ =>
                                        engine (cleanMessages amount
                                                  (confirmationCallback
                                                     (deleteConfirmationTimeout config)))))
                              (fun error =>
                                 dconsole_error "Error in clean command:" error) w)
               \/ (toLowerCase first = "cleanuntil"
                   /\ exists targetMessageId,
                        hd_error args = Some targetMessageId
                        /\ digitsOnly targetMessageId = true
                        /\ r = dtry_catch
                                 (dbind (dawait (msg_delete (commandMessage message))
                                                (DDeleteCommand (commandMessage message)))
                                        (fun _ =>
                                           engine (cleanUntilMessage fuel targetMessageId
                                                     (confirmationCallback (Num 5000)))))
                                 (fun error =>
                                    dconsole_error "Error in cleanuntil command:" error)
                                 w))).
Proof.
  cbv zeta. unfold onMessageCreate.
  destruct (author_bot message) eqn:Ebot; cbn [orb negb].
  { left. split; reflexivity. }
  destruct (String.prefix (prefix config) (content message)) eqn:Epre; cbn [negb].
  2:{ left. split; reflexivity. }
  destruct (includes (author_id message) (authorizedUsers config)) eqn:Einc; cbn [negb].
  2:{ left. unfold dawait. destruct (message_reply NotAuthorized w) as [a w1].
      split; reflexivity. }
  destruct (canManageMessages message) eqn:Eperm; cbn [negb].
  2:{ left. unfold dawait. destruct (message_reply NeedPermission w) as [a w1].
      split; reflexivity. }
  destruct (splitSpaces (trim (slice (String.length (prefix config)) (content message))))
    as [|first args] eqn:Eargs.
  { left. split; reflexivity. }
  cbv zeta.
  destruct (String.eqb (toLowerCase first) "clean") eqn:Ec.
  - apply String.eqb_eq in Ec.
    destruct (outOfRange (parseArgument parseInt (hd_error args))) eqn:Er.
    + left. unfold dawait. destruct (message_reply NumberBetween w) as [a w1].
      split; reflexivity.
    + right. repeat (split; [reflexivity|]).
      exists first, args. split; [reflexivity|]. left. split; [exact Ec|].
      destruct (parseArgument parseInt (hd_error args)) as [|z|neg];
        cbn [outOfRange] in Er; try discriminate.
      exists z. split; [reflexivity|].
      apply orb_false_iff in Er. destruct Er as [E1 E2].
      apply Z.ltb_ge in E1. apply Z.ltb_ge in E2.
      split; [lia|reflexivity].
  - destruct (String.eqb (toLowerCase first) "cleanuntil") eqn:Eu.
    + apply String.eqb_eq in Eu.
      destruct (badMessageId (hd_error args)) eqn:Eb.
      * left. unfold dawait. destruct (message_reply InvalidMessageId w) as [a w1].
        split; reflexivity.
      * right. repeat (split; [reflexivity|]).
        exists first, args. split; [reflexivity|]. right. split; [exact Eu|].
        destruct (hd_error args) as [t|]; cbn [badMessageId] in Eb; [|discriminate].
        exists t. split; [reflexivity|].
        apply orb_false_iff in Eb. destruct Eb as [_ Eb].
        apply negb_false_iff in Eb. split; [exact Eb|reflexivity].
    + left. destruct (String.eqb (toLowerCase first) "help").
      * split; reflexivity.
      * destruct (String.eqb (toLowerCase first) "version").
        -- unfold dbind, dawait, floating.
           destruct (readPackageInfo w) as [[info|e] w1];
             cbn [d_outcome d_events d_world app]; split; reflexivity.
        -- split; reflexivity.
Qed.

End HandlerFacts.

(** X8.  A prefix command makes the bot fetch or delete something, the
    command message included, only if its author is not a bot, the text
    starts with the prefix, the author is among the authorized users, the bot
    may manage messages, and the command is [clean] with a number from 1 to
    100 or [cleanuntil] with an id that is a non-empty string of digits. *)
Theorem prefix_command_gate :
  forall (World : Type) (P : Platform World) (Dp : Dispatch World)
         (trim toLowerCase : string -> string) (parseInt : string -> JsNumber)
         (fuel : nat) (config : Config) (message : Incoming) (w : World),
    let r := onMessageCreate trim toLowerCase parseInt fuel config message w in
    engineEvents (d_events r) <> [] \/ commandDeletes (d_events r) <> [] ->
    author_bot message = false
    /\ String.prefix (prefix config) (content message) = true
    /\ includes (author_id message) (authorizedUsers config) = true
    /\ canManageMessages message = true
    /\ exists first args,
         splitSpaces (trim (slice (String.length (prefix config)) (content message)))
         = first :: args
         /\ ((toLowerCase first = "clean"
              /\ exists amount, parseArgument parseInt (hd_error args) = Num amount
                                /\ (1 <= amount <= 100)%Z)
             \/ (toLowerCase first = "cleanuntil"
                 /\ exists targetMessageId,
                      hd_error args = Some targetMessageId
                      /\ digitsOnly targetMessageId = true)).
Proof.
  intros World P Dp trim toLowerCase parseInt fuel config message w r Hacts.
  destruct (onMessageCreate_cases trim toLowerCase parseInt fuel config message w)
    as [[He Hc]|(Hbot & Hpre & Hinc & Hperm & first & args & Hargs & Hcmd)].
  { fold r in He, Hc. destruct Hacts as [Ha|Ha]; contradiction. }
  repeat (split; [assumption|]).
  exists first, args. split; [exact Hargs|].
  destruct Hcmd as [(Hc & amount & Ha & Hr & _)|(Hu & t & Ht & Hd & _)].
  - left. split; [exact Hc|]. exists amount. split; assumption.
  - right. split; [exact Hu|]. exists t. split; assumption.
Qed.

(** X8, an instance: [!clean 2] of an authorized user. *)
Lemma prefix_command_gate_witness :
  let r := onMessageCreate asciiTrim asciiLowerCase parseDigits 10 botConfig
             cleanCommand (withCommand cleanCommand fiveRecent) in
  (engineEvents (d_events r) <> [] \/ commandDeletes (d_events r) <> [])
  /\ includes (author_id cleanCommand) (authorizedUsers botConfig) = true
  /\ canManageMessages cleanCommand = true.
Proof.
  cbv zeta.
  assert (Hacts :
    engineEvents (d_events (onMessageCreate asciiTrim asciiLowerCase parseDigits 10
                              botConfig cleanCommand
                              (withCommand cleanCommand fiveRecent))) <> []
    \/ commandDeletes (d_events (onMessageCreate asciiTrim asciiLowerCase parseDigits
                                   10 botConfig cleanCommand
                                   (withCommand cleanCommand fiveRecent))) <> [])
    by (right; vm_compute; discriminate).
  split; [exact Hacts|].
  destruct (prefix_command_gate Channel ChannelPlatform ChannelDispatch
              asciiTrim asciiLowerCase parseDigits 10 botConfig cleanCommand
              (withCommand cleanCommand fiveRecent) Hacts)
    as (_ & _ & Hinc & Hperm & _).
  split; [exact Hinc | exact Hperm].
Defined.

(** After the delete of a message a reference channel holds no more
    messages than before, and well-formed ids stay so. *)
Lemma reference_delete_bounds msg (c : Channel) :
  wellFormed (live c) = true ->
  wellFormed (live (snd (reference_delete msg c))) = true
  /\ (size (live (snd (reference_delete msg c))) <= size (live c))%nat.
Proof.
  intros Hwf. destruct (reference_delete_shrinks msg c) as [g ->].
  split; [apply wellFormed_filter, Hwf | apply filter_size_le].
Qed.

(** X9.  Once a prefix command has gone as far as deleting the command
    message, the handler does not throw.  If that delete rejects, the
    cleanup is not run: the error is logged and that is all.  If it resolves,
    the events that follow are the operation's, and an operation that ends
    hands exactly one text to the confirmation callback, as its last act.
    [clean] always ends; the loop of [cleanuntil] ends when a page comes
    back empty or holds the target, and a run cut short by the bound on its
    turns is that of [cleanuntil] with the id of the command, with nothing
    handed over.  On the reference channel, whatever calls reject, a bound
    above the number of its messages is never reached: the handler ends
    and returns normally. *)
Theorem prefix_cleanup_contained :
  (forall (World : Type) (P : Platform World) (Dp : Dispatch World)
          (trim toLowerCase : string -> string) (parseInt : string -> JsNumber)
          (fuel : nat) (config : Config) (message : Incoming) (w : World),
      let r := onMessageCreate trim toLowerCase parseInt fuel config message w in
      let msg := commandMessage message in
      commandDeletes (d_events r) <> [] ->
      (exists e text,
          msg_delete msg w = (Rejected e, d_world r)
          /\ d_outcome r = Ok tt
          /\ d_events r = [DDeleteCommand msg (Rejected e); DConsoleError text e])
      \/ (exists w1 es,
            msg_delete msg w = (Resolved tt, w1)
            /\ d_events r = DDeleteCommand msg (Resolved tt) :: map DEngine es
            /\ ((d_outcome r = Ok tt
                 /\ exists pre resp,
                      es = pre ++ [ERespond resp (Resolved tt)]
                      /\ responses pre = [])
                \/ (d_outcome r = OutOfFuel
                    /\ responses es = []
                    /\ exists first args targetMessageId,
                         splitSpaces (trim (slice (String.length (prefix config))
                                                  (content message)))
                         = first :: args
                         /\ toLowerCase first = "cleanuntil"
                         /\ hd_error args = Some targetMessageId
                         /\ outcome_of (cleanUntilLoop fuel targetMessageId
                                          (mkLocals false 0 None) w1)
                            = OutOfFuel))))
  /\ (forall (Dp : Dispatch Channel)
             (trim toLowerCase : string -> string) (parseInt : string -> JsNumber)
             (fuel : nat) (config : Config) (message : Incoming) (c : Channel),
         let r := onMessageCreate trim toLowerCase parseInt fuel config message c in
         wellFormed (live c) = true ->
         (size (live c) < fuel)%nat ->
         commandDeletes (d_events r) <> [] ->
         d_outcome r = Ok tt).
Proof.
  assert (A :
    forall (World : Type) (P : Platform World) (Dp : Dispatch World)
           (trim toLowerCase : string -> string) (parseInt : string -> JsNumber)
           (fuel : nat) (config : Config) (message : Incoming) (w : World),
      let r := onMessageCreate trim toLowerCase parseInt fuel config message w in
      let msg := commandMessage message in
      commandDeletes (d_events r) <> [] ->
      (exists e text,
          msg_delete msg w = (Rejected e, d_world r)
          /\ d_outcome r = Ok tt
          /\ d_events r = [DDeleteCommand msg (Rejected e); DConsoleError text e])
      \/ (exists w1 es,
            msg_delete msg w = (Resolved tt, w1)
            /\ d_events r = DDeleteCommand msg (Resolved tt) :: map DEngine es
            /\ ((d_outcome r = Ok tt
                 /\ exists pre resp,
                      es = pre ++ [ERespond resp (Resolved tt)]
                      /\ responses pre = [])
                \/ (d_outcome r = OutOfFuel
                    /\ responses es = []
                    /\ exists first args targetMessageId,
                         splitSpaces (trim (slice (String.length (prefix config))
                                                  (content message)))
                         = first :: args
                         /\ toLowerCase first = "cleanuntil"
                         /\ hd_error args = Some targetMessageId
                         /\ outcome_of (cleanUntilLoop fuel targetMessageId
                                          (mkLocals false 0 None) w1)
                            = OutOfFuel)))).
  { intros World P Dp trim toLowerCase parseInt fuel config message w r msg Hacts.
    destruct (onMessageCreate_cases trim toLowerCase parseInt fuel config message w)
      as [[_ Hc]|(_ & _ & _ & _ & first & args & Hargs & Hcmd)].
    { fold r in Hc. contradiction. }
    fold r in Hcmd.
    destruct Hcmd as [(_ & amount & _ & _ & Hr)|(Hu & t & Ht & _ & Hr)].
    - pose proof (commandBlock_run msg
                    (cleanMessages amount
                       (confirmationCallback (deleteConfirmationTimeout config)))
                    "Error in clean command:" w) as B.
      cbv zeta in B. fold msg in Hr. rewrite <- Hr in B.
      destruct (msg_delete msg w) as [[[]|e] w1].
      + right.
        destruct (cleanMessages_delivers
                    (confirmationCallback (deleteConfirmationTimeout config)) amount w1
                    (confirmationCallback_resolves _)) as (Ho & pre & resp & Hev & Hp).
        rewrite Ho in B. exists w1, (events_of (cleanMessages amount
                       (confirmationCallback (deleteConfirmationTimeout config)) w1)).
        rewrite B. cbn [d_outcome d_events d_world].
        split; [reflexivity|]. split; [reflexivity|]. left.
        split; [reflexivity|]. exists pre, resp. split; assumption.
      + left. exists e, "Error in clean command:". rewrite B.
        split; [reflexivity|]. split; reflexivity.
    - pose proof (commandBlock_run msg
                    (cleanUntilMessage fuel t (confirmationCallback (Num 5000)))
                    "Error in cleanuntil command:" w) as B.
      cbv zeta in B. fold msg in Hr. rewrite <- Hr in B.
      destruct (msg_delete msg w) as [[[]|e] w1].
      + right.
        exists w1, (events_of (cleanUntilMessage fuel t
                                 (confirmationCallback (Num 5000)) w1)).
        destruct (cleanUntilMessage_delivers
                    (confirmationCallback (Num 5000)) fuel t w1
                    (confirmationCallback_resolves _))
          as [(Ho & pre & resp & Hev & Hp)|(Ho & Hresp & Hl)];
          rewrite Ho in B; rewrite B; cbn [d_outcome d_events d_world];
          (split; [reflexivity|]); (split; [reflexivity|]).
        * left. split; [reflexivity|]. exists pre, resp. split; assumption.
        * right. split; [reflexivity|]. split; [exact Hresp|].
          exists first, args, t. repeat split; assumption.
      + left. exists e, "Error in cleanuntil command:". rewrite B.
        split; [reflexivity|]. split; reflexivity. }
  split; [exact A|].
  intros Dp trim toLowerCase parseInt fuel config message c r Hwf Hfuel Hacts.
  destruct (A Channel ChannelPlatform Dp trim toLowerCase parseInt fuel config
              message c Hacts)
    as [(e & text & _ & Ho & _)
       |(c1 & es & Hd & _ & [[Ho _]|(_ & _ & first & args & t & _ & _ & _ & Hl)])];
    [exact Ho | exact Ho |].
  exfalso. revert Hl. apply channel_loop_terminates.
  - pose proof (reference_delete_bounds (commandMessage message) c Hwf) as [Hw _].
    cbn [msg_delete ChannelPlatform] in Hd. rewrite Hd in Hw. exact Hw.
  - cbn [lastMessageId fetchOptions truthy before candidates].
    pose proof (reference_delete_bounds (commandMessage message) c Hwf) as [_ Hs].
    cbn [msg_delete ChannelPlatform] in Hd. rewrite Hd in Hs. cbn [snd] in Hs. lia.
Qed.

(** X9, two instances: the delete of the command message resolves and the
    cleanup runs to its end; the delete rejects and nothing else is done. *)
Lemma prefix_cleanup_contained_witness :
  let c := withCommand cleanUntilCommand fiveRecent in
  let r := onMessageCreate asciiTrim asciiLowerCase parseDigits 10 botConfig
             cleanUntilCommand c in
  let r' := onMessageCreate asciiTrim asciiLowerCase parseDigits 10 botConfig
              cleanUntilCommand (firstCallRejects c) in
  (wellFormed (live c) = true
   /\ (size (live c) < 10)%nat
   /\ commandDeletes (d_events r) <> []
   /\ d_outcome r = Ok tt
   /\ exists pre resp,
        engineEvents (d_events r) = pre ++ [ERespond resp (Resolved tt)]
        /\ responses pre = [])
  /\ (commandDeletes (d_events r') <> []
      /\ engineEvents (d_events r') = []
      /\ d_outcome r' = Ok tt).
Proof.
  cbv zeta. split.
  - assert (Hwf : wellFormed (live (withCommand cleanUntilCommand fiveRecent)) = true)
      by reflexivity.
    assert (Hfuel : (size (live (withCommand cleanUntilCommand fiveRecent)) < 10)%nat)
      by (vm_compute; lia).
    assert (Hacts :
      commandDeletes
        (d_events (onMessageCreate asciiTrim asciiLowerCase parseDigits 10 botConfig
                     cleanUntilCommand (withCommand cleanUntilCommand fiveRecent)))
      <> []) by (vm_compute; discriminate).
    split; [exact Hwf|]. split; [exact Hfuel|]. split; [exact Hacts|].
    pose proof (proj2 prefix_cleanup_contained ChannelDispatch asciiTrim
                  asciiLowerCase parseDigits 10%nat botConfig cleanUntilCommand
                  (withCommand cleanUntilCommand fiveRecent) Hwf Hfuel Hacts) as Hok.
    split; [exact Hok|].
    destruct (proj1 prefix_cleanup_contained Channel ChannelPlatform ChannelDispatch
                asciiTrim asciiLowerCase parseDigits 10%nat botConfig cleanUntilCommand
                (withCommand cleanUntilCommand fiveRecent) Hacts)
      as [(e & text & Hd & _)
         |(w1 & es & _ & Hev & [(_ & pre & resp & Hes & Hp)|(Ho & _)])].
    + vm_compute in Hd. discriminate.
    + exists pre, resp. rewrite Hev. cbn [engineEvents].
      rewrite engineEvents_map. split; [exact Hes | exact Hp].
    + rewrite Hok in Ho. discriminate.
  - assert (Hacts :
      commandDeletes
        (d_events (onMessageCreate asciiTrim asciiLowerCase parseDigits 10 botConfig
                     cleanUntilCommand
                     (firstCallRejects (withCommand cleanUntilCommand fiveRecent))))
      <> []) by (vm_compute; discriminate).
    split; [exact Hacts|].
    destruct (proj1 prefix_cleanup_contained Channel ChannelPlatform ChannelDispatch
                asciiTrim asciiLowerCase parseDigits 10%nat botConfig cleanUntilCommand
                (firstCallRejects (withCommand cleanUntilCommand fiveRecent)) Hacts)
      as [(e & text & _ & Ho & Hev)|(w1 & es & Hd & _)].
    + rewrite Hev. split; [reflexivity | exact Ho].
    + vm_compute in Hd. discriminate.
Defined.

(** X10.  Whatever a prefix command is, every fetch it causes asks for at
    least 1 and at most 100 messages. *)
Theorem prefix_fetch_limits :
  forall (World : Type) (P : Platform World) (Dp : Dispatch World)
         (trim toLowerCase : string -> string) (parseInt : string -> JsNumber)
         (fuel : nat) (config : Config) (message : Incoming) (w : World),
    let r := onMessageCreate trim toLowerCase parseInt fuel config message w in
    Forall (fun o => (1 <= limit o <= 100)%Z)
           (fetchCalls (engineEvents (d_events r))).
Proof.
  intros World P Dp trim toLowerCase parseInt fuel config message w r.
  destruct (onMessageCreate_cases trim toLowerCase parseInt fuel config message w)
    as [[He _]|(_ & _ & _ & _ & first & args & _ & Hcmd)].
  { fold r in He. rewrite He. constructor. }
  fold r in Hcmd.
  destruct Hcmd as [(_ & amount & _ & Ha & Hr)|(_ & t & _ & _ & Hr)].
  - pose proof (commandBlock_run (commandMessage message)
                  (cleanMessages amount
                     (confirmationCallback (deleteConfirmationTimeout config)))
                  "Error in clean command:" w) as B.
    cbv zeta in B. rewrite <- Hr in B.
    destruct (msg_delete (commandMessage message) w) as [[u|e] w1].
    + assert (Hev : engineEvents (d_events r)
                    = events_of (cleanMessages amount
                        (confirmationCallback (deleteConfirmationTimeout config)) w1)).
      { destruct (outcome_of (cleanMessages amount
                   (confirmationCallback (deleteConfirmationTimeout config)) w1));
          rewrite B; cbn [d_events engineEvents];
          rewrite ?engineEvents_app, engineEvents_map; cbn [engineEvents];
          rewrite ?app_nil_r; reflexivity. }
      rewrite Hev, cleanMessages_fetchCalls. constructor; [exact Ha|constructor].
    + rewrite B. constructor.
  - pose proof (commandBlock_run (commandMessage message)
                  (cleanUntilMessage fuel t (confirmationCallback (Num 5000)))
                  "Error in cleanuntil command:" w) as B.
    cbv zeta in B. rewrite <- Hr in B.
    destruct (msg_delete (commandMessage message) w) as [[u|e] w1].
    + assert (Hev : engineEvents (d_events r)
                    = events_of (cleanUntilMessage fuel t
                                   (confirmationCallback (Num 5000)) w1)).
      { destruct (outcome_of (cleanUntilMessage fuel t
                                (confirmationCallback (Num 5000)) w1));
          rewrite B; cbn [d_events engineEvents];
          rewrite ?engineEvents_app, engineEvents_map; cbn [engineEvents];
          rewrite ?app_nil_r; reflexivity. }
      rewrite Hev. apply Forall_forall. intros o Ho.
      pose proof (cleanUntilMessage_fetchCalls fuel t
                    (confirmationCallback (Num 5000)) w1) as F.
      rewrite forallb_forall in F. specialize (F o Ho).
      apply Z.eqb_eq in F. lia.
    + rewrite B. constructor.
Qed.

(** X11.  A slash command makes the bot fetch or delete something only if
    the user is among the authorized users and the bot may manage messages,
    and only after the reply was deferred and that call resolved.  For
    [cleanuntil] the id is a non-empty string of digits; for [clean] the
    handler makes no test of its own, and the one fetch asks for whatever
    the option holds. *)
Theorem slash_command_gate :
  forall (World : Type) (P : Platform World) (Dp : Dispatch World)
         (fuel : nat) (config : Config) (interaction : Interaction) (w : World),
    let r := onInteractionCreate fuel config interaction w in
    engineEvents (d_events r) <> [] ->
    isCommand interaction = true
    /\ includes (user_id interaction) (authorizedUsers config) = true
    /\ botCanManageMessages interaction = true
    /\ (exists es, d_events r = DDeferReply (Resolved tt) :: map DEngine es)
    /\ ((commandName interaction = "clean"
         /\ fetchCalls (engineEvents (d_events r))
            = [mkOptions (option_amount interaction) None])
        \/ (commandName interaction = "cleanuntil"
            /\ exists targetMessageId,
                 option_messageid interaction = Some targetMessageId
                 /\ digitsOnly targetMessageId = true)).
Proof.
  intros World P Dp fuel config interaction w.
  cbv zeta. unfold onInteractionCreate.
  destruct (isCommand interaction); cbn [negb];
    [|intros Hc; exfalso; apply Hc; reflexivity].
  destruct (includes (user_id interaction) (authorizedUsers config)); cbn [negb].
  2:{ unfold dawait. destruct (interaction_reply NotAuthorized w) as [a w1].
      intros Hc; exfalso; apply Hc; reflexivity. }
  destruct (botCanManageMessages interaction); cbn [negb].
  2:{ unfold dawait. destruct (interaction_reply NeedPermission w) as [a w1].
      intros Hc; exfalso; apply Hc; reflexivity. }
  destruct (String.eqb (commandName interaction) "clean") eqn:Ec.
  - apply String.eqb_eq in Ec. unfold dbind, dawait, engine.
    destruct (interaction_deferReply w) as [[[]|e] w1];
      cbn [d_outcome d_events d_world app engineEvents];
      [|intros Hc; exfalso; apply Hc; reflexivity].
    intros _. repeat (split; [reflexivity|]).
    split; [eexists; reflexivity|]. left. split; [exact Ec|].
    rewrite engineEvents_map. apply cleanMessages_fetchCalls.
  - destruct (String.eqb (commandName interaction) "cleanuntil") eqn:Eu.
    + apply String.eqb_eq in Eu. cbv zeta.
      destruct (badMessageId (option_messageid interaction)) eqn:Eb.
      * unfold dawait. destruct (interaction_reply InvalidMessageId w) as [a w1].
        intros Hc; exfalso; apply Hc; reflexivity.
      * unfold dbind, dawait, engine.
        destruct (interaction_deferReply w) as [[[]|e] w1];
          cbn [d_outcome d_events d_world app engineEvents];
          [|intros Hc; exfalso; apply Hc; reflexivity].
        intros _. repeat (split; [reflexivity|]).
        split; [eexists; reflexivity|]. right. split; [exact Eu|].
        destruct (option_messageid interaction) as [t|];
          cbn [badMessageId] in Eb; [|discriminate].
        exists t. split; [reflexivity|].
        apply orb_false_iff in Eb. destruct Eb as [_ Eb].
        apply negb_false_iff in Eb. exact Eb.
    + destruct (String.eqb (commandName interaction) "help").
      * intros Hc; exfalso; apply Hc; reflexivity.
      * destruct (String.eqb (commandName interaction) "version").
        -- unfold dbind, dawait, floating.
           destruct (readPackageInfo w) as [[info|e] w1];
             cbn [d_outcome d_events d_world app];
             intros Hc; exfalso; apply Hc; reflexivity.
        -- intros Hc; exfalso; apply Hc; reflexivity.
Qed.

(** X11, an instance: [/cleanuntil 1003] of an authorized user. *)
Lemma slash_command_gate_witness :
  let r := onInteractionCreate 10 botConfig cleanUntilInteraction fiveRecent in
  engineEvents (d_events r) <> []
  /\ includes (user_id cleanUntilInteraction) (authorizedUsers botConfig) = true
  /\ exists es, d_events r = DDeferReply (Resolved tt) :: map DEngine es.
Proof.
  cbv zeta.
  assert (Hacts :
    engineEvents (d_events (onInteractionCreate 10 botConfig cleanUntilInteraction
                              fiveRecent)) <> [])
    by (vm_compute; discriminate).
  split; [exact Hacts|].
  destruct (slash_command_gate Channel ChannelPlatform ChannelDispatch 10 botConfig
              cleanUntilInteraction fiveRecent Hacts)
    as (_ & Hinc & _ & Hev & _).
  split; [exact Hinc | exact Hev].
Defined.

(** X12.  Only the [clean] prefix command reads the configured delay after
    which a confirmation is removed: for every other message the handler
    does the same whatever [deleteConfirmationTimeout] is ([cleanuntil]
    always uses 5000 ms). *)
Theorem only_clean_reads_timeout :
  forall (World : Type) (P : Platform World) (Dp : Dispatch World)
         (trim toLowerCase : string -> string) (parseInt : string -> JsNumber)
         (fuel : nat) (p : string) (users : list string)
         (timeout timeout' : JsNumber) (message : Incoming) (w : World),
    (forall first args,
        splitSpaces (trim (slice (String.length p) (content message)))
        = first :: args ->
        toLowerCase first <> "clean") ->
    onMessageCreate trim toLowerCase parseInt fuel (mkConfig p users timeout)
      message w
    = onMessageCreate trim toLowerCase parseInt fuel (mkConfig p users timeout')
        message w.
Proof.
  intros World P Dp trim toLowerCase parseInt fuel p users timeout timeout'
         message w Hcmd.
  unfold onMessageCreate.
  cbn [prefix authorizedUsers deleteConfirmationTimeout].
  destruct (author_bot message || negb (String.prefix p (content message)));
    [reflexivity|].
  destruct (negb (includes (author_id message) users)); [reflexivity|].
  destruct (negb (canManageMessages message)); [reflexivity|].
  destruct (splitSpaces (trim (slice (String.length p) (content message))))
    as [|first args] eqn:Eargs; [reflexivity|].
  cbv zeta.
  destruct (String.eqb (toLowerCase first) "clean") eqn:Ec; [|reflexivity].
  apply String.eqb_eq in Ec. destruct (Hcmd first args eq_refl Ec).
Qed.

(** X12, an instance: [cleanuntil] under two configured delays. *)
Lemma only_clean_reads_timeout_witness :
  (forall first args,
      splitSpaces (asciiTrim (slice (String.length "!") (content cleanUntilCommand)))
      = first :: args ->
      asciiLowerCase first <> "clean")
  /\ onMessageCreate asciiTrim asciiLowerCase parseDigits 10
       (mkConfig "!" ["42"] (Num 3000)) cleanUntilCommand
       (withCommand cleanUntilCommand fiveRecent)
     = onMessageCreate asciiTrim asciiLowerCase parseDigits 10
         (mkConfig "!" ["42"] (Num 1)) cleanUntilCommand
         (withCommand cleanUntilCommand fiveRecent).
Proof.
  assert (Hcmd : forall first args,
             splitSpaces (asciiTrim (slice (String.length "!")
                                           (content cleanUntilCommand)))
             = first :: args ->
             asciiLowerCase first <> "clean").
  { intros first args E. vm_compute in E. injection E as <- _.
    vm_compute. discriminate. }
  split; [exact Hcmd|].
  apply (only_clean_reads_timeout Channel ChannelPlatform ChannelDispatch
           asciiTrim asciiLowerCase parseDigits 10 "!" ["42"] (Num 3000) (Num 1)
           cleanUntilCommand (withCommand cleanUntilCommand fiveRecent) Hcmd).
Defined.

(** ** The handlers on the reference channel *)

Lemma confirmationCallback_leavesHistory timeout :
  leavesHistory (confirmationCallback timeout).
Proof.
  intros text c. unfold confirmationCallback.
  cbn [channel_send scheduleDelete ChannelDispatch]. unfold reference_call, nextFault.
  destruct (faults c) as [|[] rest]; split; reflexivity.
Qed.

Lemma reference_delete_top (msg : Message) (history : Collection) (c : Channel) :
  faults c = [] ->
  live c = msg :: history ->
  distinctIds (live c) ->
  msg_delete msg c = (Resolved tt, mkChannel history (clock c) []).
Proof.
  intros Hf Hl Hd. cbn [msg_delete ChannelPlatform]. unfold reference_delete.
  rewrite (nextFault_none c Hf), Hf. do 2 f_equal.
  pose proof (filter_keeps_firstn 1 (live c) Hd) as E.
  rewrite Hl in *. exact E.
Qed.

Lemma distinctIds_tail (msg : Message) (history : Collection) :
  distinctIds (msg :: history) -> distinctIds history.
Proof. unfold distinctIds. simpl. intros Hd. inversion Hd. assumption. Qed.

Lemma onInteractionCreate_unauthorized {World : Type} {P : Platform World}
    {Dp : Dispatch World} fuel config interaction (w : World) :
  includes (user_id interaction) (authorizedUsers config) = false ->
  engineEvents (d_events (onInteractionCreate fuel config interaction w)) = [].
Proof.
  intros Hinc. unfold onInteractionCreate.
  destruct (isCommand interaction); cbn [negb]; [|reflexivity].
  rewrite Hinc. cbn [negb]. unfold dawait.
  destruct (interaction_reply NotAuthorized w) as [a w1]. reflexivity.
Qed.

(** X14.  Without a [config.json], with one that cannot be read, or with
    one that names no authorized users, the bot is inert: no prefix command
    and no slash command makes it fetch or delete anything. *)
Theorem unconfigured_bot_is_inert :
  forall (World : Type) (P : Platform World) (Dp : Dispatch World)
         (trim toLowerCase : string -> string) (parseInt : string -> JsNumber)
         (fuel : nat) (file : option (result FileConfig)),
    (forall fileConfig,
        file = Some (Resolved fileConfig) -> file_authorizedUsers fileConfig = None) ->
    (forall (message : Incoming) (w : World),
        let r := onMessageCreate trim toLowerCase parseInt fuel (loadConfig file)
                   message w in
        engineEvents (d_events r) = [] /\ commandDeletes (d_events r) = [])
    /\ (forall (interaction : Interaction) (w : World),
           engineEvents
             (d_events (onInteractionCreate fuel (loadConfig file) interaction w))
           = []).
Proof.
  intros World P Dp trim toLowerCase parseInt fuel file Hfile.
  assert (Hnone : forall user, includes user (authorizedUsers (loadConfig file)) = false).
  { intros user. destruct file as [[fileConfig|e]|]; cbn [loadConfig]; try reflexivity.
    cbn [authorizedUsers]. rewrite (Hfile fileConfig eq_refl). reflexivity. }
  split.
  - intros message w r.
    destruct (onMessageCreate_cases trim toLowerCase parseInt fuel (loadConfig file)
                message w) as [Hq|(_ & _ & Hinc & _)]; [exact Hq|].
    rewrite Hnone in Hinc. discriminate.
  - intros interaction w. apply onInteractionCreate_unauthorized, Hnone.
Qed.

(** X14, an instance: no [config.json]. *)
Lemma unconfigured_bot_is_inert_witness :
  (forall fileConfig,
      @None (result FileConfig) = Some (Resolved fileConfig) ->
      file_authorizedUsers fileConfig = None)
  /\ engineEvents
       (d_events (onMessageCreate asciiTrim asciiLowerCase parseDigits 10
                    (loadConfig None) cleanCommand
                    (withCommand cleanCommand fiveRecent))) = []
  /\ engineEvents
       (d_events (onInteractionCreate 10 (loadConfig None) cleanUntilInteraction
                    fiveRecent)) = [].
Proof.
  assert (Hfile : forall fileConfig,
             @None (result FileConfig) = Some (Resolved fileConfig) ->
             file_authorizedUsers fileConfig = None)
    by (intros fileConfig E; discriminate E).
  split; [exact Hfile|].
  destruct (unconfigured_bot_is_inert Channel ChannelPlatform ChannelDispatch
              asciiTrim asciiLowerCase parseDigits 10 None Hfile) as [Hm Hi].
  split.
  - apply (Hm cleanCommand (withCommand cleanCommand fiveRecent)).
  - apply Hi.
Defined.

(** X15.  On a channel whose calls all succeed, with the command message
    on top of a history of distinct ids: an accepted [clean] command with a
    number from 1 to 100 removes the command message and that many of the
    newest messages below it (all of them if there are fewer), leaves the
    rest in order, and hands over one confirmation, with the number of
    messages removed below the command. *)
Theorem prefix_clean_removes_command_and_newest :
  forall (trim toLowerCase : string -> string) (parseInt : string -> JsNumber)
         (fuel : nat) (config : Config) (message : Incoming) (c : Channel)
         (history : Collection) (first : string) (args : list string) (amount : Z),
    faults c = [] ->
    live c = commandMessage message :: history ->
    distinctIds (live c) ->
    author_bot message = false ->
    String.prefix (prefix config) (content message) = true ->
    includes (author_id message) (authorizedUsers config) = true ->
    canManageMessages message = true ->
    splitSpaces (trim (slice (String.length (prefix config)) (content message)))
    = first :: args ->
    toLowerCase first = "clean" ->
    parseArgument parseInt (hd_error args) = Num amount ->
    (1 <= amount <= 100)%Z ->
    let r := onMessageCreate trim toLowerCase parseInt fuel config message c in
    d_outcome r = Ok tt
    /\ live (d_world r) = skipn (Z.to_nat amount) history
    /\ responses (engineEvents (d_events r))
       = [Deleted (Nat.min (Z.to_nat amount) (size history))].
Proof.
  intros trim toLowerCase parseInt fuel config message c history first args amount
         Hf Hl Hd Hbot Hpre Hinc Hperm Hargs Hcmd Hparse Hrange r.
  subst r. unfold onMessageCreate.
  rewrite Hbot, Hpre, Hinc, Hperm. cbn [orb negb]. rewrite Hargs. cbv zeta.
  rewrite Hcmd, Hparse. cbn [String.eqb Ascii.eqb Bool.eqb andb outOfRange integerValue].
  replace ((amount <? 1)%Z || (100 <? amount)%Z) with false
    by (symmetry; apply orb_false_intro; apply Z.ltb_ge; lia).
  pose proof (commandBlock_run (commandMessage message)
                (cleanMessages amount
                   (confirmationCallback (deleteConfirmationTimeout config)))
                "Error in clean command:" c) as B.
  cbv zeta in B.
  rewrite (reference_delete_top _ history c Hf Hl Hd) in B.
  assert (Hd' : distinctIds history)
    by (rewrite Hl in Hd; exact (distinctIds_tail _ _ Hd)).
  destruct (cleanMessages_faultless (mkChannel history (clock c) []) amount
              (confirmationCallback (deleteConfirmationTimeout config))
              eq_refl Hd' Hrange (confirmationCallback_leavesHistory _))
    as (Ho & Hlive & Hresp & _).
  rewrite Ho in B. rewrite B. cbn [d_outcome d_world d_events engineEvents].
  rewrite engineEvents_map.
  split; [reflexivity|]. split; [exact Hlive | exact Hresp].
Qed.

(** X15, an instance: [!clean 2] above five recent messages. *)
Lemma prefix_clean_removes_command_and_newest_witness :
  let r := onMessageCreate asciiTrim asciiLowerCase parseDigits 10 botConfig
             cleanCommand (withCommand cleanCommand fiveRecent) in
  d_outcome r = Ok tt
  /\ map id (live (d_world r)) = ["1003"; "1002"; "1001"]
  /\ responses (engineEvents (d_events r)) = [Deleted 2].
Proof.
  cbv zeta.
  assert (Hd : distinctIds (live (withCommand cleanCommand fiveRecent)))
    by (apply newestFirst_distinct, newestFirstb_sound; vm_compute; reflexivity).
  assert (Hr : (1 <= 2 <= 100)%Z) by lia.
  destruct (prefix_clean_removes_command_and_newest
              asciiTrim asciiLowerCase parseDigits 10 botConfig cleanCommand
              (withCommand cleanCommand fiveRecent) (live fiveRecent)
              "clean" ["2"] 2
              eq_refl eq_refl Hd eq_refl eq_refl eq_refl eq_refl eq_refl eq_refl
              eq_refl Hr) as (Ho & Hl & Hresp).
  rewrite Ho, Hl, Hresp. repeat split; reflexivity.
Defined.

(** X16.  On a channel whose calls all succeed, newest first, with the
    command message on top: an accepted [cleanuntil] command whose id is
    that of a message of the history, every message above which was
    created after it, removes the command message and every message newer
    than the target, leaves the target and all that is older, and hands
    over one confirmation, with the number of messages removed below the
    command.  (A message on the target's page created in the same
    millisecond as the target is left in place, and the count is lower by
    it.) *)
Theorem prefix_cleanuntil_removes_command_and_newer :
  forall (trim toLowerCase : string -> string) (parseInt : string -> JsNumber)
         (fuel : nat) (config : Config) (message : Incoming) (c : Channel)
         (newer older : Collection) (target : Message)
         (first : string) (args : list string),
    faults c = [] ->
    live c = commandMessage message :: newer ++ target :: older ->
    newestFirst (live c) ->
    Forall (fun m => (createdTimestamp target < createdTimestamp m)%Z) newer ->
    (size (live c) <= fuel)%nat ->
    author_bot message = false ->
    String.prefix (prefix config) (content message) = true ->
    includes (author_id message) (authorizedUsers config) = true ->
    canManageMessages message = true ->
    splitSpaces (trim (slice (String.length (prefix config)) (content message)))
    = first :: args ->
    toLowerCase first = "cleanuntil" ->
    hd_error args = Some (id target) ->
    digitsOnly (id target) = true ->
    let r := onMessageCreate trim toLowerCase parseInt fuel config message c in
    d_outcome r = Ok tt
    /\ live (d_world r) = target :: older
    /\ responses (engineEvents (d_events r)) = [DeletedUpTo (size newer)].
Proof.
  intros trim toLowerCase parseInt fuel config message c newer older target first
         args Hf Hl Hs Hts Hfuel Hbot Hpre Hinc Hperm Hargs Hcmd Hid Hdigits r.
  subst r. unfold onMessageCreate.
  rewrite Hbot, Hpre, Hinc, Hperm. cbn [orb negb]. rewrite Hargs. cbv zeta.
  rewrite Hcmd, Hid.
  cbn [String.eqb Ascii.eqb Bool.eqb andb badMessageId stringValue].
  assert (Htruthy : truthy (Some (id target)) = true).
  { destruct (id target); [discriminate Hdigits | reflexivity]. }
  rewrite Htruthy, Hdigits. cbn [negb orb].
  pose proof (commandBlock_run (commandMessage message)
                (cleanUntilMessage fuel (id target) (confirmationCallback (Num 5000)))
                "Error in cleanuntil command:" c) as B.
  cbv zeta in B.
  rewrite (reference_delete_top _ (newer ++ target :: older) c Hf Hl
             (newestFirst_distinct _ Hs)) in B.
  assert (Hs' : newestFirst (newer ++ target :: older)).
  { rewrite Hl in Hs. unfold newestFirst in *.
    apply StronglySorted_inv in Hs. apply Hs. }
  assert (Hfuel' : (size (newer ++ target :: older) < fuel)%nat).
  { rewrite Hl in Hfuel. unfold size in *. simpl in Hfuel. lia. }
  destruct (cleanUntilMessage_faultless
              (mkChannel (newer ++ target :: older) (clock c) []) newer older target
              fuel (confirmationCallback (Num 5000))
              eq_refl eq_refl Hs' Hts Hfuel' (confirmationCallback_leavesHistory _))
    as (Ho & Hlive & Hresp).
  rewrite Ho in B. rewrite B. cbn [d_outcome d_world d_events engineEvents].
  rewrite engineEvents_map.
  split; [reflexivity|]. split; [exact Hlive | exact Hresp].
Qed.

(** X16, an instance: [!CleanUntil  1003] above five recent messages. *)
Lemma prefix_cleanuntil_removes_command_and_newer_witness :
  let r := onMessageCreate asciiTrim asciiLowerCase parseDigits 10 botConfig
             cleanUntilCommand (withCommand cleanUntilCommand fiveRecent) in
  d_outcome r = Ok tt
  /\ map id (live (d_world r)) = ["1003"; "1002"; "1001"]
  /\ responses (engineEvents (d_events r)) = [DeletedUpTo 2].
Proof.
  cbv zeta.
  assert (Hs : newestFirst (live (withCommand cleanUntilCommand fiveRecent)))
    by (apply newestFirstb_sound; vm_compute; reflexivity).
  assert (Hts : Forall (fun m => (createdTimestamp (mkMessage "1003" (100 * day + 3))
                                  < createdTimestamp m)%Z)
                       [mkMessage "1005" (100 * day + 5);
                        mkMessage "1004" (100 * day + 4)])
    by (repeat constructor).
  assert (Hfuel : (size (live (withCommand cleanUntilCommand fiveRecent)) <= 10)%nat)
    by (vm_compute; lia).
  destruct (prefix_cleanuntil_removes_command_and_newer
              asciiTrim asciiLowerCase parseDigits 10 botConfig cleanUntilCommand
              (withCommand cleanUntilCommand fiveRecent)
              [mkMessage "1005" (100 * day + 5); mkMessage "1004" (100 * day + 4)]
              [mkMessage "1002" (100 * day + 2); mkMessage "1001" (100 * day + 1)]
              (mkMessage "1003" (100 * day + 3))
              "CleanUntil" ["1003"]
              eq_refl eq_refl Hs Hts Hfuel eq_refl eq_refl eq_refl eq_refl eq_refl
              eq_refl eq_refl eq_refl) as (Ho & Hl & Hresp).
  rewrite Ho, Hl, Hresp. repeat split; reflexivity.
Defined.

(** ** The setup script *)

Lemma askUserId_accepts refused authorizedUser rest :
  Forall (fun a => digitsOnly a = false) refused ->
  digitsOnly authorizedUser = true ->
  askUserId (refused ++ authorizedUser :: rest) = Some (authorizedUser, rest).
Proof.
  intros Hr Hd. induction Hr as [|a refused Ha _ IH]; simpl.
  - rewrite Hd. reflexivity.
  - rewrite Ha. exact IH.
Qed.

Lemma askUserId_digits answers authorizedUser rest :
  askUserId answers = Some (authorizedUser, rest) ->
  digitsOnly authorizedUser = true.
Proof.
  induction answers as [|a l IH]; simpl; intros E; [discriminate|].
  destruct (digitsOnly a) eqn:Ed; cbn [negb] in E; [|exact (IH E)].
  injection E as <- _. exact Ed.
Qed.

Lemma askUserId_reads answers authorizedUser rest :
  askUserId answers = Some (authorizedUser, rest) ->
  exists refused, answers = refused ++ authorizedUser :: rest.
Proof.
  induction answers as [|a l IH]; simpl; intros E; [discriminate|].
  destruct (digitsOnly a); cbn [negb] in E.
  - injection E as <- <-. exists []. reflexivity.
  - destruct (IH E) as [refused ->]. exists (a :: refused). reflexivity.
Qed.

(** X13.  [configureBotSettings] asks for the prefix, asks for the user id
    until the answer is a non-empty string of digits, then asks for the
    additional ids and for the timeout, and writes: the prefix as typed
    ([!] when the answer was blank), the accepted id followed by those
    additional ids that are strings of digits, and as timeout the number
    typed when it is positive, 5000 when the answer was blank or not a
    positive number, and [null] when the number typed is too large to be
    finite.  So whatever it writes has a prefix that is not empty, a list of
    authorized users that are all non-empty strings of digits and whose
    first entry passes the handlers' test of authorization, and a timeout
    that is a positive number or [null]. *)
Theorem setup_config_valid :
  forall (trim : string -> string) (parseInt10 : string -> JsNumber),
    trim EmptyString = EmptyString ->
    (forall (answer : string) (refused : list string)
            (authorizedUser additionalUsersInput timeoutStr : string)
            (rest : list string),
        Forall (fun a => digitsOnly a = false) refused ->
        digitsOnly authorizedUser = true ->
        configureBotSettings trim parseInt10
          (answer :: refused
             ++ authorizedUser :: additionalUsersInput :: timeoutStr :: rest)
        = Some (mkConfigJson
                  (if blank trim answer then "!" else answer)
                  (authorizedUser
                     :: (if blank trim additionalUsersInput then []
                         else filter digitsOnly
                                (map trim (splitCommas additionalUsersInput))))
                  (if blank trim timeoutStr then Some 5000%Z
                   else match parseInt10 timeoutStr with
                        | NaN => Some 5000%Z
                        | Num z => if (0 <? z)%Z then Some z else Some 5000%Z
                        | Infinity negative =>
                            if negative then Some 5000%Z else None
                        end),
                rest))
    /\ (forall (answers : list string) (written : ConfigJson) (rest : list string),
           configureBotSettings trim parseInt10 answers = Some (written, rest) ->
           json_prefix written <> EmptyString
           /\ (exists authorizedUser additionalUsers,
                 json_authorizedUsers written = authorizedUser :: additionalUsers
                 /\ includes authorizedUser (json_authorizedUsers written) = true)
           /\ forallb digitsOnly (json_authorizedUsers written) = true
           /\ match json_deleteConfirmationTimeout written with
              | Some z => (0 < z)%Z
              | None =>
                  exists timeoutStr,
                    In timeoutStr answers
                    /\ parseInt10 timeoutStr = Infinity false
              end).
Proof.
  intros trim parseInt10 Htrim. split.
  - intros answer refused authorizedUser additionalUsersInput timeoutStr rest Hr Hd.
    unfold configureBotSettings.
    rewrite (askUserId_accepts refused authorizedUser _ Hr Hd). cbv zeta.
    unfold JSON_stringify. cbn [prefix authorizedUsers deleteConfirmationTimeout].
    do 2 f_equal. f_equal.
    + destruct (blank trim additionalUsersInput); reflexivity.
    + destruct (blank trim timeoutStr); cbn [negb]; [reflexivity|].
      destruct (parseInt10 timeoutStr) as [|z|[]]; cbn [positiveNumber negb];
        try reflexivity.
      destruct (0 <? z)%Z; reflexivity.
  - intros answers written rest. unfold configureBotSettings.
    destruct answers as [|answer answers1]; [discriminate|].
    destruct (askUserId answers1) as [[authorizedUser answers2]|] eqn:Eask;
      [|discriminate].
    destruct answers2 as [|additionalUsersInput [|timeoutStr rest']];
      try discriminate.
    cbv zeta. intros E. injection E as <- <-.
    unfold JSON_stringify.
    cbn [prefix authorizedUsers deleteConfirmationTimeout json_prefix
         json_authorizedUsers json_deleteConfirmationTimeout].
    pose proof (askUserId_digits _ _ _ Eask) as Hid.
    split; [|split; [|split]].
    + destruct (blank trim answer) eqn:Eb; [discriminate|].
      intros ->. unfold blank in Eb. rewrite Htrim in Eb. discriminate.
    + eexists; eexists. split; [reflexivity|].
      unfold includes. cbn [existsb]. rewrite String.eqb_refl. reflexivity.
    + cbn [forallb]. rewrite Hid. cbn [andb].
      destruct (negb (blank trim additionalUsersInput)); [|reflexivity].
      apply forallb_forall. intros x Hx. apply filter_In in Hx. apply Hx.
    + assert (Hin : In timeoutStr (answer :: answers1)).
      { right. destruct (askUserId_reads _ _ _ Eask) as [refused ->].
        apply in_or_app. right. right. right. left. reflexivity. }
      destruct (negb (blank trim timeoutStr)); cbn [stringifyNumber]; [|lia].
      destruct (parseInt10 timeoutStr) as [|z|[]] eqn:Ep;
        cbn [positiveNumber negb stringifyNumber]; try lia.
      * destruct (0 <? z)%Z eqn:Ez; cbn [stringifyNumber]; [|lia].
        apply Z.ltb_lt, Ez.
      * exists timeoutStr. split; [exact Hin | exact Ep].
Qed.

(** X13, an instance: a blank prefix, one refused id, two additional ids
    kept out of three. *)
Lemma setup_config_valid_witness :
  asciiTrim EmptyString = EmptyString
  /\ Forall (fun a => digitsOnly a = false) ["my id"]
  /\ digitsOnly "42" = true
  /\ configureBotSettings asciiTrim parseDigits typedAnswers
     = Some (mkConfigJson "!" ["42"; "7"; "8"] (Some 2500%Z), ["token"])
  /\ forallb digitsOnly ["42"; "7"; "8"] = true.
Proof.
  assert (Ht : asciiTrim EmptyString = EmptyString) by reflexivity.
  assert (Hr : Forall (fun a => digitsOnly a = false) ["my id"])
    by (repeat constructor).
  assert (Hd : digitsOnly "42" = true) by reflexivity.
  destruct (setup_config_valid asciiTrim parseDigits Ht) as [Hwrites Hvalid].
  pose proof (Hwrites EmptyString ["my id"] "42" "7, seven ,8" "2500" ["token"] Hr Hd)
    as E.
  split; [exact Ht|]. split; [exact Hr|]. split; [exact Hd|].
  split; [exact E|].
  destruct (Hvalid _ _ _ E) as (_ & _ & Hall & _). exact Hall.
Defined.

(** ** The token question *)

(** X17.  [setupBotToken] asks again after every empty answer and takes the
    first answer that is not the empty string, whatever it is.  An answer
    of blanks only is complained about like an empty one, and is taken as
    the token all the same.  While all answers are empty nothing is
    written. *)
Theorem blank_token_is_taken :
  forall (trim : string -> string),
    trim EmptyString = EmptyString ->
    (forall (skipped : list string) (token : string) (rest : list string),
        Forall (fun a => a = EmptyString) skipped ->
        token <> EmptyString ->
        setupBotToken trim (skipped ++ token :: rest)
        = Some (token,
                (List.length skipped + if blank trim token then 1 else 0)%nat,
                rest))
    /\ (forall (answers : list string),
           Forall (fun a => a = EmptyString) answers ->
           setupBotToken trim answers = None)
    /\ (forall (answers : list string) (token : string) (complaints : nat)
               (rest : list string),
           setupBotToken trim answers = Some (token, complaints, rest) ->
           token <> EmptyString
           /\ exists skipped,
                answers = skipped ++ token :: rest
                /\ Forall (fun a => a = EmptyString) skipped).
Proof.
  intros trim Htrim.
  assert (Hblank : blank trim EmptyString = true)
    by (unfold blank; rewrite Htrim; reflexivity).
  split; [|split].
  - intros skipped token rest Hs Ht. unfold setupBotToken.
    change (List.length skipped) with (0 + List.length skipped)%nat.
    generalize 0%nat at 1 2 as complaints0.
    induction Hs as [|a skipped Ha _ IH]; intros complaints0.
    + simpl. destruct token as [|ch token']; [contradiction Ht; reflexivity|].
      cbn [truthy negb]. rewrite Nat.add_0_r.
      destruct (blank trim (String ch token')); do 2 f_equal; f_equal; lia.
    + subst a. simpl. rewrite Hblank. cbn [negb].
      rewrite (IH (S complaints0)). do 2 f_equal. f_equal. lia.
  - intros answers Ha. unfold setupBotToken. generalize 0%nat as complaints0.
    induction Ha as [|a answers Ha _ IH]; intros complaints0; [reflexivity|].
    subst a. simpl. apply IH.
  - intros answers token complaints rest. unfold setupBotToken.
    generalize 0%nat as complaints0.
    induction answers as [|a answers IH]; intros complaints0 E;
      simpl in E; [discriminate|].
    destruct a as [|ch a'].
    + cbn [truthy negb] in E.
      destruct (IH _ E) as (Hne & skipped & Ha & Hall).
      split; [exact Hne|]. exists (EmptyString :: skipped).
      split; [simpl; rewrite Ha; reflexivity|].
      constructor; [reflexivity | exact Hall].
    + cbn [truthy negb] in E. injection E as <- _ <-.
      split; [discriminate|]. exists []. split; [reflexivity | constructor].
Qed.

(** X17, an instance: an empty line, then a line of two spaces. *)
Lemma blank_token_is_taken_witness :
  asciiTrim EmptyString = EmptyString
  /\ Forall (fun a => a = EmptyString) [EmptyString]
  /\ "  " <> EmptyString
  /\ blank asciiTrim "  " = true
  /\ setupBotToken asciiTrim [EmptyString; "  "; "secret"]
     = Some ("  ", 2%nat, ["secret"]).
Proof.
  assert (Ht : asciiTrim EmptyString = EmptyString) by reflexivity.
  assert (Hs : Forall (fun a => a = EmptyString) [EmptyString])
    by (repeat constructor).
  assert (Hne : "  " <> EmptyString) by discriminate.
  split; [exact Ht|]. split; [exact Hs|]. split; [exact Hne|].
  split; [reflexivity|].
  exact (proj1 (blank_token_is_taken asciiTrim Ht) [EmptyString] "  " ["secret"]
           Hs Hne).
Defined.
